(** * sd-public-safety: the batch pipeline (ingest, transform, validate)

    A shallow embedding of [src/pipeline/ingest.py], [src/pipeline/transform.py]
    and [src/pipeline/validate.py].  SQL statements are embedded as list
    programs over records: a table is a [list] of rows, a nullable column is an
    [option], [WHERE] is [filter], [GROUP BY] collects the rows of each distinct
    key, and the builtins of the SQL engine whose code is not part of the
    repository (casts from text, [ORDER BY]) are the fields of [Engine]. *)

From Stdlib Require Import ZArith QArith Qabs Ascii String DecimalString DecimalZ.
From Stdlib Require Import Floats.PrimFloat.
From Stdlib Require Floats.SpecFloat Floats.FloatOps Floats.FloatAxioms.
From stdpp Require Import base decidable option list sorting strings gmap.

Local Open Scope string_scope.
Local Open Scope Z_scope.

(** ** Text builtins: LOWER, UPPER, REPLACE, LIKE, ILIKE

    A string is its sequence of bytes.  Letter case is folded on the ASCII
    letters only; the engine folds other letters too, so on text with bytes
    of 128 and above these definitions are the engine's builtins only up to
    that folding. *)

Module Text.

Definition lower_char (c : ascii) : ascii :=
  let n := N_of_ascii c in
  if ((65 <=? n) && (n <=? 90))%N then ascii_of_N (n + 32) else c.

Definition upper_char (c : ascii) : ascii :=
  let n := N_of_ascii c in
  if ((97 <=? n) && (n <=? 122))%N then ascii_of_N (n - 32) else c.

Fixpoint LOWER (s : string) : string :=
  match s with
  | EmptyString => EmptyString
  | String c s' => String (lower_char c) (LOWER s')
  end.

Fixpoint UPPER (s : string) : string :=
  match s with
  | EmptyString => EmptyString
  | String c s' => String (upper_char c) (UPPER s')
  end.

(** [REPLACE(s, ' ', '')]: every space character is dropped; tabs and other
    white space stay. *)
Fixpoint REPLACE_space (s : string) : string :=
  match s with
  | EmptyString => EmptyString
  | String c s' =>
      if Ascii.eqb c " " then REPLACE_space s' else String c (REPLACE_space s')
  end.

(** [s LIKE pat]: [%] matches any run of characters, [_] exactly one. *)
Fixpoint LIKE (pat s : string) {struct pat} : bool :=
  match pat with
  | EmptyString => match s with EmptyString => true | String _ _ => false end
  | String "%" pat' =>
      (fix any_suffix (s : string) : bool :=
         LIKE pat' s
         || match s with
            | EmptyString => false
            | String _ s' => any_suffix s'
            end) s
  | String "_" pat' =>
      match s with EmptyString => false | String _ s' => LIKE pat' s' end
  | String c pat' =>
      match s with
      | EmptyString => false
      | String d s' => Ascii.eqb c d && LIKE pat' s'
      end
  end.

(** [s ILIKE pat]: LIKE without regard to letter case. *)
Definition ILIKE (s pat : string) : bool := LIKE (LOWER pat) (LOWER s).

Fixpoint only_spaces (s : string) : bool :=
  match s with
  | EmptyString => true
  | String c s' => Ascii.eqb c " " && only_spaces s'
  end.

End Text.
Import Text.

(** ** The agency short-name mapping ([_AGENCY_CASE], transform.py 17-32) *)

Definition agency_case (agency : string) : string :=
  if ILIKE agency "SAN DIEGO" then "SDPD"
  else if ILIKE agency "%SHERIFF%" || ILIKE agency "%SD COUNTY%" then "SDSO"
  else if ILIKE agency "CHULA VISTA" then "CVPD"
  else if ILIKE agency "OCEANSIDE" then "OPD"
  else if ILIKE agency "ESCONDIDO" then "EPD"
  else if ILIKE agency "CARLSBAD" then "CPD"
  else if ILIKE agency "EL CAJON" then "ECPD"
  else if ILIKE agency "NATIONAL CITY" then "NCPD"
  else if ILIKE agency "LA MESA" then "LMPD"
  else if ILIKE agency "CORONADO" then "CoronPD"
  else if ILIKE agency "VISTA" then "VPD"
  else UPPER (REPLACE_space agency).

(** On a NULL agency every [WHEN] is NULL, so the [ELSE] branch runs and
    [UPPER(REPLACE(NULL, ...))] is NULL. *)
Definition _AGENCY_CASE (agency : option string) : option string :=
  agency_case <$> agency.

(** The arrests track spells the same CASE out again on [arrest_agency]
    (transform.py 122-135). *)
Definition arrest_agency_case (arrest_agency : string) : string :=
  if ILIKE arrest_agency "SAN DIEGO" then "SDPD"
  else if ILIKE arrest_agency "%SHERIFF%" || ILIKE arrest_agency "%SD COUNTY%"
       then "SDSO"
  else if ILIKE arrest_agency "CHULA VISTA" then "CVPD"
  else if ILIKE arrest_agency "OCEANSIDE" then "OPD"
  else if ILIKE arrest_agency "ESCONDIDO" then "EPD"
  else if ILIKE arrest_agency "CARLSBAD" then "CPD"
  else if ILIKE arrest_agency "EL CAJON" then "ECPD"
  else if ILIKE arrest_agency "NATIONAL CITY" then "NCPD"
  else if ILIKE arrest_agency "LA MESA" then "LMPD"
  else if ILIKE arrest_agency "CORONADO" then "CoronPD"
  else if ILIKE arrest_agency "VISTA" then "VPD"
  else UPPER (REPLACE_space arrest_agency).

(** No [WHEN] of the CASE fires. *)
Definition no_rule_matches (agency : string) : bool :=
  negb (ILIKE agency "SAN DIEGO"
        || ILIKE agency "%SHERIFF%" || ILIKE agency "%SD COUNTY%"
        || ILIKE agency "CHULA VISTA" || ILIKE agency "OCEANSIDE"
        || ILIKE agency "ESCONDIDO" || ILIKE agency "CARLSBAD"
        || ILIKE agency "EL CAJON" || ILIKE agency "NATIONAL CITY"
        || ILIKE agency "LA MESA" || ILIKE agency "CORONADO"
        || ILIKE agency "VISTA").

(** ** Calendar builtins

    The engine stores a DATE as the number of days since 1970-01-01 and a
    TIMESTAMP as the number of microseconds since 1970-01-01 00:00:00. *)

Module Calendar.

Definition days_from_civil (y m d : Z) : Z :=
  let y' := if m <=? 2 then y - 1 else y in
  let era := y' / 400 in
  let yoe := y' - era * 400 in
  let mp := if 2 <? m then m - 3 else m + 9 in
  let doy := (153 * mp + 2) / 5 + d - 1 in
  let doe := yoe * 365 + yoe / 4 - yoe / 100 + doy in
  era * 146097 + doe - 719468.

(** Year, month and day of a day number. *)
Definition civil_from_days (days : Z) : Z * Z * Z :=
  let z := days + 719468 in
  let era := z / 146097 in
  let doe := z - era * 146097 in
  let yoe := (doe - doe / 1460 + doe / 36524 - doe / 146096) / 365 in
  let doy := doe - (365 * yoe + yoe / 4 - yoe / 100) in
  let mp := (5 * doy + 2) / 153 in
  let d := doy - (153 * mp + 2) / 5 + 1 in
  let m := if mp <? 10 then mp + 3 else mp - 9 in
  let y := yoe + era * 400 in
  (if m <=? 2 then y + 1 else y, m, d).

Definition YEAR (date : Z) : Z := (civil_from_days date).1.1.
Definition MONTH (date : Z) : Z := (civil_from_days date).1.2.
Definition QUARTER (date : Z) : Z := (MONTH date - 1) / 3 + 1.
(** Sunday is 0, Saturday is 6; 1970-01-01 was a Thursday. *)
Definition DAYOFWEEK (date : Z) : Z := (date + 4) mod 7.
Definition DATE_TRUNC_month (date : Z) : Z :=
  days_from_civil (YEAR date) (MONTH date) 1.

Definition micros_per_hour : Z := 3600 * 1000000.
Definition micros_per_day : Z := 24 * micros_per_hour.
Definition HOUR (timestamp : Z) : Z :=
  (timestamp mod micros_per_day) / micros_per_hour.

End Calendar.
Import Calendar.

(** ** The SQL engine

    What the pipeline asks of the engine and the repository does not define:
    the casts from text ([TRY_CAST] gives NULL where the text does not parse)
    and [ORDER BY].  [ORDER BY] returns the rows sorted by the given order;
    where two rows compare equal, which one comes first is the engine's
    choice. *)

Record Engine : Type := {
  TRY_CAST_DATE : string → option Z;
  TRY_CAST_TIMESTAMP : string → option Z;
  TRY_CAST_INT : string → option Z;
  ORDER_BY : ∀ A : Type, (A → A → bool) → list A → list A;
  ORDER_BY_perm : ∀ A (le : A → A → bool) (l : list A),
    ORDER_BY A le l ≡ₚ l;
  ORDER_BY_sorted : ∀ A (le : A → A → bool) (l : list A),
    (∀ x y z, le x y = true → le y z = true → le x z = true) →
    (∀ x y, le x y = true ∨ le y x = true) →
    StronglySorted (λ x y, le x y = true) (ORDER_BY A le l)
}.
Arguments ORDER_BY _ {_} _ _.

(** Column orders used by the statements. *)
Definition DESC_NULLS_LAST (a b : option Z) : bool :=
  match a, b with
  | Some x, Some y => y <=? x
  | Some _, None => true
  | None, Some _ => false
  | None, None => true
  end.

Definition ASC_NULLS_LAST (a b : option Z) : bool :=
  match a, b with
  | Some x, Some y => x <=? y
  | Some _, None => true
  | None, Some _ => false
  | None, None => true
  end.

Definition DESC_count (a b : nat) : bool := (b <=? a)%nat.

(** ** Relational operators *)

Section Relational.
Context {R K : Type} `{EqDecision K}.

(** The rows of each distinct key, keys in order of first appearance. *)
Definition PARTITION_BY (key : R → K) (rows : list R) : list (K * list R) :=
  (λ k, (k, filter (λ r, key r = k) rows)) <$> remove_dups (key <$> rows).

(** [ROW_NUMBER() OVER (PARTITION BY key ORDER BY ord DESC NULLS LAST)]:
    every row paired with its number inside its partition, from 1. *)
Definition ROW_NUMBER (E : Engine) (key : R → K) (ord : R → option Z)
    (rows : list R) : list (R * nat) :=
  p ← PARTITION_BY key rows;
  imap (λ i r, (r, S i))
       (ORDER_BY E (λ a b, DESC_NULLS_LAST (ord a) (ord b)) p.2).

End Relational.

(** [COUNT( * )] and [SUM(CASE WHEN flag THEN 1 ELSE 0 END)]. *)
Definition COUNT {R} (rows : list R) : nat := length rows.
Definition SUM_CASE {R} (flag : R → bool) (rows : list R) : nat :=
  sum_list_with (λ r, if flag r then 1%nat else 0%nat) rows.

(** [l LEFT JOIN r ON on]: every left row with each matching right row, or
    once with NULLs when nothing matches. *)
Definition LEFT_JOIN {A B} (on : A → B → bool) (l : list A) (r : list B)
    : list (A * option B) :=
  a ← l;
  match List.filter (on a) r with
  | [] => [(a, None)]
  | ms => (λ b, (a, Some b)) <$> ms
  end.

(** [x = y] on nullable text: NULL never equals anything. *)
Definition sql_eqb (x y : option string) : bool :=
  match x, y with
  | Some a, Some b => String.eqb a b
  | _, _ => false
  end.

(** ** Track 1: CIBRS Group A -> crime ([_transform_crime]) *)

(** A row of [raw_crime], as [read_json] delivers it. *)
Module RawCrime.
Record row : Type := {
  incidentuid : option string;
  incident_date : option string;
  agency : option string;
  crime_against_category : option string;
  cibrs_grouped_offense_description : option string;
  cibrs_offense_description : option string;
  victim_age : option string;
  victim_race : option string;
  victim_sex : option string;
  zip_code : option string;
  city : option string;
  domestic_violence_incident : option bool;
  stolen_vehicles : option string;
  location_coordinates : option (list float)
}.
End RawCrime.

(** A row of the canonical [crime] table. *)
Module Crime.
Record row : Type := {
  incidentuid : option string;
  incident_date : option Z;
  year : option Z;
  month : option Z;
  quarter : option Z;
  dow : option Z;
  month_start : option Z;
  agency : option string;
  agency_short : option string;
  crime_against : option string;
  offense_group : option string;
  offense_description : option string;
  victim_age : option Z;
  victim_race : option string;
  victim_sex : option string;
  zip_code : option string;
  city : option string;
  is_domestic_violence : bool;
  is_stolen_vehicle : bool;
  lat : option float;
  lng : option float
}.
End Crime.

(** [CASE WHEN TRY_CAST(stolen_vehicles AS INT) > 0 THEN true
         WHEN LOWER(cibrs_offense_description) LIKE '%motor vehicle theft%'
         THEN true ELSE false END] *)
Definition is_stolen_vehicle_case (E : Engine) (r : RawCrime.row) : bool :=
  if default false
       ((λ n, 0 <? n) <$> (RawCrime.stolen_vehicles r ≫= TRY_CAST_INT E))
  then true
  else if default false
            ((λ d, LIKE "%motor vehicle theft%" (LOWER d))
               <$> RawCrime.cibrs_offense_description r)
  then true
  else false.

(** The select list of the inner query, without [_rn]. *)
Definition crime_select (E : Engine) (r : RawCrime.row) : Crime.row :=
  let date := RawCrime.incident_date r ≫= TRY_CAST_DATE E in
  {| Crime.incidentuid := RawCrime.incidentuid r;
     Crime.incident_date := date;
     Crime.year := YEAR <$> date;
     Crime.month := MONTH <$> date;
     Crime.quarter := QUARTER <$> date;
     Crime.dow := DAYOFWEEK <$> date;
     Crime.month_start := DATE_TRUNC_month <$> date;
     Crime.agency := RawCrime.agency r;
     Crime.agency_short := _AGENCY_CASE (RawCrime.agency r);
     Crime.crime_against := RawCrime.crime_against_category r;
     Crime.offense_group := RawCrime.cibrs_grouped_offense_description r;
     Crime.offense_description := RawCrime.cibrs_offense_description r;
     Crime.victim_age := RawCrime.victim_age r ≫= TRY_CAST_INT E;
     Crime.victim_race := RawCrime.victim_race r;
     Crime.victim_sex := RawCrime.victim_sex r;
     Crime.zip_code := RawCrime.zip_code r;
     Crime.city := RawCrime.city r;
     Crime.is_domestic_violence :=
       default false (RawCrime.domestic_violence_incident r);
     Crime.is_stolen_vehicle := is_stolen_vehicle_case E r;
     (* list indices start at 1: coordinates[2], coordinates[1] *)
     Crime.lat := RawCrime.location_coordinates r ≫= (λ c, c !! 1%nat);
     Crime.lng := RawCrime.location_coordinates r ≫= (λ c, c !! 0%nat) |}.

Definition crime_partition_key (r : RawCrime.row)
    : option string * option string :=
  (RawCrime.incidentuid r, RawCrime.cibrs_offense_description r).

Definition crime_order_key (E : Engine) (r : RawCrime.row) : option Z :=
  RawCrime.incident_date r ≫= TRY_CAST_TIMESTAMP E.

(** [CREATE OR REPLACE TABLE crime AS
     SELECT * EXCLUDE (_rn) FROM (SELECT ..., ROW_NUMBER() OVER (...) AS _rn
                                 FROM raw_crime) WHERE _rn = 1] *)
Definition crime_table (E : Engine) (raw_crime : list RawCrime.row)
    : list Crime.row :=
  let inner :=
    (λ p, (crime_select E p.1, p.2))
      <$> ROW_NUMBER E crime_partition_key (crime_order_key E) raw_crime in
  fst <$> filter (λ p, p.2 = 1%nat) inner.

(** ** Track 2: CIBRS Group B -> arrests ([_transform_arrests]) *)

Module RawArrest.
Record row : Type := {
  incident_uid : option string;
  arrest_date : option string;
  arrest_agency : option string;
  offense_code : option string;
  offense_description : option string
}.
End RawArrest.

Module Arrest.
Record row : Type := {
  incidentuid : option string;
  incident_date : option Z;
  year : option Z;
  month : option Z;
  quarter : option Z;
  dow : option Z;
  month_start : option Z;
  agency : option string;
  agency_short : option string;
  offense_code : option string;
  offense_description : option string
}.
End Arrest.

Definition arrests_select (E : Engine) (r : RawArrest.row) : Arrest.row :=
  let date := RawArrest.arrest_date r ≫= TRY_CAST_DATE E in
  {| Arrest.incidentuid := RawArrest.incident_uid r;
     Arrest.incident_date := date;
     Arrest.year := YEAR <$> date;
     Arrest.month := MONTH <$> date;
     Arrest.quarter := QUARTER <$> date;
     Arrest.dow := DAYOFWEEK <$> date;
     Arrest.month_start := DATE_TRUNC_month <$> date;
     Arrest.agency := RawArrest.arrest_agency r;
     Arrest.agency_short := arrest_agency_case <$> RawArrest.arrest_agency r;
     Arrest.offense_code := RawArrest.offense_code r;
     Arrest.offense_description := RawArrest.offense_description r |}.

(** [CREATE OR REPLACE TABLE arrests AS SELECT ... FROM raw_arrests]: no
    window, no [WHERE]. *)
Definition arrests_table (E : Engine) (raw_arrests : list RawArrest.row)
    : list Arrest.row :=
  arrests_select E <$> raw_arrests.

(** ** Track 3: calls for service -> cfs ([_transform_cfs]) *)

Module RawCfs.
Record row : Type := {
  INCIDENT_NUM : option string;
  DATE_TIME : option string;
  CALL_TYPE : option string;
  PRIORITY : option string;
  DISPOSITION : option string;
  BEAT : option string
}.
End RawCfs.

(** A row of a reference table: [CALL_TYPE]/[DESCRIPTION] for call types,
    [DISPO_CODE]/[DESCRIPTION] for dispositions. *)
Module Ref.
Record row : Type := {
  CODE : option string;
  DESCRIPTION : option string
}.
End Ref.

Module Cfs.
Record row : Type := {
  incident_num : option string;
  call_timestamp : option Z;
  call_date : option Z;
  year : option Z;
  month : option Z;
  dow : option Z;
  hour : option Z;
  month_start : option Z;
  call_type : option string;
  call_type_desc : option string;
  priority : option Z;
  disposition : option string;
  dispo_desc : option string;
  beat : option string
}.
End Cfs.

(** A row of [raw_cfs cfs_raw {call_type_join} {dispo_join}]. *)
Definition CfsJoined : Type := RawCfs.row * option Ref.row * option Ref.row.

(** [COALESCE(a, b)] *)
Definition COALESCE {A} (a b : option A) : option A :=
  match a with Some x => Some x | None => b end.

Definition cfs_select (E : Engine) (has_call_type has_dispo : bool)
    (j : CfsJoined) : Cfs.row :=
  let '(cfs_raw, ct, dd) := j in
  let date := RawCfs.DATE_TIME cfs_raw ≫= TRY_CAST_DATE E in
  let ts := RawCfs.DATE_TIME cfs_raw ≫= TRY_CAST_TIMESTAMP E in
  {| Cfs.incident_num := RawCfs.INCIDENT_NUM cfs_raw;
     Cfs.call_timestamp := ts;
     Cfs.call_date := date;
     Cfs.year := YEAR <$> date;
     Cfs.month := MONTH <$> date;
     Cfs.dow := DAYOFWEEK <$> date;
     Cfs.hour := HOUR <$> ts;
     Cfs.month_start := DATE_TRUNC_month <$> date;
     Cfs.call_type := RawCfs.CALL_TYPE cfs_raw;
     Cfs.call_type_desc :=
       if has_call_type
       then COALESCE (ct ≫= Ref.DESCRIPTION) (RawCfs.CALL_TYPE cfs_raw)
       else RawCfs.CALL_TYPE cfs_raw;
     Cfs.priority := RawCfs.PRIORITY cfs_raw ≫= TRY_CAST_INT E;
     Cfs.disposition := RawCfs.DISPOSITION cfs_raw;
     Cfs.dispo_desc :=
       if has_dispo
       then COALESCE (dd ≫= Ref.DESCRIPTION) (RawCfs.DISPOSITION cfs_raw)
       else RawCfs.DISPOSITION cfs_raw;
     (* TRY_CAST(BEAT AS VARCHAR) *)
     Cfs.beat := RawCfs.BEAT cfs_raw |}.

(** The [FROM] clause: each join is present only when its reference table
    was loaded. *)
Definition cfs_from (raw_cfs : list RawCfs.row)
    (ref_call_type ref_dispo : option (list Ref.row)) : list CfsJoined :=
  let with_ct : list (RawCfs.row * option Ref.row) :=
    match ref_call_type with
    | Some t => LEFT_JOIN (λ r c, sql_eqb (RawCfs.CALL_TYPE r) (Ref.CODE c))
                          raw_cfs t
    | None => (λ r, (r, None)) <$> raw_cfs
    end in
  match ref_dispo with
  | Some t =>
      (λ p : _ * _ * _, (p.1.1, p.1.2, p.2))
        <$> LEFT_JOIN (λ p d, sql_eqb (RawCfs.DISPOSITION p.1) (Ref.CODE d))
                      with_ct t
  | None => (λ p, (p.1, p.2, None)) <$> with_ct
  end.

Definition cfs_partition_key (j : CfsJoined) : option string :=
  RawCfs.INCIDENT_NUM j.1.1.

Definition cfs_order_key (E : Engine) (j : CfsJoined) : option Z :=
  RawCfs.DATE_TIME j.1.1 ≫= TRY_CAST_TIMESTAMP E.

(** [CREATE OR REPLACE TABLE cfs_dedup AS SELECT * EXCLUDE (_rn) FROM (...)
     WHERE _rn = 1] *)
Definition cfs_table (E : Engine) (raw_cfs : list RawCfs.row)
    (ref_call_type ref_dispo : option (list Ref.row)) : list Cfs.row :=
  let inner :=
    (λ p, (cfs_select E (bool_decide (is_Some ref_call_type))
                        (bool_decide (is_Some ref_dispo)) p.1, p.2))
      <$> ROW_NUMBER E cfs_partition_key (cfs_order_key E)
                     (cfs_from raw_cfs ref_call_type ref_dispo) in
  fst <$> filter (λ p, p.2 = 1%nat) inner.

(** ** Aggregations ([_build_aggregations])

    [GROUP_BY key select rows] is [SELECT select ... GROUP BY key]: one output
    row per distinct key, built from the key and the rows that have it. *)

Definition GROUP_BY {R K Out : Type} `{EqDecision K}
    (key : R → K) (select : K → list R → Out) (rows : list R) : list Out :=
  (λ p, select p.1 p.2) <$> PARTITION_BY key rows.

#[local] Set Warnings "-inexact-float".
Definition _SD_LAT_MIN : float := 32.5%float.
Definition _SD_LAT_MAX : float := 33.3%float.
Definition _SD_LNG_MIN : float := (-117.7)%float.
Definition _SD_LNG_MAX : float := (-116.8)%float.

(** [x BETWEEN lo AND hi] on doubles. *)
Definition BETWEEN (x lo hi : float) : bool :=
  PrimFloat.leb lo x && PrimFloat.leb x hi.

Module Views.

(** *** Crime aggregations (Group A) *)

(** [month_start, agency_short, crime_against, total_incidents] *)
Definition crime_overview_monthly (E : Engine) (C : list Crime.row)
    : list (option Z * option string * option string * nat) :=
  ORDER_BY E (λ a b, ASC_NULLS_LAST a.1.1.1 b.1.1.1)
    (GROUP_BY
       (λ r, (Crime.month_start r, Crime.agency_short r, Crime.crime_against r))
       (λ k g, (k, COUNT g))
       (filter (λ r, is_Some (Crime.month_start r)) C)).

(** [offense_group, offense_description, crime_against, year, count] *)
Definition crime_by_type (E : Engine) (C : list Crime.row)
    : list (option string * option string * option string * option Z * nat) :=
  ORDER_BY E (λ a b, DESC_count a.2 b.2)
    (GROUP_BY
       (λ r, (Crime.offense_group r, Crime.offense_description r,
              Crime.crime_against r, Crime.year r))
       (λ k g, (k, COUNT g))
       (filter (λ r, is_Some (Crime.year r)) C)).

(** [zip_code, city, year, crime_against, count] *)
Definition crime_by_zip (E : Engine) (C : list Crime.row)
    : list (option string * option string * option Z * option string * nat) :=
  ORDER_BY E (λ a b, DESC_count a.2 b.2)
    (GROUP_BY
       (λ r, (Crime.zip_code r, Crime.city r, Crime.year r,
              Crime.crime_against r))
       (λ k g, (k, COUNT g))
       (filter (λ r, is_Some (Crime.zip_code r) ∧ is_Some (Crime.year r)) C)).

(** [agency_short, year, crime_against, count, dv_count] *)
Definition crime_by_agency (E : Engine) (C : list Crime.row)
    : list (option string * option Z * option string * nat * nat) :=
  ORDER_BY E (λ a b, DESC_count a.1.2 b.1.2)
    (GROUP_BY
       (λ r, (Crime.agency_short r, Crime.year r, Crime.crime_against r))
       (λ k g, (k, COUNT g, SUM_CASE Crime.is_domestic_violence g))
       (filter (λ r, is_Some (Crime.year r)) C)).

(** The age bands of [victim_demographics]. *)
Definition age_bin (victim_age : option Z) : string :=
  match victim_age with
  | Some a =>
      if a <? 18 then "Under 18"
      else if (18 <=? a) && (a <=? 24) then "18-24"
      else if (25 <=? a) && (a <=? 34) then "25-34"
      else if (35 <=? a) && (a <=? 44) then "35-44"
      else if (45 <=? a) && (a <=? 54) then "45-54"
      else if (55 <=? a) && (a <=? 64) then "55-64"
      else if 65 <=? a then "65+"
      else "Unknown"
  | None => "Unknown"
  end.

(** [age_bin, victim_race, victim_sex, crime_against, year, count] *)
Definition victim_demographics (E : Engine) (C : list Crime.row)
    : list (string * option string * option string * option string
            * option Z * nat) :=
  ORDER_BY E (λ a b, DESC_count a.2 b.2)
    (GROUP_BY
       (λ r, (age_bin (Crime.victim_age r), Crime.victim_race r,
              Crime.victim_sex r, Crime.crime_against r, Crime.year r))
       (λ k g, (k, COUNT g))
       (filter (λ r, is_Some (Crime.year r)) C)).

(** [agency, offense_group, victim_sex, year, month_start, count] *)
Definition domestic_violence (E : Engine) (C : list Crime.row)
    : list (option string * option string * option string * option Z
            * option Z * nat) :=
  ORDER_BY E (λ a b, ASC_NULLS_LAST a.1.2 b.1.2)
    (GROUP_BY
       (λ r, (Crime.agency_short r, Crime.offense_group r, Crime.victim_sex r,
              Crime.year r, Crime.month_start r))
       (λ k g, (k, COUNT g))
       (filter (λ r, Crime.is_domestic_violence r = true
                     ∧ is_Some (Crime.year r)) C)).

(** [dow, month, year, crime_against, count] *)
Definition temporal_patterns (C : list Crime.row)
    : list (option Z * option Z * option Z * option string * nat) :=
  GROUP_BY
    (λ r, (Crime.dow r, Crime.month r, Crime.year r, Crime.crime_against r))
    (λ k g, (k, COUNT g))
    (filter (λ r, is_Some (Crime.year r)) C).

Module MapPoint.
Record row : Type := {
  lat : option float;
  lng : option float;
  offense_group : option string;
  crime_against : option string;
  agency : option string;
  year : option Z;
  city : option string
}.
End MapPoint.

(** [lat IS NOT NULL AND lng IS NOT NULL
     AND lat BETWEEN _SD_LAT_MIN AND _SD_LAT_MAX
     AND lng BETWEEN _SD_LNG_MIN AND _SD_LNG_MAX] *)
Definition map_points_where (r : Crime.row) : bool :=
  match Crime.lat r, Crime.lng r with
  | Some lat, Some lng =>
      BETWEEN lat _SD_LAT_MIN _SD_LAT_MAX && BETWEEN lng _SD_LNG_MIN _SD_LNG_MAX
  | _, _ => false
  end.

Definition map_points_select (r : Crime.row) : MapPoint.row :=
  {| MapPoint.lat := Crime.lat r;
     MapPoint.lng := Crime.lng r;
     MapPoint.offense_group := Crime.offense_group r;
     MapPoint.crime_against := Crime.crime_against r;
     MapPoint.agency := Crime.agency_short r;
     MapPoint.year := Crime.year r;
     MapPoint.city := Crime.city r |}.

Definition map_points (C : list Crime.row) : list MapPoint.row :=
  map_points_select <$> filter (λ r, map_points_where r = true) C.

Module YearlySummary.
Record row : Type := {
  year : option Z;
  total : nat;
  person_crimes : nat;
  property_crimes : nat;
  society_crimes : nat;
  dv_total : nat;
  stolen_vehicle_total : nat
}.
End YearlySummary.

(** [crime_against = category], false on NULL. *)
Definition crime_against_is (category : string) (r : Crime.row) : bool :=
  bool_decide (Crime.crime_against r = Some category).

Definition yearly_summary_select (year : option Z) (g : list Crime.row)
    : YearlySummary.row :=
  {| YearlySummary.year := year;
     YearlySummary.total := COUNT g;
     YearlySummary.person_crimes := SUM_CASE (crime_against_is "People") g;
     YearlySummary.property_crimes := SUM_CASE (crime_against_is "Property") g;
     YearlySummary.society_crimes := SUM_CASE (crime_against_is "Society") g;
     YearlySummary.dv_total := SUM_CASE Crime.is_domestic_violence g;
     YearlySummary.stolen_vehicle_total := SUM_CASE Crime.is_stolen_vehicle g |}.

Definition yearly_summary (E : Engine) (C : list Crime.row)
    : list YearlySummary.row :=
  ORDER_BY E
    (λ a b, ASC_NULLS_LAST (YearlySummary.year a) (YearlySummary.year b))
    (GROUP_BY Crime.year yearly_summary_select
       (filter (λ r, is_Some (Crime.year r)) C)).

(** [city, year, crime_against, count] *)
Definition crime_by_city (E : Engine) (C : list Crime.row)
    : list (option string * option Z * option string * nat) :=
  ORDER_BY E (λ a b, DESC_count a.2 b.2)
    (GROUP_BY
       (λ r, (Crime.city r, Crime.year r, Crime.crime_against r))
       (λ k g, (k, COUNT g))
       (filter (λ r, is_Some (Crime.city r) ∧ is_Some (Crime.year r)) C)).

(** *** Arrest aggregations (Group B) *)

(** [offense_description, agency_short, year, month_start, count] *)
Definition arrests_by_type (E : Engine) (A : list Arrest.row)
    : list (option string * option string * option Z * option Z * nat) :=
  ORDER_BY E (λ a b, ASC_NULLS_LAST a.1.2 b.1.2)
    (GROUP_BY
       (λ r, (Arrest.offense_description r, Arrest.agency_short r,
              Arrest.year r, Arrest.month_start r))
       (λ k g, (k, COUNT g))
       (filter (λ r, is_Some (Arrest.year r)) A)).

(** *** CFS aggregations *)

(** [month_start, year, call_type_desc, priority, total_calls] *)
Definition cfs_monthly (E : Engine) (F : list Cfs.row)
    : list (option Z * option Z * option string * option Z * nat) :=
  ORDER_BY E (λ a b, ASC_NULLS_LAST a.1.1.1.1 b.1.1.1.1)
    (GROUP_BY
       (λ r, (Cfs.month_start r, Cfs.year r, Cfs.call_type_desc r,
              Cfs.priority r))
       (λ k g, (k, COUNT g))
       (filter (λ r, is_Some (Cfs.month_start r)) F)).

(** [beat, year, call_type_desc, priority, disposition, total_calls] *)
Definition cfs_by_beat (E : Engine) (F : list Cfs.row)
    : list (option string * option Z * option string * option Z
            * option string * nat) :=
  ORDER_BY E (λ a b, DESC_count a.2 b.2)
    (GROUP_BY
       (λ r, (Cfs.beat r, Cfs.year r, Cfs.call_type_desc r, Cfs.priority r,
              Cfs.disposition r))
       (λ k g, (k, COUNT g))
       (filter (λ r, is_Some (Cfs.beat r) ∧ is_Some (Cfs.year r)) F)).

(** [dow, hour, priority, total_calls] *)
Definition cfs_temporal (F : list Cfs.row)
    : list (option Z * option Z * option Z * nat) :=
  GROUP_BY
    (λ r, (Cfs.dow r, Cfs.hour r, Cfs.priority r))
    (λ k g, (k, COUNT g))
    (filter (λ r, is_Some (Cfs.dow r) ∧ is_Some (Cfs.hour r)) F).

End Views.

(** ** Exceptions and the files on disk *)

Inductive Exception : Type :=
  | IOException (path : string)        (* the engine cannot read a file *)
  | HTTPStatusError (status_code : Z)  (* [raise_for_status] *)
  | TransportError.                    (* the connection fails *)

Inductive Result (A : Type) : Type :=
  | Ok (a : A)
  | Raise (e : Exception).
Arguments Ok {A} a.
Arguments Raise {A} e.

(** [data/raw]: the artifacts the transform stage reads. [cfs_csv] is
    [sorted(RAW_DIR.glob("cfs_*.csv"))] with the rows of each file. *)
Record RawDir : Type := {
  cibrs_group_a_json : option (list RawCrime.row);
  cibrs_group_b_json : option (list RawArrest.row);
  cfs_csv : list (string * list RawCfs.row);
  call_type_desc_csv : option (list Ref.row);
  dispo_code_desc_csv : option (list Ref.row)
}.

(** [data/processed] *)
Record ProcessedDir : Type := {
  crime_parquet : option (list Crime.row);
  arrests_parquet : option (list Arrest.row);
  cfs_parquet : option (list Cfs.row)
}.

(** [data/aggregated]: one file per view. *)
Record AggregatedDir : Type := {
  crime_overview_monthly_parquet :
    option (list (option Z * option string * option string * nat));
  crime_by_type_parquet :
    option (list (option string * option string * option string * option Z
                  * nat));
  crime_by_zip_parquet :
    option (list (option string * option string * option Z * option string
                  * nat));
  crime_by_agency_parquet :
    option (list (option string * option Z * option string * nat * nat));
  victim_demographics_parquet :
    option (list (string * option string * option string * option string
                  * option Z * nat));
  domestic_violence_parquet :
    option (list (option string * option string * option string * option Z
                  * option Z * nat));
  temporal_patterns_parquet :
    option (list (option Z * option Z * option Z * option string * nat));
  map_points_parquet : option (list Views.MapPoint.row);
  yearly_summary_parquet : option (list Views.YearlySummary.row);
  crime_by_city_parquet :
    option (list (option string * option Z * option string * nat));
  arrests_by_type_parquet :
    option (list (option string * option string * option Z * option Z * nat));
  cfs_monthly_parquet :
    option (list (option Z * option Z * option string * option Z * nat));
  cfs_by_beat_parquet :
    option (list (option string * option Z * option string * option Z
                  * option string * nat));
  cfs_temporal_parquet : option (list (option Z * option Z * option Z * nat))
}.

Record Disk : Type := {
  raw : RawDir;
  processed : ProcessedDir;
  aggregated : AggregatedDir
}.

(** ** The transform stage as a state-and-exception computation

    The state is the disk and what was printed; the numbers inside printed
    lines are left out of the text. *)

Record World : Type := {
  disk : Disk;
  stdout : list string
}.

Definition M (A : Type) : Type := World → World * Result A.

Definition ret {A} (a : A) : M A := λ w, (w, Ok a).
Definition bind {A B} (m : M A) (k : A → M B) : M B :=
  λ w, match m w with
       | (w', Ok a) => k a w'
       | (w', Raise e) => (w', Raise e)
       end.
Definition raise {A} (e : Exception) : M A := λ w, (w, Raise e).
Definition print (line : string) : M unit :=
  λ w, ({| disk := disk w; stdout := (stdout w ++ [line])%list |}, Ok tt).
Definition get_disk : M Disk := λ w, (w, Ok (disk w)).
Definition set_processed (f : ProcessedDir → ProcessedDir) : M unit :=
  λ w, ({| disk := {| raw := raw (disk w);
                      processed := f (processed (disk w));
                      aggregated := aggregated (disk w) |};
           stdout := stdout w |}, Ok tt).
Definition set_aggregated (f : AggregatedDir → AggregatedDir) : M unit :=
  λ w, ({| disk := {| raw := raw (disk w);
                      processed := processed (disk w);
                      aggregated := f (aggregated (disk w)) |};
           stdout := stdout w |}, Ok tt).

#[global] Instance M_ret : MRet M := @ret.
#[global] Instance M_bind : MBind M := λ A B k m, bind m k.

(** [read_json('{src}', ...)]: the engine raises when the file is not there. *)
Definition read_json {A} (name : string) (file : option A) : M A :=
  match file with
  | Some rows => ret rows
  | None => raise (IOException name)
  end.

Definition _transform_crime (E : Engine) : M unit :=
  print "Track 1: CIBRS Group A -> crime.parquet";;
  d ← get_disk;
  raw_crime ← read_json "cibrs_group_a.json" (cibrs_group_a_json (raw d));
  let crime := crime_table E raw_crime in
  (* _export(con, "SELECT * FROM crime", dest) *)
  set_processed (λ p, {| crime_parquet := Some crime;
                         arrests_parquet := arrests_parquet p;
                         cfs_parquet := cfs_parquet p |});;
  print "crime.parquet";;
  print "-> deduplicated incidents".

Definition _transform_arrests (E : Engine) : M unit :=
  print "Track 2: CIBRS Group B -> arrests.parquet";;
  d ← get_disk;
  raw_arrests ← read_json "cibrs_group_b.json" (cibrs_group_b_json (raw d));
  let arrests := arrests_table E raw_arrests in
  set_processed (λ p, {| crime_parquet := crime_parquet p;
                         arrests_parquet := Some arrests;
                         cfs_parquet := cfs_parquet p |});;
  print "arrests.parquet";;
  print "-> arrest records".

(** [_load_cfs_reference_tables]: each reference table is loaded only if its
    file exists. *)
Definition _load_cfs_reference_tables
    : M (option (list Ref.row) * option (list Ref.row)) :=
  d ← get_disk;
  match call_type_desc_csv (raw d) with
  | Some _ => print "loaded ref_call_type"
  | None => ret tt
  end;;
  match dispo_code_desc_csv (raw d) with
  | Some _ => print "loaded ref_dispo"
  | None => ret tt
  end;;
  ret (call_type_desc_csv (raw d), dispo_code_desc_csv (raw d)).

Definition _transform_cfs (E : Engine) : M unit :=
  print "Track 3: CFS -> cfs.parquet";;
  d ← get_disk;
  let csv_files := cfs_csv (raw d) in
  match csv_files with
  | [] => print "WARNING: no CFS CSV files found, skipping"
  | _ :: _ =>
      (* read_csv([csv_list], union_by_name = true, ...) *)
      let raw_cfs := csv_files ≫= snd in
      refs ← _load_cfs_reference_tables;
      let cfs_dedup := cfs_table E raw_cfs refs.1 refs.2 in
      set_processed (λ p, {| crime_parquet := crime_parquet p;
                             arrests_parquet := arrests_parquet p;
                             cfs_parquet := Some cfs_dedup |});;
      print "cfs.parquet";;
      print "-> deduplicated calls"
  end.

(** [_export] of one view: the file is written and its name printed. *)
Definition export_view (name : string)
    (write : AggregatedDir → AggregatedDir) : M unit :=
  set_aggregated write;;
  print name.

Definition write_crime_views (E : Engine) (C : list Crime.row)
    (a : AggregatedDir) : AggregatedDir :=
  {| crime_overview_monthly_parquet := Some (Views.crime_overview_monthly E C);
     crime_by_type_parquet := Some (Views.crime_by_type E C);
     crime_by_zip_parquet := Some (Views.crime_by_zip E C);
     crime_by_agency_parquet := Some (Views.crime_by_agency E C);
     victim_demographics_parquet := Some (Views.victim_demographics E C);
     domestic_violence_parquet := Some (Views.domestic_violence E C);
     temporal_patterns_parquet := Some (Views.temporal_patterns C);
     map_points_parquet := Some (Views.map_points C);
     yearly_summary_parquet := Some (Views.yearly_summary E C);
     crime_by_city_parquet := Some (Views.crime_by_city E C);
     arrests_by_type_parquet := arrests_by_type_parquet a;
     cfs_monthly_parquet := cfs_monthly_parquet a;
     cfs_by_beat_parquet := cfs_by_beat_parquet a;
     cfs_temporal_parquet := cfs_temporal_parquet a |}.

Definition write_arrests_views (E : Engine) (A : list Arrest.row)
    (a : AggregatedDir) : AggregatedDir :=
  {| crime_overview_monthly_parquet := crime_overview_monthly_parquet a;
     crime_by_type_parquet := crime_by_type_parquet a;
     crime_by_zip_parquet := crime_by_zip_parquet a;
     crime_by_agency_parquet := crime_by_agency_parquet a;
     victim_demographics_parquet := victim_demographics_parquet a;
     domestic_violence_parquet := domestic_violence_parquet a;
     temporal_patterns_parquet := temporal_patterns_parquet a;
     map_points_parquet := map_points_parquet a;
     yearly_summary_parquet := yearly_summary_parquet a;
     crime_by_city_parquet := crime_by_city_parquet a;
     arrests_by_type_parquet := Some (Views.arrests_by_type E A);
     cfs_monthly_parquet := cfs_monthly_parquet a;
     cfs_by_beat_parquet := cfs_by_beat_parquet a;
     cfs_temporal_parquet := cfs_temporal_parquet a |}.

Definition write_cfs_views (E : Engine) (F : list Cfs.row)
    (a : AggregatedDir) : AggregatedDir :=
  {| crime_overview_monthly_parquet := crime_overview_monthly_parquet a;
     crime_by_type_parquet := crime_by_type_parquet a;
     crime_by_zip_parquet := crime_by_zip_parquet a;
     crime_by_agency_parquet := crime_by_agency_parquet a;
     victim_demographics_parquet := victim_demographics_parquet a;
     domestic_violence_parquet := domestic_violence_parquet a;
     temporal_patterns_parquet := temporal_patterns_parquet a;
     map_points_parquet := map_points_parquet a;
     yearly_summary_parquet := yearly_summary_parquet a;
     crime_by_city_parquet := crime_by_city_parquet a;
     arrests_by_type_parquet := arrests_by_type_parquet a;
     cfs_monthly_parquet := Some (Views.cfs_monthly E F);
     cfs_by_beat_parquet := Some (Views.cfs_by_beat E F);
     cfs_temporal_parquet := Some (Views.cfs_temporal F) |}.

(** [_build_aggregations]: the views of a domain are built when its canonical
    file exists in [data/processed]. *)
Definition _build_aggregations (E : Engine) : M unit :=
  print "Building aggregations:";;
  d ← get_disk;
  match crime_parquet (processed d) with
  | Some C => export_view "crime views" (write_crime_views E C)
  | None => ret tt
  end;;
  match arrests_parquet (processed d) with
  | Some A => export_view "arrests_by_type.parquet" (write_arrests_views E A)
  | None => ret tt
  end;;
  match cfs_parquet (processed d) with
  | Some F => export_view "cfs views" (write_cfs_views E F)
  | None => ret tt
  end.

(** [transform]: the three tracks, then the aggregations.  [finally
    con.close()] closes the in-memory connection and lets an exception
    pass. *)
Definition transform (E : Engine) : M unit :=
  _transform_crime E;;
  _transform_arrests E;;
  _transform_cfs E;;
  _build_aggregations E.

(** ** The ingest stage ([ingest.py])

    The raw-artifact cache is a finite map from file names under [data/raw]
    to file contents.  The network is what each GET meets. *)

Inductive SodaReply : Type :=
  | SodaFailed                                        (* no response *)
  | SodaResponse (status_code : Z) (batch : list string).

Inductive StreamReply : Type :=
  | StreamFailed                                      (* no response *)
  | StreamResponse (status_code : Z) (chunks : list string)
                   (broken : bool).   (* the connection drops after [chunks] *)

Record Network : Type := {
  soda_get : string → option string → Z → SodaReply;
  stream_get : string → StreamReply
}.

(** A computation over the cache that may raise; [None] when the pagination
    loop is cut off by its step count. *)
Definition I (A : Type) : Type :=
  gmap string string → option (gmap string string * Result A).

#[global] Instance I_ret : MRet I := λ A a fs, Some (fs, Ok a).
#[global] Instance I_bind : MBind I := λ A B k m fs,
  match m fs with
  | Some (fs', Ok a) => k a fs'
  | Some (fs', Raise e) => Some (fs', Raise e)
  | None => None
  end.

Definition SODA_BASE : string := "https://opendata.sandag.org/resource".
Definition GROUP_A_ID : string := "7sps-5pd9".
Definition GROUP_B_ID : string := "huzf-mi2z".
Definition SODA_PAGE_SIZE : Z := 50000.
Definition GROUP_B_CODES : list string := ["90D"; "90C"; "90B"; "90E"].
Definition CFS_BASE : string :=
  "https://seshat.datasd.org/police_calls_for_service".
Definition CFS_YEARS (CURRENT_YEAR : Z) : list Z :=
  seqZ 2015 (CURRENT_YEAR + 1 - 2015).
Definition CFS_REF_FILES : list (string * string) :=
  [("pd_cfs_calltypes_datasd.csv", "call_type_desc.csv");
   ("pd_dispo_codes_datasd.csv", "dispo_code_desc.csv")].
Definition CFS_DISPO_BASE : string := "https://seshat.datasd.org/pd".

(** [str(n)] *)
Definition str (n : Z) : string := NilZero.string_of_int (Z.to_int n).

(** [response.is_success]; [raise_for_status] raises on every other status. *)
Definition is_success (status_code : Z) : bool :=
  (200 <=? status_code) && (status_code <=? 299).

(** [json.dumps] of a list of rows, each row already a JSON text. *)
Definition json_dumps (rows : list string) : string :=
  "[" ++ String.concat ", " rows ++ "]".

(** The [while True] loop of [_soda_fetch]. *)
Fixpoint soda_pages (net : Network) (url : string) (where_ : option string)
    (steps : nat) (offset : Z) (all_rows : list string)
    : option (Result (list string)) :=
  match steps with
  | O => None
  | S steps' =>
      match soda_get net url where_ offset with
      | SodaFailed => Some (Raise TransportError)
      | SodaResponse status_code batch =>
          if negb (is_success status_code)
          then Some (Raise (HTTPStatusError status_code))
          else
            match batch with
            | [] => Some (Ok all_rows)
            | _ :: _ =>
                let all_rows := (all_rows ++ batch)%list in
                if Z.of_nat (length batch) <? SODA_PAGE_SIZE
                then Some (Ok all_rows)
                else soda_pages net url where_ steps'
                                (offset + SODA_PAGE_SIZE) all_rows
            end
      end
  end.

Definition _soda_fetch (net : Network) (steps : nat) (dataset_id : string)
    (out_path : string) (where_ : option string) (force : bool) : I string :=
  λ fs,
    if bool_decide (is_Some (fs !! out_path)) && negb force
    then Some (fs, Ok out_path)
    else
      let url := SODA_BASE ++ "/" ++ dataset_id ++ ".json" in
      (* [if where:] an empty filter is not sent *)
      let where_ := match where_ with
                    | Some "" => None
                    | w => w
                    end in
      match soda_pages net url where_ steps 0 [] with
      | None => None
      | Some (Raise e) => Some (fs, Raise e)
      | Some (Ok all_rows) =>
          (* out_path.write_text(json.dumps(all_rows)) *)
          Some (<[out_path := json_dumps all_rows]> fs, Ok out_path)
      end.

(** [open(out_path, "wb")] followed by one [f.write(chunk)] per chunk. *)
Definition write_chunks (out_path : string) (chunks : list string)
    (fs : gmap string string) : gmap string string :=
  foldl (λ fs chunk, <[out_path := default "" (fs !! out_path) ++ chunk]> fs)
        (<[out_path := ""]> fs) chunks.

Definition _csv_download (net : Network) (url out_path : string)
    (force : bool) : I (option string) :=
  λ fs,
    if bool_decide (is_Some (fs !! out_path)) && negb force
    then Some (fs, Ok (Some out_path))
    else
      match stream_get net url with
      | StreamFailed => Some (fs, Raise TransportError)
      | StreamResponse status_code chunks broken =>
          if is_success status_code
          then
            let fs := write_chunks out_path chunks fs in
            if broken then Some (fs, Raise TransportError)
            else Some (fs, Ok (Some out_path))
          else if status_code =? 403 then Some (fs, Ok None)
          else Some (fs, Raise (HTTPStatusError status_code))
      end.

Definition cfs_url (year : Z) : string :=
  CFS_BASE ++ "/pd_calls_for_service_" ++ str year ++ "_datasd.csv".
Definition cfs_out (year : Z) : string := "cfs_" ++ str year ++ ".csv".

(** [for year in CFS_YEARS: ...] *)
Fixpoint download_years (net : Network) (force : bool) (years : list Z)
    (paths : list string) : I (list string) :=
  match years with
  | [] => mret paths
  | year :: years' =>
      p ← _csv_download net (cfs_url year) (cfs_out year) force;
      download_years net force years'
        (match p with Some p => (paths ++ [p])%list | None => paths end)
  end.

Definition ref_url (remote_name : string) : string :=
  if String.prefix "pd_dispo" remote_name
  then CFS_DISPO_BASE ++ "/" ++ remote_name
  else CFS_BASE ++ "/" ++ remote_name.

(** [for remote_name, local_name in CFS_REF_FILES.items(): ...] *)
Fixpoint download_refs (net : Network) (force : bool)
    (files : list (string * string)) (paths : list string) : I (list string) :=
  match files with
  | [] => mret paths
  | (remote_name, local_name) :: files' =>
      p ← _csv_download net (ref_url remote_name) local_name force;
      download_refs net force files'
        (match p with Some p => (paths ++ [p])%list | None => paths end)
  end.

Definition ingest (net : Network) (steps : nat) (CURRENT_YEAR : Z)
    (force : bool) : I (list string) :=
  let paths : list string := [] in
  p ← _soda_fetch net steps GROUP_A_ID "cibrs_group_a.json" None force;
  let paths := (paths ++ [p])%list in
  let codes :=
    String.concat " OR "
      ((λ c, "offense_code='" ++ c ++ "'") <$> GROUP_B_CODES) in
  p ← _soda_fetch net steps GROUP_B_ID "cibrs_group_b.json" (Some codes) force;
  let paths := (paths ++ [p])%list in
  paths ← download_years net force (CFS_YEARS CURRENT_YEAR) paths;
  download_refs net force CFS_REF_FILES paths.

(** ** The validator ([validate.py])

    The state of [validate] is its counter [issues] and the report it prints:
    one line per check result, with its status word.  Percentages are exact
    rationals. *)

Inductive Status : Type := PASS | WARN | FAIL | INFO.

#[global] Instance Status_eq_dec : EqDecision Status.
Proof. solve_decision. Defined.

Record VState : Type := {
  issues : nat;
  report : list (Status * string)
}.

Definition V (A : Type) : Type := VState → VState * A.

#[global] Instance V_ret : MRet V := λ A a s, (s, a).
#[global] Instance V_bind : MBind V := λ A B k m s,
  let '(s', a) := m s in k a s'.

(** [print(f"  {status}  ...")] *)
Definition say (status : Status) (detail : string) : V unit :=
  λ s, ({| issues := issues s;
           report := (report s ++ [(status, detail)])%list |}, tt).

(** [issues += 1] *)
Definition issues_incr : V unit :=
  λ s, ({| issues := S (issues s); report := report s |}, tt).

Fixpoint for_ {A} (l : list A) (body : A → V unit) : V unit :=
  match l with
  | [] => mret tt
  | x :: l' => body x;; for_ l' body
  end.

(** [if table.exists(): ...] *)
Definition when_exists {A} (file : option A) (body : A → V unit) : V unit :=
  match file with
  | Some t => body t
  | None => mret tt
  end.

(** [MIN(col)] and [MAX(col)]: NULLs are skipped, NULL on no value. *)
Definition sql_MIN (col : list (option Z)) : option Z :=
  foldr (λ x acc, match x, acc with
                  | Some a, Some b => Some (Z.min a b)
                  | Some a, None => Some a
                  | None, _ => acc
                  end) None col.
Definition sql_MAX (col : list (option Z)) : option Z :=
  foldr (λ x acc, match x, acc with
                  | Some a, Some b => Some (Z.max a b)
                  | Some a, None => Some a
                  | None, _ => acc
                  end) None col.

(** Python truth of a count and of a nullable year. *)
Definition truthy (n : nat) : bool := negb (n =? 0)%nat.
Definition truthyZ (x : option Z) : bool :=
  match x with Some z => negb (z =? 0) | None => false end.

Definition Qltb (a b : Q) : bool := negb (Qle_bool b a).

(** [(part / total * 100) if total else 0] *)
Definition percent (part total : nat) : Q :=
  if truthy total
  then ((Z.of_nat part # 1) / (Z.of_nat total # 1) * 100)%Q
  else 0%Q.

Definition SD_LAT_MIN : float := 32.5%float.
Definition SD_LAT_MAX : float := 33.3%float.
Definition SD_LNG_MIN : float := (-117.7)%float.
Definition SD_LNG_MAX : float := (-116.8)%float.

(** [lat IS NOT NULL AND (lat < SD_LAT_MIN OR lat > SD_LAT_MAX
                           OR lng < SD_LNG_MIN OR lng > SD_LNG_MAX)]:
    with a NULL [lng] the row counts only when [lat] is out of range. *)
Definition geo_outlier (r : Crime.row) : bool :=
  match Crime.lat r with
  | None => false
  | Some lat =>
      PrimFloat.ltb lat SD_LAT_MIN || PrimFloat.ltb SD_LAT_MAX lat
      || match Crime.lng r with
         | None => false
         | Some lng =>
             PrimFloat.ltb lng SD_LNG_MIN || PrimFloat.ltb SD_LNG_MAX lng
         end
  end.

(** [if min_yr and min_yr <= earliest and max_yr and max_yr >= CURRENT_YEAR - 1] *)
Definition date_range_ok (earliest CURRENT_YEAR : Z) (min_yr max_yr : option Z)
    : bool :=
  truthyZ min_yr && default false ((λ y, y <=? earliest) <$> min_yr)
  && truthyZ max_yr
  && default false ((λ y, CURRENT_YEAR - 1 <=? y) <$> max_yr).

Definition check_1 (p : ProcessedDir) : V unit :=
  for_ [("crime", bool_decide (is_Some (crime_parquet p)));
        ("arrests", bool_decide (is_Some (arrests_parquet p)));
        ("cfs", bool_decide (is_Some (cfs_parquet p)))]
    (λ f, if f.2 then say PASS f.1
          else say FAIL (f.1 ++ ": NOT FOUND");; issues_incr).

Definition check_2 (crime : list Crime.row) : V unit :=
  let count := COUNT crime in
  if truthy count && (500000 <? Z.of_nat count)
  then say PASS "rows"
  else say WARN "rows (expected >500K)";; issues_incr.

Definition check_3 (CURRENT_YEAR : Z) (crime : list Crime.row) : V unit :=
  let min_yr := sql_MIN (Crime.year <$> crime) in
  let max_yr := sql_MAX (Crime.year <$> crime) in
  if date_range_ok 2021 CURRENT_YEAR min_yr max_yr
  then say PASS "date range"
  else say WARN "date range";; issues_incr.

Definition check_4 (crime : list Crime.row) : V unit :=
  let outliers := COUNT (filter (λ r, geo_outlier r = true) crime) in
  let total_geo := COUNT (filter (λ r, is_Some (Crime.lat r)) crime) in
  let pct := percent outliers total_geo in
  if Qltb pct 1
  then say PASS "outliers"
  else say WARN "outliers";; issues_incr.

Definition check_5 (crime : list Crime.row) : V unit :=
  let total := COUNT crime in
  for_ [("incident_date", λ r, bool_decide (Crime.incident_date r = None));
        ("agency_short", λ r, bool_decide (Crime.agency_short r = None));
        ("crime_against", λ r, bool_decide (Crime.crime_against r = None));
        ("offense_group", λ r, bool_decide (Crime.offense_group r = None))]
    (λ col,
       let nulls := COUNT (filter (λ r, col.2 r = true) crime) in
       let pct := percent nulls total in
       let status := if Qltb pct 5 then PASS else WARN in
       (if Qle_bool 5 pct then issues_incr else mret tt);;
       say status col.1).

Definition check_6 (E : Engine) (crime : list Crime.row) : V unit :=
  let rows :=
    take 5 (ORDER_BY E (λ a b : option string * nat, DESC_count a.2 b.2)
              (GROUP_BY Crime.agency_short (λ k g, (k, COUNT g)) crime)) in
  for_ rows (λ row, say INFO (default "None" row.1)).

Definition check_7 (crime : list Crime.row) : V unit :=
  let cats_list := remove_dups (omap Crime.crime_against crime) in
  let expected := ["People"; "Property"; "Society"] in
  if forallb (λ e, bool_decide (e ∈ cats_list)) expected
  then say PASS "categories"
  else say WARN "categories (expected People, Property, Society)";;
       issues_incr.

(** [(curr_n - prev_n) / prev_n * 100 if prev_n else 0] *)
Definition yoy_change (prev_n curr_n : nat) : Q :=
  if truthy prev_n
  then (((Z.of_nat curr_n - Z.of_nat prev_n) # 1) / (Z.of_nat prev_n # 1)
        * 100)%Q
  else 0%Q.

(** [for i in range(1, len(rows))]: each row with the one before it. *)
Fixpoint consecutive {A} (rows : list A) : list (A * A) :=
  match rows with
  | prev :: (curr :: _) as rest => (prev, curr) :: consecutive rest
  | _ => []
  end.

Definition check_8 (E : Engine) (crime : list Crime.row) : V unit :=
  let rows :=
    ORDER_BY E (λ a b : option Z * nat, ASC_NULLS_LAST a.1 b.1)
      (GROUP_BY Crime.year (λ k g, (k, COUNT g))
         (filter (λ r, is_Some (Crime.year r)) crime)) in
  for_ (consecutive rows)
    (λ pc,
       let change := yoy_change pc.1.2 pc.2.2 in
       let status := if Qltb 50 (Qabs change) then WARN else PASS in
       (if Qltb 50 (Qabs change) then issues_incr else mret tt);;
       say status "year over year").

Definition check_9 (crime : list Crime.row) : V unit :=
  let dupes :=
    COUNT (filter (λ g : _ * nat, (1 < g.2)%nat)
             (GROUP_BY (λ r, (Crime.incidentuid r, Crime.offense_description r))
                       (λ k g, (k, COUNT g)) crime)) in
  if (dupes =? 0)%nat
  then say PASS "No duplicates on (incidentuid, offense_description)"
  else say FAIL "duplicate groups";; issues_incr.

Definition check_10 (arrests : list Arrest.row) : V unit :=
  let count := COUNT arrests in
  let status :=
    if truthy count && (40000 <? Z.of_nat count) then PASS else WARN in
  (if truthy count && (Z.of_nat count <=? 40000)
   then issues_incr else mret tt);;
  say status "arrest records";;
  say INFO "Offense types".

Definition check_11 (arrests : list Arrest.row) : V unit :=
  say INFO "arrests date range".

Definition check_12 (cfs : list Cfs.row) : V unit :=
  let count := COUNT cfs in
  if truthy count && (3000000 <? Z.of_nat count)
  then say PASS "calls"
  else say WARN "calls (expected >3M)";; issues_incr.

Definition check_13 (CURRENT_YEAR : Z) (cfs : list Cfs.row) : V unit :=
  let min_yr := sql_MIN (Cfs.year <$> cfs) in
  let max_yr := sql_MAX (Cfs.year <$> cfs) in
  (if date_range_ok 2015 CURRENT_YEAR min_yr max_yr
   then say PASS "date range"
   else say WARN "date range";; issues_incr);;
  say INFO "Years present".

Definition check_14 (cfs : list Cfs.row) : V unit :=
  say INFO "distinct beats".

(** [expected_aggs], each with whether its file exists. *)
Definition expected_aggs (a : AggregatedDir) : list (string * bool) :=
  [("crime_overview_monthly",
      bool_decide (is_Some (crime_overview_monthly_parquet a)));
   ("crime_by_type", bool_decide (is_Some (crime_by_type_parquet a)));
   ("crime_by_zip", bool_decide (is_Some (crime_by_zip_parquet a)));
   ("crime_by_agency", bool_decide (is_Some (crime_by_agency_parquet a)));
   ("victim_demographics",
      bool_decide (is_Some (victim_demographics_parquet a)));
   ("domestic_violence", bool_decide (is_Some (domestic_violence_parquet a)));
   ("temporal_patterns", bool_decide (is_Some (temporal_patterns_parquet a)));
   ("map_points", bool_decide (is_Some (map_points_parquet a)));
   ("yearly_summary", bool_decide (is_Some (yearly_summary_parquet a)));
   ("crime_by_city", bool_decide (is_Some (crime_by_city_parquet a)));
   ("arrests_by_type", bool_decide (is_Some (arrests_by_type_parquet a)));
   ("cfs_monthly", bool_decide (is_Some (cfs_monthly_parquet a)));
   ("cfs_by_beat", bool_decide (is_Some (cfs_by_beat_parquet a)));
   ("cfs_temporal", bool_decide (is_Some (cfs_temporal_parquet a)))].

Definition check_15 (a : AggregatedDir) : V unit :=
  for_ (expected_aggs a)
    (λ f, if f.2 then say PASS f.1
          else say FAIL (f.1 ++ ": NOT FOUND");; issues_incr).

(** The body of [validate], as a computation on the counter and report. *)
Definition validate_checks (E : Engine) (CURRENT_YEAR : Z) (d : Disk)
    : V unit :=
  let crime := crime_parquet (processed d) in
  let arrests := arrests_parquet (processed d) in
  let cfs := cfs_parquet (processed d) in
  check_1 (processed d);;
  when_exists crime check_2;;
  when_exists crime (check_3 CURRENT_YEAR);;
  when_exists crime check_4;;
  when_exists crime check_5;;
  when_exists crime (check_6 E);;
  when_exists crime check_7;;
  when_exists crime (check_8 E);;
  when_exists crime check_9;;
  when_exists arrests check_10;;
  when_exists arrests check_11;;
  when_exists cfs check_12;;
  when_exists cfs (check_13 CURRENT_YEAR);;
  when_exists cfs check_14;;
  check_15 (aggregated d).

(** [validate() -> int]: the final counter, with the report printed. *)
Definition validate (E : Engine) (CURRENT_YEAR : Z) (d : Disk)
    : nat * list (Status * string) :=
  let s := (validate_checks E CURRENT_YEAR d
              {| issues := 0; report := [] |}).1 in
  (issues s, report s).

(** The number of WARN and FAIL results in a report. *)
Definition warn_or_fail (line : Status * string) : bool :=
  match line.1 with WARN | FAIL => true | PASS | INFO => false end.
Definition count_issues (report : list (Status * string)) : nat :=
  length (List.filter warn_or_fail report).

(** ** Two engines

    Both read ISO-8601 text ([YYYY-MM-DD], optionally followed by [T] or a
    space and [HH:MM:SS], optionally followed by a point and the fraction of
    the second) and decimal integers, and both sort by merging.
    They differ only in the order in which they visit the rows, and so in
    which of two rows that compare equal comes first. *)

Module ReferenceEngine.

Definition digit (c : ascii) : option Z :=
  let n := N_of_ascii c in
  if ((48 <=? n) && (n <=? 57))%N then Some (Z.of_N (n - 48)) else None.

Fixpoint digits (s : string) (acc : Z) : option Z :=
  match s with
  | EmptyString => Some acc
  | String c s' => d ← digit c; digits s' (10 * acc + d)
  end.

Definition parse_int (s : string) : option Z :=
  match s with
  | EmptyString => None
  | String "-" (String c s') => Z.opp <$> digits (String c s') 0
  | _ => digits s 0
  end.

Definition two_digits (a b : ascii) : option Z :=
  x ← digit a; y ← digit b; Some (10 * x + y).

(** The digits after the decimal point of the seconds, in a unit of which
    [per_second] make a second: the digits below the unit are dropped. *)
Fixpoint fraction (s : string) (per_second : Z) : option Z :=
  match s with
  | EmptyString => Some 0
  | String c s' =>
      d ← digit c; f ← fraction s' (per_second / 10);
      Some (d * (per_second / 10) + f)
  end.

Definition parse_fraction (per_second : Z) (s : string) : option Z :=
  match s with
  | EmptyString => Some 0
  | String "." (String c s') => fraction (String c s') per_second
  | _ => None
  end.

(** The time of day in that unit. *)
Definition parse_time_in (per_second : Z) (s : string) : option Z :=
  match s with
  | EmptyString => Some 0
  | String sep (String h1 (String h2 (String ":" (String m1 (String m2
      (String ":" (String s1 (String s2 rest)))))))) =>
      if Ascii.eqb sep "T" || Ascii.eqb sep " " then
        h ← two_digits h1 h2; m ← two_digits m1 m2; sec ← two_digits s1 s2;
        f ← parse_fraction per_second rest;
        if (h <? 24) && (m <? 60) && (sec <? 60)
        then Some (((h * 60 + m) * 60 + sec) * per_second + f)
        else None
      else None
  | _ => None
  end.

(** The instant in that unit, counted from 1970-01-01 00:00:00. *)
Definition parse_timestamp_in (per_second : Z) (s : string) : option Z :=
  match s with
  | String y1 (String y2 (String y3 (String y4 (String "-" (String m1
      (String m2 (String "-" (String d1 (String d2 rest))))))))) =>
      ya ← two_digits y1 y2; yb ← two_digits y3 y4;
      m ← two_digits m1 m2; d ← two_digits d1 d2;
      t ← parse_time_in per_second rest;
      let y := 100 * ya + yb in
      let days := days_from_civil y m d in
      if bool_decide (civil_from_days days = (y, m, d))
      then Some (days * (24 * (3600 * per_second)) + t)
      else None
  | _ => None
  end.

(** A TIMESTAMP counts microseconds: of the digits after the point the
    first six are read. *)
Definition parse_time (s : string) : option Z := parse_time_in 1000000 s.

Definition parse_timestamp (s : string) : option Z :=
  parse_timestamp_in 1000000 s.

Definition parse_date (s : string) : option Z :=
  (λ t, t / micros_per_day) <$> parse_timestamp s.

(** The order a comparison function stands for. *)
Definition holds {A} (le : A → A → bool) : relation A := λ x y, le x y = true.

#[global] Instance holds_dec {A} (le : A → A → bool) x y :
  Decision (holds le x y).
Proof. unfold holds. apply _. Defined.

Section Sorting.
Context {A : Type} (le : A → A → bool).
Hypothesis le_trans : ∀ x y z, le x y = true → le y z = true → le x z = true.
Hypothesis le_total : ∀ x y, le x y = true ∨ le y x = true.

Lemma merge_sort_sorted (l : list A) :
  StronglySorted (λ x y, le x y = true) (merge_sort (holds le) l).
Proof.
  assert (Transitive (holds le)) by (intros x y z; apply le_trans).
  assert (Total (holds le)) by (intros x y; apply le_total).
  apply (StronglySorted_merge_sort (holds le)).
Qed.
End Sorting.

(** Rows visited in input order. *)
Definition forward : Engine :=
  {| TRY_CAST_DATE := parse_date;
     TRY_CAST_TIMESTAMP := parse_timestamp;
     TRY_CAST_INT := parse_int;
     ORDER_BY := λ A le l, merge_sort (holds le) l;
     ORDER_BY_perm := λ A le l, merge_sort_Permutation _ l;
     ORDER_BY_sorted := λ A le l Ht Hl, merge_sort_sorted le Ht Hl l |}.

(** Rows visited in reverse input order. *)
Definition backward : Engine :=
  {| TRY_CAST_DATE := parse_date;
     TRY_CAST_TIMESTAMP := parse_timestamp;
     TRY_CAST_INT := parse_int;
     ORDER_BY := λ A le l, merge_sort (holds le) (reverse l);
     ORDER_BY_perm := λ A le l,
       transitivity (merge_sort_Permutation _ (reverse l))
                    (reverse_Permutation l);
     ORDER_BY_sorted := λ A le l Ht Hl,
       merge_sort_sorted le Ht Hl (reverse l) |}.

End ReferenceEngine.

(** ** Vocabulary of the properties, and concrete inputs *)

(** The canonical rows of one year. *)
Definition in_year (y : Z) (C : list Crime.row) : list Crime.row :=
  filter (λ r, Crime.year r = Some y) C.

(** A row whose category is none of the three named ones (NULL included). *)
Definition uncategorized (r : Crime.row) : Prop :=
  Crime.crime_against r ∉ [Some "People"; Some "Property"; Some "Society"].

#[global] Instance uncategorized_dec r : Decision (uncategorized r).
Proof. unfold uncategorized. apply _. Defined.

(** The scenario of C8 on a concrete table, with one row of another year. *)
Definition crime_row_of (year : Z) (crime_against : option string)
    : Crime.row :=
  {| Crime.incidentuid := None; Crime.incident_date := None;
     Crime.year := Some year; Crime.month := None; Crime.quarter := None;
     Crime.dow := None; Crime.month_start := None; Crime.agency := None;
     Crime.agency_short := None; Crime.crime_against := crime_against;
     Crime.offense_group := None; Crime.offense_description := None;
     Crime.victim_age := None; Crime.victim_race := None;
     Crime.victim_sex := None; Crime.zip_code := None; Crime.city := None;
     Crime.is_domestic_violence := false; Crime.is_stolen_vehicle := false;
     Crime.lat := None; Crime.lng := None |}.

Definition scenario_2023 : list Crime.row :=
  replicate 100 (crime_row_of 2023 (Some "People"))
  ++ replicate 50 (crime_row_of 2023 (Some "Property"))
  ++ replicate 10 (crime_row_of 2023 (Some "Society"))
  ++ [crime_row_of 2023 None; crime_row_of 2022 (Some "People")].

(** A canonical row of 2023 at the given coordinates. *)
Definition crime_row_at (lat lng : option float) : Crime.row :=
  {| Crime.incidentuid := None; Crime.incident_date := None;
     Crime.year := Some 2023; Crime.month := None; Crime.quarter := None;
     Crime.dow := None; Crime.month_start := None; Crime.agency := None;
     Crime.agency_short := Some "SDPD"; Crime.crime_against := None;
     Crime.offense_group := None; Crime.offense_description := None;
     Crime.victim_age := None; Crime.victim_race := None;
     Crime.victim_sex := None; Crime.zip_code := None; Crime.city := None;
     Crime.is_domestic_violence := false; Crime.is_stolen_vehicle := false;
     Crime.lat := lat; Crime.lng := lng |}.

(** The rows that [WHERE _rn = 1] keeps. *)
Definition first_rows {R K} `{EqDecision K} (E : Engine) (key : R → K)
    (ord : R → option Z) (rows : list R) : list R :=
  fst <$> filter (λ p : R * nat, p.2 = 1%nat) (ROW_NUMBER E key ord rows).

(** The partition of a key, in the engine's order. *)
Definition sorted_partition {R K} `{EqDecision K} (E : Engine) (key : R → K)
    (ord : R → option Z) (rows : list R) (k : K) : list R :=
  ORDER_BY E (λ a b, DESC_NULLS_LAST (ord a) (ord b))
           (filter (λ r, key r = k) rows).

(** The natural keys of the canonical tables. *)
Definition crime_key (o : Crime.row) : option string * option string :=
  (Crime.incidentuid o, Crime.offense_description o).

(** The spec's words for the tie: of the rows of a partition whose timestamp
    is the latest, the first in input order is kept. *)
Definition keep_latest_first_in_input {R K} `{EqDecision K}
    (key : R → K) (ord : R → option Z) (rows : list R) : list R :=
  k ← remove_dups (key <$> rows);
  let part := filter (λ r, key r = k) rows in
  take 1 (filter (λ r, Forall (λ r', DESC_NULLS_LAST (ord r) (ord r') = true)
                              part) part).

(** A raw incident of the given id, offense, date and city. *)
Definition raw_crime_row (id description date city : string) : RawCrime.row :=
  {| RawCrime.incidentuid := Some id;
     RawCrime.incident_date := Some date;
     RawCrime.agency := Some "SAN DIEGO";
     RawCrime.crime_against_category := Some "Property";
     RawCrime.cibrs_grouped_offense_description := Some "Larceny";
     RawCrime.cibrs_offense_description := Some description;
     RawCrime.victim_age := None;
     RawCrime.victim_race := None;
     RawCrime.victim_sex := None;
     RawCrime.zip_code := None;
     RawCrime.city := Some city;
     RawCrime.domestic_violence_incident := None;
     RawCrime.stolen_vehicles := None;
     RawCrime.location_coordinates := None |}.

(** Two revisions of one record with the same timestamp. *)
Definition tie_first : RawCrime.row :=
  raw_crime_row "X1" "Theft" "2024-03-01" "LA MESA".
Definition tie_second : RawCrime.row :=
  raw_crime_row "X1" "Theft" "2024-03-01" "EL CAJON".



(** Empty [data/processed] and [data/aggregated]. *)
Definition no_processed : ProcessedDir :=
  {| crime_parquet := None; arrests_parquet := None; cfs_parquet := None |}.

Definition no_aggregated : AggregatedDir :=
  {| crime_overview_monthly_parquet := None; crime_by_type_parquet := None;
     crime_by_zip_parquet := None; crime_by_agency_parquet := None;
     victim_demographics_parquet := None; domestic_violence_parquet := None;
     temporal_patterns_parquet := None; map_points_parquet := None;
     yearly_summary_parquet := None; crime_by_city_parquet := None;
     arrests_by_type_parquet := None; cfs_monthly_parquet := None;
     cfs_by_beat_parquet := None; cfs_temporal_parquet := None |}.

(** One raw arrest and one raw call. *)
Definition one_arrest : RawArrest.row :=
  {| RawArrest.incident_uid := Some "A1";
     RawArrest.arrest_date := Some "2024-03-01";
     RawArrest.arrest_agency := Some "CHULA VISTA";
     RawArrest.offense_code := Some "90D";
     RawArrest.offense_description := Some "Driving Under the Influence" |}.

Definition one_call : RawCfs.row :=
  {| RawCfs.INCIDENT_NUM := Some "E24030000001";
     RawCfs.DATE_TIME := Some "2024-03-01 10:30:00";
     RawCfs.CALL_TYPE := Some "459";
     RawCfs.PRIORITY := Some "2";
     RawCfs.DISPOSITION := Some "K";
     RawCfs.BEAT := Some "521" |}.

(** The arrests and calls artifacts are there, the crime artifact is not. *)
Definition disk_without_crime : Disk :=
  {| raw := {| cibrs_group_a_json := None;
               cibrs_group_b_json := Some [one_arrest];
               cfs_csv := [("cfs_2024.csv", [one_call])];
               call_type_desc_csv := None;
               dispo_code_desc_csv := None |};
     processed := no_processed;
     aggregated := no_aggregated |}.

(** What has been written after the chunks received so far. *)
Definition received (chunks : list string) : string :=
  foldl String.append "" chunks.

(** The download goes to the network: no cached file, or a forced refresh. *)
Definition not_cached_or_forced (fs : gmap string string) (out_path : string)
    (force : bool) : Prop :=
  fs !! out_path = None ∨ force = true.

(** A network on which the file of 2016 is not published yet. *)
Definition net_2016_unpublished : Network :=
  {| soda_get := λ url where_ offset,
       SodaResponse 200 (if offset =? 0 then ["{}"] else []);
     stream_get := λ url,
       if String.eqb url (cfs_url 2016)
       then StreamResponse 403 [] false
       else StreamResponse 200 ["a,b;"; "1,2;"] false |}.

(** A connection that drops after two chunks of the 2015 file. *)
Definition net_dropping : Network :=
  {| soda_get := λ url where_ offset, SodaFailed;
     stream_get := λ url, StreamResponse 200 ["year,beat;"; "2015,"] true |}.

(** The same file, served whole. *)
Definition net_whole : Network :=
  {| soda_get := λ url where_ offset, SodaFailed;
     stream_get := λ url,
       StreamResponse 200 ["year,beat;"; "2015,521;"; "2015,522;"] false |}.

(** [m] prints [silent] WARN or FAIL lines more than it adds to [issues]. *)
Definition agree {A} (m : V A) (silent : nat) : Prop :=
  ∀ s, (count_issues (report (m s).1) + issues s
        = count_issues (report s) + issues (m s).1 + silent)%nat.

(** The WARN lines that [validate] prints without counting them. *)
Definition uncounted_warnings (d : Disk) : nat :=
  match arrests_parquet (processed d) with
  | Some arrests => if truthy (COUNT arrests) then 0 else 1
  | None => 0
  end.

(** The disk after a run of the transform stage on sources without rows. *)
Definition disk_of_empty_sources : Disk :=
  disk (transform ReferenceEngine.forward
          {| disk := {| raw := {| cibrs_group_a_json := Some [];
                                  cibrs_group_b_json := Some [];
                                  cfs_csv := [("cfs_2015.csv", [])];
                                  call_type_desc_csv := None;
                                  dispo_code_desc_csv := None |};
                        processed := no_processed;
                        aggregated := no_aggregated |};
             stdout := [] |}).1.

(** The filter that [_soda_fetch] sends: [if where:] drops an empty one. *)
Definition sent_where (where_ : option string) : option string :=
  match where_ with
  | Some "" => None
  | w => w
  end.

(** A server that holds [rows] under [url] and answers every page request
    with the rows from the offset on, a page of them at most. *)
Definition serves (net : Network) (url : string) (where_ : option string)
    (rows : list string) : Prop :=
  ∀ offset,
    soda_get net url where_ offset
    = SodaResponse 200 (take (Z.to_nat SODA_PAGE_SIZE)
                             (drop (Z.to_nat offset) rows)).

(** The URL of a SODA dataset, and the filter of the Group B fetch. *)
Definition soda_url (dataset_id : string) : string :=
  SODA_BASE ++ "/" ++ dataset_id ++ ".json".

Definition GROUP_B_WHERE : string :=
  String.concat " OR "
    ((λ c, "offense_code='" ++ c ++ "'") <$> GROUP_B_CODES).

(** The GET of [url] is answered with a whole body under a 2xx status. *)
Definition delivered (net : Network) (url : string) : Prop :=
  ∃ status chunks, stream_get net url = StreamResponse status chunks false
                   ∧ is_success status = true.

(** The GET of [url] is answered with a 403: the file is not published. *)
Definition forbidden (net : Network) (url : string) : Prop :=
  ∃ chunks broken, stream_get net url = StreamResponse 403 chunks broken.

(** A server of three rows, whatever the dataset and the filter. *)
Definition net_three_rows : Network :=
  {| soda_get := λ url where_ offset,
       SodaResponse 200
         (take (Z.to_nat SODA_PAGE_SIZE)
               (drop (Z.to_nat offset) ["{a}"; "{b}"; "{c}"]));
     stream_get := λ url, StreamFailed |}.

(** That server for the datasets, with the file of 2016 not published yet. *)
Definition net_2016_unpublished_paged : Network :=
  {| soda_get := soda_get net_three_rows;
     stream_get := stream_get net_2016_unpublished |}.

(** The artifacts a run of [ingest] asks for, in the order of its steps. *)
Definition expected_artifacts (CURRENT_YEAR : Z) : list string :=
  (["cibrs_group_a.json"; "cibrs_group_b.json"]
   ++ (cfs_out <$> CFS_YEARS CURRENT_YEAR) ++ (snd <$> CFS_REF_FILES))%list.

(** The file is in the cache: [out_path.exists()]. *)
Definition cached (fs : gmap string string) (path : string) : Prop :=
  is_Some (fs !! path).

(** A cache that holds every artifact of 2015. *)
Definition cache_2015 : gmap string string :=
  list_to_map [("cibrs_group_a.json", "[]"); ("cibrs_group_b.json", "[]");
               ("cfs_2015.csv", "year,beat;");
               ("call_type_desc.csv", ""); ("dispo_code_desc.csv", "")].

(** The two download loops of [ingest] have one shape: a list of
    (url, out) pairs, each handed to [_csv_download]. *)
Fixpoint downloads (net : Network) (force : bool)
    (jobs : list (string * string)) (paths : list string) : I (list string) :=
  match jobs with
  | [] => mret paths
  | (url, out) :: jobs' =>
      p ← _csv_download net url out force;
      downloads net force jobs'
        (match p with Some p => (paths ++ [p])%list | None => paths end)
  end.

(** The pair of the loop over [CFS_YEARS], and of the loop over
    [CFS_REF_FILES]. *)
Definition year_job (year : Z) : string * string :=
  (cfs_url year, cfs_out year).
Definition ref_job (f : string * string) : string * string :=
  (ref_url f.1, f.2).

(** [desc] describes [code] by the reference table [ref]: it is the code
    itself, or the non-NULL description of a reference row with that code. *)
Definition described_by (ref : option (list Ref.row))
    (code desc : option string) : Prop :=
  desc = code
  ∨ ∃ t c, ref = Some t ∧ c ∈ t ∧ is_Some code ∧ Ref.CODE c = code
           ∧ is_Some desc ∧ Ref.DESCRIPTION c = desc.

(** No row of the reference table has the code (or there is no table). *)
Definition unlisted (ref : option (list Ref.row)) (code : option string)
    : Prop :=
  ∀ t c, ref = Some t → c ∈ t → sql_eqb code (Ref.CODE c) = false.

(** A row of the call-type reference table. *)
Definition burglary : Ref.row :=
  {| Ref.CODE := Some "459"; Ref.DESCRIPTION := Some "BURGLARY" |}.

(** [m] leaves [data/raw] as it is and only adds to what was printed. *)
Definition keeps_raw {A} (m : M A) : Prop :=
  ∀ w, raw (disk (m w).1) = raw (disk w)
       ∧ stdout w `prefix_of` stdout (m w).1.

(** A [data/raw] with the three source artifacts and no reference table. *)
Definition raw_complete : RawDir :=
  {| cibrs_group_a_json := Some [tie_first];
     cibrs_group_b_json := Some [one_arrest];
     cfs_csv := [("cfs_2024.csv", [one_call])];
     call_type_desc_csv := None;
     dispo_code_desc_csv := None |}.

(** The disk after an earlier run on other sources. *)
Definition disk_of_earlier_run : Disk :=
  disk (transform ReferenceEngine.forward
          {| disk := {| raw := {| cibrs_group_a_json :=
                                    Some [raw_crime_row "X0" "Assault"
                                            "2023-05-01" "VISTA"];
                                  cibrs_group_b_json := Some [one_arrest];
                                  cfs_csv := [("cfs_2023.csv", [one_call])];
                                  call_type_desc_csv := None;
                                  dispo_code_desc_csv := None |};
                        processed := no_processed;
                        aggregated := no_aggregated |};
             stdout := [] |}).1.


Definition disk_stale : Disk :=
  {| raw := raw_complete;
     processed := processed disk_of_earlier_run;
     aggregated := aggregated disk_of_earlier_run |}.

(** The years of two summary rows are known and increase. *)
Definition year_before (a b : Views.YearlySummary.row) : Prop :=
  ∃ x y, Views.YearlySummary.year a = Some x
         ∧ Views.YearlySummary.year b = Some y ∧ x < y.

(** The FAIL lines of a report. *)
Definition FAILs (report : list (Status * string)) : nat :=
  length (filter (λ line : Status * string, line.1 = FAIL) report).

(** The files that [validate] looks for, each with whether it is there. *)
Definition expected_files (d : Disk) : list (string * bool) :=
  ([("crime", bool_decide (is_Some (crime_parquet (processed d))));
    ("arrests", bool_decide (is_Some (arrests_parquet (processed d))));
    ("cfs", bool_decide (is_Some (cfs_parquet (processed d))))]
   ++ expected_aggs (aggregated d))%list.

(** How many of them are not there. *)
Definition missing_files (d : Disk) : nat :=
  length (filter (λ f : string * bool, f.2 = false) (expected_files d)).

(** 1 when the canonical crime table is there and two of its rows share
    (incident id, offense description). *)
Definition duplicated_keys (d : Disk) : nat :=
  match crime_parquet (processed d) with
  | Some crime => if decide (NoDup (crime_key <$> crime)) then 0 else 1
  | None => 0
  end.

(** [m] prints [n] FAIL lines and adds at least [n] to [issues]. *)
Definition fails {A} (m : V A) (n : nat) : Prop :=
  ∀ s, FAILs (report (m s).1) = (FAILs (report s) + n)%nat
       ∧ (issues s + n ≤ issues (m s).1)%nat.

(** The rows that check 8 compares: [SELECT year, COUNT( * ) ... WHERE year IS
    NOT NULL GROUP BY year ORDER BY year]. *)
Definition yearly_counts (E : Engine) (crime : list Crime.row)
    : list (option Z * nat) :=
  ORDER_BY E (λ a b : option Z * nat, ASC_NULLS_LAST a.1 b.1)
    (GROUP_BY Crime.year (λ k g, (k, COUNT g))
       (filter (λ r, is_Some (Crime.year r)) crime)).

(** A canonical row in the middle of the county. *)
Definition downtown : Crime.row :=
  crime_row_at (Some 32.7%float) (Some (-117.1)%float).

(** A cache with an old copy of the 2015 calls file. *)
Definition cache_old_2015 : gmap string string :=
  {["cfs_2015.csv" := "year,beat;2015,100;2015,200;2015,300;2015,400;"]}.

(** The [WHEN] branches of [_AGENCY_CASE], in the order of the table: the
    condition on the raw value and the short code. *)
Definition agency_rules : list ((string → bool) * string) :=
  [(λ agency, ILIKE agency "SAN DIEGO", "SDPD");
   (λ agency, ILIKE agency "%SHERIFF%" || ILIKE agency "%SD COUNTY%", "SDSO");
   (λ agency, ILIKE agency "CHULA VISTA", "CVPD");
   (λ agency, ILIKE agency "OCEANSIDE", "OPD");
   (λ agency, ILIKE agency "ESCONDIDO", "EPD");
   (λ agency, ILIKE agency "CARLSBAD", "CPD");
   (λ agency, ILIKE agency "EL CAJON", "ECPD");
   (λ agency, ILIKE agency "NATIONAL CITY", "NCPD");
   (λ agency, ILIKE agency "LA MESA", "LMPD");
   (λ agency, ILIKE agency "CORONADO", "CoronPD");
   (λ agency, ILIKE agency "VISTA", "VPD")].

(** A CASE over a table of rules: the code of the first rule that matches,
    or the default. *)
Fixpoint first_match (rules : list ((string → bool) * string))
    (agency : string) : string :=
  match rules with
  | [] => UPPER (REPLACE_space agency)
  | (when, code) :: rules' =>
      if when agency then code else first_match rules' agency
  end.

(** A pattern without wildcard. *)
Fixpoint plain (pat : string) : bool :=
  match pat with
  | EmptyString => true
  | String c pat' =>
      negb (Ascii.eqb c "%") && negb (Ascii.eqb c "_") && plain pat'
  end.

(** Text of ASCII characters only: every byte is below 128. *)
Fixpoint is_ascii (s : string) : bool :=
  match s with
  | EmptyString => true
  | String c s' => (N_of_ascii c <? 128)%N && is_ascii s'
  end.

(** * Properties *)

(** ** The builtins on concrete values *)

Example agency_case_san_diego_ex : agency_case "San Diego" = "SDPD".
Proof. reflexivity. Qed.
Example agency_case_sheriff_ex : agency_case "SD County Sheriff" = "SDSO".
Proof. reflexivity. Qed.
Example agency_case_del_mar_ex : agency_case "Del Mar" = "DELMAR".
Proof. reflexivity. Qed.

Example date_2024_03_01 : days_from_civil 2024 3 1 = 19783.
Proof. reflexivity. Qed.
Example civil_19783 : civil_from_days 19783 = (2024, 3, 1).
Proof. reflexivity. Qed.
Example dow_2024_01_01 : DAYOFWEEK (days_from_civil 2024 1 1) = 1.
Proof. reflexivity. Qed.
Example trunc_2023_12_31 :
  DATE_TRUNC_month (days_from_civil 2023 12 31) = days_from_civil 2023 12 1.
Proof. reflexivity. Qed.

Example parse_date_ok : ReferenceEngine.parse_date "2024-03-01" = Some 19783.
Proof. reflexivity. Qed.
Example parse_date_time :
  ReferenceEngine.parse_date "2024-03-01T10:30:00" = Some 19783.
Proof. reflexivity. Qed.
Example parse_date_bad : ReferenceEngine.parse_date "2024-02-30" = None.
Proof. reflexivity. Qed.
Example parse_date_text : ReferenceEngine.parse_date "unknown" = None.
Proof. reflexivity. Qed.

(** ** Agency classification *)

Section AgencyFacts.

Lemma LIKE_percent (pat s : string) :
  LIKE (String "%" pat) s
  = LIKE pat s
    || match s with
       | EmptyString => false
       | String _ s' => LIKE (String "%" pat) s'
       end.
Proof. destruct s; reflexivity. Qed.

Lemma only_spaces_cons (c : ascii) (s : string) :
  only_spaces (String c s) = true → c = " "%char ∧ only_spaces s = true.
Proof.
  simpl. intros H. apply andb_prop in H as [Hc Hs].
  apply Ascii.eqb_eq in Hc. auto.
Qed.

Lemma LOWER_only_spaces (s : string) : only_spaces s = true → LOWER s = s.
Proof.
  induction s as [|c s IH]; [reflexivity|].
  intros H. apply only_spaces_cons in H as [-> Hs].
  simpl. f_equal. auto.
Qed.

Lemma spaces_not_sheriff (s : string) :
  only_spaces s = true → LIKE "%sheriff%" s = false.
Proof.
  induction s as [|c s IH]; [reflexivity|].
  intros H. rewrite LIKE_percent.
  apply only_spaces_cons in H as [-> Hs]. rewrite (IH Hs). reflexivity.
Qed.

Lemma spaces_not_sd_county (s : string) :
  only_spaces s = true → LIKE "%sd county%" s = false.
Proof.
  induction s as [|c s IH]; [reflexivity|].
  intros H. rewrite LIKE_percent.
  apply only_spaces_cons in H as [-> Hs]. rewrite (IH Hs). reflexivity.
Qed.

Lemma spaces_match_no_rule (s : string) :
  only_spaces s = true → no_rule_matches s = true.
Proof.
  intros H. unfold no_rule_matches, ILIKE.
  rewrite (LOWER_only_spaces s H).
  change (LOWER "%SHERIFF%") with "%sheriff%".
  change (LOWER "%SD COUNTY%") with "%sd county%".
  rewrite (spaces_not_sheriff s H), (spaces_not_sd_county s H).
  destruct s as [|c s]; [reflexivity|].
  apply only_spaces_cons in H as [-> _]. reflexivity.
Qed.

Lemma UPPER_empty (s : string) : UPPER s = "" → s = "".
Proof. destruct s; [reflexivity | discriminate]. Qed.

Lemma REPLACE_space_empty (s : string) :
  REPLACE_space s = "" ↔ only_spaces s = true.
Proof.
  induction s as [|c s IH]; simpl; [done|].
  destruct (Ascii.eqb c " "); simpl; [exact IH | split; discriminate].
Qed.

Lemma agency_case_default (s : string) :
  no_rule_matches s = true → agency_case s = UPPER (REPLACE_space s).
Proof.
  unfold no_rule_matches, agency_case. intros H.
  apply negb_true_iff in H.
  repeat (apply orb_false_elim in H as [H ?]).
  repeat match goal with
         | Hm : ILIKE _ _ = false |- _ => rewrite Hm; clear Hm
         end.
  reflexivity.
Qed.

Lemma agency_case_rule_nonempty (s : string) :
  no_rule_matches s = false → agency_case s ≠ "".
Proof.
  unfold no_rule_matches, agency_case. intros H Hempty.
  apply negb_false_iff in H.
  repeat match type of Hempty with
         | context [ILIKE ?a ?p] =>
             let E := fresh "E" in
             destruct (ILIKE a p) eqn:E; [discriminate Hempty|]
         end.
  discriminate H.
Qed.

End AgencyFacts.

(** C5, as the code has it.  The classification is a total function in which
    the first matching rule wins and the default is the upper-cased raw value
    with its space characters removed; the short code is empty exactly when
    the raw value has no character other than a space (so it is non-empty for
    every raw value that has one), and the arrests track applies the same
    mapping. *)
Theorem agency_short_code_characterised (agency : string) :
  (agency_case agency = "" ↔ only_spaces agency = true)
  ∧ (no_rule_matches agency = true
     → agency_case agency = UPPER (REPLACE_space agency))
  ∧ (no_rule_matches agency = false → agency_case agency ≠ "")
  ∧ arrest_agency_case agency = agency_case agency.
Proof.
  split; [|split; [apply agency_case_default|split;
                    [apply agency_case_rule_nonempty|]]].
  2: { unfold arrest_agency_case, agency_case. reflexivity. }
  split.
  - intros Hempty.
    destruct (no_rule_matches agency) eqn:Hrules.
    + rewrite (agency_case_default _ Hrules) in Hempty.
      apply UPPER_empty in Hempty. by apply REPLACE_space_empty.
    + by apply agency_case_rule_nonempty in Hrules.
  - intros Hsp.
    rewrite (agency_case_default _ (spaces_match_no_rule _ Hsp)).
    apply REPLACE_space_empty in Hsp. by rewrite Hsp.
Qed.

(** C5 as stated fails: the empty string and a string of spaces are mapped to
    the empty short code. *)
Lemma agency_short_code_can_be_empty :
  agency_case "" = "" ∧ agency_case "   " = ""
  ∧ _AGENCY_CASE (Some "   ") = Some "" ∧ arrest_agency_case "   " = "".
Proof. repeat split. Qed.

(** ** The point-level view *)

Lemma elem_of_map_points (C : list Crime.row) (p : Views.MapPoint.row) :
  p ∈ Views.map_points C
  ↔ ∃ r, r ∈ C ∧ Views.map_points_where r = true
         ∧ p = Views.map_points_select r.
Proof.
  unfold Views.map_points. rewrite list_elem_of_fmap. split.
  - intros (r & -> & Hr). apply list_elem_of_filter in Hr as [Hw Hr]. eauto.
  - intros (r & Hr & Hw & ->). exists r. split; [done|].
    apply list_elem_of_filter. auto.
Qed.

Lemma map_points_where_bounds (r : Crime.row) :
  Views.map_points_where r = true →
  ∃ lat lng,
    Crime.lat r = Some lat ∧ Crime.lng r = Some lng
    ∧ PrimFloat.leb _SD_LAT_MIN lat = true
    ∧ PrimFloat.leb lat _SD_LAT_MAX = true
    ∧ PrimFloat.leb _SD_LNG_MIN lng = true
    ∧ PrimFloat.leb lng _SD_LNG_MAX = true.
Proof.
  unfold Views.map_points_where, BETWEEN.
  destruct (Crime.lat r) as [lat|]; [|discriminate].
  destruct (Crime.lng r) as [lng|]; [|discriminate].
  intros H. exists lat, lng.
  apply andb_prop in H as [H1 H2].
  apply andb_prop in H1 as [? ?]. apply andb_prop in H2 as [? ?].
  auto 10.
Qed.

(** The filter reads the coordinates only, and the view keeps them. *)
Lemma map_points_where_select (r r' : Crime.row) :
  Views.map_points_select r = Views.map_points_select r' →
  Views.map_points_where r = Views.map_points_where r'.
Proof.
  intros H. unfold Views.map_points_where.
  assert (Crime.lat r = Crime.lat r') as ->
    by exact (f_equal Views.MapPoint.lat H).
  assert (Crime.lng r = Crime.lng r') as ->
    by exact (f_equal Views.MapPoint.lng H).
  reflexivity.
Qed.

(** C6.  Every row of [map_points] has a latitude and a longitude, both
    inside the county bounding box, and is the projection of a canonical
    crime row that passes the filter; a canonical row whose coordinates are
    missing or outside the box has no row in the view. *)
Theorem map_points_inside_bounding_box (C : list Crime.row) :
  (∀ p, p ∈ Views.map_points C →
        ∃ lat lng,
          Views.MapPoint.lat p = Some lat ∧ Views.MapPoint.lng p = Some lng
          ∧ PrimFloat.leb 32.5 lat = true ∧ PrimFloat.leb lat 33.3 = true
          ∧ PrimFloat.leb (-117.7) lng = true
          ∧ PrimFloat.leb lng (-116.8) = true)
  ∧ (∀ r, Views.map_points_where r = false →
          Views.map_points_select r ∉ Views.map_points C).
Proof.
  split.
  - intros p Hp. apply elem_of_map_points in Hp as (r & _ & Hw & ->).
    apply map_points_where_bounds in Hw. exact Hw.
  - intros r Hout Hin.
    apply elem_of_map_points in Hin as (r' & _ & Hw & Heq).
    apply map_points_where_select in Heq. congruence.
Qed.

(** Downtown is kept; a point north of the box, a point on the box's western
    edge moved one degree west, and rows without a coordinate are dropped. *)
Example map_points_keeps_inside_only :
  Views.map_points
    [crime_row_at (Some 32.7156%float) (Some (-117.1611)%float);
     crime_row_at (Some 34.0522%float) (Some (-117.1611)%float);
     crime_row_at (Some 32.7156%float) (Some (-118.7)%float);
     crime_row_at None (Some (-117.1611)%float);
     crime_row_at (Some 32.7156%float) None;
     crime_row_at (Some 32.5%float) (Some (-116.8)%float)]
  = [Views.map_points_select
       (crime_row_at (Some 32.7156%float) (Some (-117.1611)%float));
     Views.map_points_select
       (crime_row_at (Some 32.5%float) (Some (-116.8)%float))].
Proof. vm_compute. reflexivity. Qed.

(** ** The arrests table *)

(** C10.  The arrests table has one row per raw row, in the same order, each
    the projection of its raw row: nothing is dropped or merged, so repeated
    revisions of one arrest all stay. *)
Theorem arrests_one_row_per_input (E : Engine) (raw_arrests : list RawArrest.row) :
  length (arrests_table E raw_arrests) = length raw_arrests
  ∧ (∀ i, arrests_table E raw_arrests !! i
          = arrests_select E <$> raw_arrests !! i)
  ∧ (∀ r, arrests_table E (r :: r :: raw_arrests)
          = arrests_select E r :: arrests_select E r
              :: arrests_table E raw_arrests).
Proof.
  unfold arrests_table. split; [apply length_fmap|].
  split; [intros i; apply list_lookup_fmap | reflexivity].
Qed.

(** ** Grouping *)

Section GroupFacts.
Context {R K : Type} `{EqDecision K}.
Implicit Types (key : R → K) (rows : list R) (w : R → nat).

Lemma sum_list_with_plus {A} (f g : A → nat) (l : list A) :
  sum_list_with (λ x, f x + g x)%nat l
  = (sum_list_with f l + sum_list_with g l)%nat.
Proof. induction l as [|x l IH]; simpl; lia. Qed.

Lemma sum_list_with_ext {A} (f g : A → nat) (l : list A) :
  (∀ x, f x = g x) → sum_list_with f l = sum_list_with g l.
Proof. intros Hfg. induction l as [|x l IH]; simpl; [done|]. by rewrite Hfg, IH. Qed.

Lemma sum_list_with_fmap' {A B} (f : A → B) (g : B → nat) (l : list A) :
  sum_list_with g (f <$> l) = sum_list_with (g ∘ f) l.
Proof. induction l as [|x l IH]; csimpl; [done|]. by rewrite IH. Qed.

Lemma COUNT_sum {A} (l : list A) : COUNT l = sum_list_with (λ _, 1%nat) l.
Proof. unfold COUNT. induction l as [|x l IH]; simpl; [done|]. by rewrite IH. Qed.

(** A key that occurs once in a duplicate-free list is hit once. *)
Lemma sum_indicator (k0 : K) (c : nat) (ks : list K) :
  NoDup ks → k0 ∈ ks →
  sum_list_with (λ k, if decide (k0 = k) then c else 0%nat) ks = c.
Proof.
  induction 1 as [|k ks Hk Hnd IH]; intros Hin; [by apply elem_of_nil in Hin|].
  simpl. apply elem_of_cons in Hin as [->|Hin].
  - rewrite decide_True by done.
    assert (sum_list_with (λ k', if decide (k = k') then c else 0%nat) ks = 0%nat)
      as ->; [|lia].
    clear IH Hnd. induction ks as [|k' ks IH]; simpl; [done|].
    rewrite decide_False by (intros ->; apply Hk; left).
    apply IH. intros Hin. apply Hk. by right.
  - rewrite decide_False by (intros ->; done). by rewrite IH.
Qed.

(** Summing a weight group by group counts every row once. *)
Lemma sum_over_groups key w rows (ks : list K) :
  NoDup ks → (∀ r, r ∈ rows → key r ∈ ks) →
  sum_list_with (λ k, sum_list_with w (filter (λ r, key r = k) rows)) ks
  = sum_list_with w rows.
Proof.
  intros Hnd. induction rows as [|r rows IH]; intros Hks.
  - clear Hnd Hks. induction ks as [|k ks IHk]; simpl; [done|]. exact IHk.
  - rewrite (sum_list_with_ext _
      (λ k, (if decide (key r = k) then w r else 0)
            + sum_list_with w (filter (λ r, key r = k) rows))%nat).
    + rewrite sum_list_with_plus, sum_indicator, IH; simpl; try done.
      * intros r' Hr'. apply Hks. by right.
      * apply Hks. left.
    + intros k. rewrite filter_cons. by destruct (decide (key r = k)).
Qed.

Lemma elem_of_PARTITION_BY key rows (p : K * list R) :
  p ∈ PARTITION_BY key rows
  ↔ p.1 ∈ key <$> rows ∧ p.2 = filter (λ r, key r = p.1) rows.
Proof.
  unfold PARTITION_BY. rewrite list_elem_of_fmap. split.
  - intros (k & -> & Hk). rewrite elem_of_remove_dups in Hk.
    split; [exact Hk | reflexivity].
  - intros [Hk Hg]. exists p.1. split.
    + destruct p as [k g]; simpl in *. subst g. reflexivity.
    + by apply elem_of_remove_dups.
Qed.

Lemma elem_of_GROUP_BY {Out} key (select : K → list R → Out) rows (x : Out) :
  x ∈ GROUP_BY key select rows
  ↔ ∃ k, k ∈ key <$> rows ∧ x = select k (filter (λ r, key r = k) rows).
Proof.
  unfold GROUP_BY. rewrite list_elem_of_fmap. split.
  - intros ([k g] & -> & Hp). apply elem_of_PARTITION_BY in Hp as [Hk ->].
    by exists k.
  - intros (k & Hk & ->). exists (k, filter (λ r, key r = k) rows).
    split; [done|]. by apply elem_of_PARTITION_BY.
Qed.

(** The sum of a metric over the groups is the sum of its weight over the
    grouped rows. *)
Lemma GROUP_BY_sum {Out} key (select : K → list R → Out)
    (metric : Out → nat) w rows :
  (∀ k g, metric (select k g) = sum_list_with w g) →
  sum_list_with metric (GROUP_BY key select rows) = sum_list_with w rows.
Proof.
  intros Hm. unfold GROUP_BY, PARTITION_BY.
  rewrite !sum_list_with_fmap'.
  rewrite (sum_list_with_ext _
    (λ k, sum_list_with w (filter (λ r, key r = k) rows))).
  - apply sum_over_groups; [apply NoDup_remove_dups|].
    intros r Hr. apply elem_of_remove_dups, list_elem_of_fmap. eauto.
  - intros k. simpl. apply Hm.
Qed.

Lemma GROUP_BY_count {Out} key (select : K → list R → Out)
    (metric : Out → nat) rows :
  (∀ k g, metric (select k g) = COUNT g) →
  sum_list_with metric (GROUP_BY key select rows) = COUNT rows.
Proof.
  intros Hm. rewrite COUNT_sum. apply GROUP_BY_sum.
  intros k g. by rewrite Hm, COUNT_sum.
Qed.

End GroupFacts.

Lemma ORDER_BY_sum (E : Engine) {A} (le : A → A → bool) (metric : A → nat)
    (l : list A) :
  sum_list_with metric (ORDER_BY E le l) = sum_list_with metric l.
Proof. by rewrite (ORDER_BY_perm E). Qed.

Lemma elem_of_ORDER_BY (E : Engine) {A} (le : A → A → bool) (l : list A) x :
  x ∈ ORDER_BY E le l ↔ x ∈ l.
Proof. by rewrite (ORDER_BY_perm E). Qed.

(** ** The sum invariant of the aggregation views *)

Ltac view_count :=
  rewrite ?ORDER_BY_sum; apply GROUP_BY_count; intros; reflexivity.
Ltac view_sum :=
  rewrite ?ORDER_BY_sum; unfold SUM_CASE; apply GROUP_BY_sum; intros;
  reflexivity.

(** C2.  Every view is a function of its canonical table alone (and of the
    engine that orders its rows), and summing a metric column over the rows
    of a view gives the count, or the sum of the 0/1 flag, taken directly
    over the canonical table under the view's own [WHERE] filter.  The
    point-level view has no metric column: its number of rows is the number
    of canonical rows that pass its filter. *)
Theorem aggregation_sum_invariant (E : Engine)
    (C : list Crime.row) (A : list Arrest.row) (F : list Cfs.row) :
  let year_known := filter (λ r, is_Some (Crime.year r)) C in
  sum_list_with snd (Views.crime_overview_monthly E C)
    = COUNT (filter (λ r, is_Some (Crime.month_start r)) C)
  ∧ sum_list_with snd (Views.crime_by_type E C) = COUNT year_known
  ∧ sum_list_with snd (Views.crime_by_zip E C)
    = COUNT (filter (λ r, is_Some (Crime.zip_code r) ∧ is_Some (Crime.year r)) C)
  ∧ sum_list_with (λ x, x.1.2) (Views.crime_by_agency E C) = COUNT year_known
  ∧ sum_list_with snd (Views.crime_by_agency E C)
    = SUM_CASE Crime.is_domestic_violence year_known
  ∧ sum_list_with snd (Views.victim_demographics E C) = COUNT year_known
  ∧ sum_list_with snd (Views.domestic_violence E C)
    = COUNT (filter (λ r, Crime.is_domestic_violence r = true
                          ∧ is_Some (Crime.year r)) C)
  ∧ sum_list_with snd (Views.temporal_patterns C) = COUNT year_known
  ∧ length (Views.map_points C)
    = COUNT (filter (λ r, Views.map_points_where r = true) C)
  ∧ sum_list_with Views.YearlySummary.total (Views.yearly_summary E C)
    = COUNT year_known
  ∧ sum_list_with Views.YearlySummary.person_crimes (Views.yearly_summary E C)
    = SUM_CASE (Views.crime_against_is "People") year_known
  ∧ sum_list_with Views.YearlySummary.property_crimes
      (Views.yearly_summary E C)
    = SUM_CASE (Views.crime_against_is "Property") year_known
  ∧ sum_list_with Views.YearlySummary.society_crimes
      (Views.yearly_summary E C)
    = SUM_CASE (Views.crime_against_is "Society") year_known
  ∧ sum_list_with Views.YearlySummary.dv_total (Views.yearly_summary E C)
    = SUM_CASE Crime.is_domestic_violence year_known
  ∧ sum_list_with Views.YearlySummary.stolen_vehicle_total
      (Views.yearly_summary E C)
    = SUM_CASE Crime.is_stolen_vehicle year_known
  ∧ sum_list_with snd (Views.crime_by_city E C)
    = COUNT (filter (λ r, is_Some (Crime.city r) ∧ is_Some (Crime.year r)) C)
  ∧ sum_list_with snd (Views.arrests_by_type E A)
    = COUNT (filter (λ r, is_Some (Arrest.year r)) A)
  ∧ sum_list_with snd (Views.cfs_monthly E F)
    = COUNT (filter (λ r, is_Some (Cfs.month_start r)) F)
  ∧ sum_list_with snd (Views.cfs_by_beat E F)
    = COUNT (filter (λ r, is_Some (Cfs.beat r) ∧ is_Some (Cfs.year r)) F)
  ∧ sum_list_with snd (Views.cfs_temporal F)
    = COUNT (filter (λ r, is_Some (Cfs.dow r) ∧ is_Some (Cfs.hour r)) F).
Proof.
  intros year_known. subst year_known.
  unfold Views.crime_overview_monthly, Views.crime_by_type, Views.crime_by_zip,
    Views.crime_by_agency, Views.victim_demographics, Views.domestic_violence,
    Views.temporal_patterns, Views.yearly_summary, Views.crime_by_city,
    Views.arrests_by_type, Views.cfs_monthly, Views.cfs_by_beat,
    Views.cfs_temporal.
  repeat split; try view_count; try view_sum.
  unfold Views.map_points, COUNT. apply length_fmap.
Qed.

(** ** The yearly summary *)

Lemma SUM_CASE_count {R} (flag : R → bool) (P : R → Prop)
    `{!∀ r, Decision (P r)} (l : list R) :
  (∀ r, flag r = true ↔ P r) → SUM_CASE flag l = COUNT (filter P l).
Proof.
  intros Hflag. unfold SUM_CASE, COUNT.
  induction l as [|r l IH]; [done|].
  rewrite filter_cons. simpl. destruct (decide (P r)) as [HP|HP].
  - apply Hflag in HP. rewrite HP. simpl. by rewrite IH.
  - destruct (flag r) eqn:Hf; [by apply Hflag in Hf|]. by rewrite IH.
Qed.

Lemma crime_against_is_spec (category : string) (r : Crime.row) :
  Views.crime_against_is category r = true
  ↔ Crime.crime_against r = Some category.
Proof. unfold Views.crime_against_is. apply bool_decide_eq_true. Qed.

(** Every row is in exactly one of the four classes. *)
Lemma COUNT_by_category (g : list Crime.row) :
  COUNT g
  = (COUNT (filter (λ r, Crime.crime_against r = Some "People") g)
     + COUNT (filter (λ r, Crime.crime_against r = Some "Property") g)
     + COUNT (filter (λ r, Crime.crime_against r = Some "Society") g)
     + COUNT (filter uncategorized g))%nat.
Proof.
  unfold COUNT. induction g as [|r g IH]; [done|].
  rewrite !filter_cons.
  repeat case_decide; simpl; try lia; try congruence; exfalso;
    unfold uncategorized in *;
    match goal with
    | Hn : ¬ (_ ∉ _) |- _ =>
        apply Hn; rewrite !not_elem_of_cons;
        repeat split; (done || apply not_elem_of_nil)
    | Hu : _ ∉ _ |- _ =>
        rewrite !not_elem_of_cons in Hu; destruct Hu as (? & ? & ? & _); done
    end.
Qed.

Lemma yearly_summary_row (E : Engine) (C : list Crime.row)
    (row : Views.YearlySummary.row) :
  row ∈ Views.yearly_summary E C
  ↔ ∃ y, in_year y C ≠ []
         ∧ row = Views.yearly_summary_select (Some y) (in_year y C).
Proof.
  unfold Views.yearly_summary. rewrite elem_of_ORDER_BY, elem_of_GROUP_BY.
  assert (∀ y, filter (λ r, Crime.year r = Some y)
                 (filter (λ r, is_Some (Crime.year r)) C) = in_year y C) as Hf.
  { intros y. apply list_filter_filter_l. intros r ->. by eexists. }
  split.
  - intros (k & Hk & ->). apply list_elem_of_fmap in Hk as (r & -> & Hr).
    pose proof Hr as Hr'. apply list_elem_of_filter in Hr' as [[y Hy] HrC].
    exists y. rewrite Hy, Hf. split; [|done].
    intros Hnil. assert (r ∈ in_year y C) as Hin
      by (apply list_elem_of_filter; done).
    rewrite Hnil in Hin. by apply elem_of_nil in Hin.
  - intros (y & Hne & ->). exists (Some y). rewrite Hf. split; [|done].
    destruct (in_year y C) as [|r g] eqn:Hg; [done|].
    assert (r ∈ in_year y C) as Hin by (rewrite Hg; left).
    apply list_elem_of_filter in Hin as [Hy HrC].
    apply list_elem_of_fmap. exists r. split; [done|].
    apply list_elem_of_filter. split; [by eexists|done].
Qed.

(** C8.  When the 2023 rows of the canonical crime table are 100 "People"
    rows, 50 "Property" rows, 10 "Society" rows and one row of no named
    category, the yearly summary has exactly one row for 2023, and it reports
    total 161, person_crimes 100, property_crimes 50, society_crimes 10. *)
Theorem yearly_summary_2023_scenario (E : Engine) (C : list Crime.row) :
  COUNT (filter (λ r, Crime.crime_against r = Some "People") (in_year 2023 C))
    = 100%nat →
  COUNT (filter (λ r, Crime.crime_against r = Some "Property") (in_year 2023 C))
    = 50%nat →
  COUNT (filter (λ r, Crime.crime_against r = Some "Society") (in_year 2023 C))
    = 10%nat →
  COUNT (filter uncategorized (in_year 2023 C)) = 1%nat →
  ∃ row,
    row ∈ Views.yearly_summary E C
    ∧ Views.YearlySummary.year row = Some 2023
    ∧ Views.YearlySummary.total row = 161%nat
    ∧ Views.YearlySummary.person_crimes row = 100%nat
    ∧ Views.YearlySummary.property_crimes row = 50%nat
    ∧ Views.YearlySummary.society_crimes row = 10%nat
    ∧ ∀ row', row' ∈ Views.yearly_summary E C →
              Views.YearlySummary.year row' = Some 2023 → row' = row.
Proof.
  intros Hpeople Hproperty Hsociety Hother.
  exists (Views.yearly_summary_select (Some 2023) (in_year 2023 C)).
  split; [|split; [done|]].
  { apply yearly_summary_row. exists 2023. split; [|done].
    intros Hnil. rewrite Hnil in Hother. discriminate. }
  simpl.
  rewrite !(SUM_CASE_count _ _ _ (crime_against_is_spec _)).
  rewrite COUNT_by_category, Hpeople, Hproperty, Hsociety, Hother.
  repeat split.
  intros row' Hin Hyear.
  apply yearly_summary_row in Hin as (y & _ & ->).
  simpl in Hyear. by simplify_eq.
Qed.

Lemma yearly_summary_2023_scenario_witness :
  ∃ row,
    row ∈ Views.yearly_summary ReferenceEngine.forward scenario_2023
    ∧ Views.YearlySummary.year row = Some 2023
    ∧ Views.YearlySummary.total row = 161%nat
    ∧ Views.YearlySummary.person_crimes row = 100%nat
    ∧ Views.YearlySummary.property_crimes row = 50%nat
    ∧ Views.YearlySummary.society_crimes row = 10%nat
    ∧ ∀ row', row' ∈ Views.yearly_summary ReferenceEngine.forward scenario_2023 →
              Views.YearlySummary.year row' = Some 2023 → row' = row.
Proof.
  apply (yearly_summary_2023_scenario ReferenceEngine.forward scenario_2023);
    vm_compute; reflexivity.
Defined.

Example yearly_summary_scenario_rows :
  Views.yearly_summary ReferenceEngine.forward scenario_2023
  = [ {| Views.YearlySummary.year := Some 2022;
         Views.YearlySummary.total := 1;
         Views.YearlySummary.person_crimes := 1;
         Views.YearlySummary.property_crimes := 0;
         Views.YearlySummary.society_crimes := 0;
         Views.YearlySummary.dv_total := 0;
         Views.YearlySummary.stolen_vehicle_total := 0 |};
      {| Views.YearlySummary.year := Some 2023;
         Views.YearlySummary.total := 161;
         Views.YearlySummary.person_crimes := 100;
         Views.YearlySummary.property_crimes := 50;
         Views.YearlySummary.society_crimes := 10;
         Views.YearlySummary.dv_total := 0;
         Views.YearlySummary.stolen_vehicle_total := 0 |} ].
Proof. vm_compute. reflexivity. Qed.

(** ** Deduplication by window *)

Lemma DESC_NULLS_LAST_trans (a b c : option Z) :
  DESC_NULLS_LAST a b = true → DESC_NULLS_LAST b c = true →
  DESC_NULLS_LAST a c = true.
Proof.
  destruct a, b, c; simpl; try done. rewrite !Z.leb_le. lia.
Qed.

Lemma DESC_NULLS_LAST_total (a b : option Z) :
  DESC_NULLS_LAST a b = true ∨ DESC_NULLS_LAST b a = true.
Proof.
  destruct a, b; simpl; auto. rewrite !Z.leb_le. lia.
Qed.

Lemma filter_none {A} (P : A → Prop) `{!∀ x, Decision (P x)} (l : list A) :
  (∀ x, x ∈ l → ¬ P x) → filter P l = [].
Proof.
  induction l as [|x l IH]; intros Hl; [done|].
  rewrite filter_cons_False by (apply Hl; left).
  apply IH. intros y Hy. apply Hl. by right.
Qed.

(** Of the numbered rows of one partition, number 1 is the first row of the
    sorted partition. *)
Lemma numbered_first {R} (l : list R) :
  fst <$> filter (λ p : R * nat, p.2 = 1%nat) (imap (λ i r, (r, S i)) l)
  = take 1 l.
Proof.
  destruct l as [|r l]; [done|]. rewrite imap_cons.
  rewrite filter_cons_True by done.
  rewrite filter_none; [reflexivity|].
  intros p Hp. apply elem_of_lookup_imap in Hp as (i & y & -> & _). done.
Qed.

(** The projection of the inner query commutes with the outer [WHERE]. *)
Lemma select_then_first {A B} (select : A → B) (l : list (A * nat)) :
  fst <$> filter (λ p : B * nat, p.2 = 1%nat) ((λ p, (select p.1, p.2)) <$> l)
  = select <$> (fst <$> filter (λ p : A * nat, p.2 = 1%nat) l).
Proof.
  induction l as [|[a n] l IH]; [done|].
  csimpl. rewrite !filter_cons. simpl.
  destruct (decide (n = 1%nat)); csimpl; by rewrite IH.
Qed.

Section WindowFacts.
Context {R K : Type} `{EqDecision K}.
Context (E : Engine) (key : R → K) (ord : R → option Z).

Lemma first_rows_unfold (rows : list R) :
  first_rows E key ord rows
  = remove_dups (key <$> rows) ≫= (λ k, take 1 (sorted_partition E key ord rows k)).
Proof.
  unfold first_rows, sorted_partition, ROW_NUMBER, PARTITION_BY.
  induction (remove_dups (key <$> rows)) as [|k ks IH]; [done|].
  csimpl. rewrite filter_app, fmap_app, IH. f_equal. apply numbered_first.
Qed.

Lemma elem_of_sorted_partition (rows : list R) (k : K) (x : R) :
  x ∈ sorted_partition E key ord rows k ↔ key x = k ∧ x ∈ rows.
Proof.
  unfold sorted_partition. by rewrite elem_of_ORDER_BY, list_elem_of_filter.
Qed.

Lemma sorted_partition_head (rows : list R) (k : K) :
  k ∈ key <$> rows →
  ∃ x tl, sorted_partition E key ord rows k = x :: tl ∧ key x = k ∧ x ∈ rows.
Proof.
  intros Hk. apply list_elem_of_fmap in Hk as (r & -> & Hr).
  destruct (sorted_partition E key ord rows (key r)) as [|x tl] eqn:Hs.
  - assert (r ∈ sorted_partition E key ord rows (key r)) as Hin
      by (by apply elem_of_sorted_partition).
    rewrite Hs in Hin. by apply elem_of_nil in Hin.
  - exists x, tl. split; [done|]. apply elem_of_sorted_partition.
    rewrite Hs. left.
Qed.

(** One surviving row for each key of the input, and no more. *)
Lemma first_rows_keys (rows : list R) :
  key <$> first_rows E key ord rows = remove_dups (key <$> rows).
Proof.
  rewrite first_rows_unfold.
  assert (∀ k, k ∈ remove_dups (key <$> rows) → k ∈ key <$> rows) as Hks
    by (intros k; by rewrite elem_of_remove_dups).
  induction (remove_dups (key <$> rows)) as [|k ks IH]; [done|].
  csimpl. rewrite fmap_app, IH by (intros k' Hk'; apply Hks; by right).
  destruct (sorted_partition_head rows k) as (x & tl & -> & <- & _);
    [apply Hks; left|]. done.
Qed.

(** The surviving row of a key is first in the engine's order: no row of its
    partition has a later timestamp. *)
Lemma first_rows_latest (rows : list R) (x : R) :
  x ∈ first_rows E key ord rows →
  x ∈ rows
  ∧ ∀ r, r ∈ rows → key r = key x →
         DESC_NULLS_LAST (ord x) (ord r) = true.
Proof.
  rewrite first_rows_unfold. intros Hx.
  apply list_elem_of_bind in Hx as (k & Hx & _).
  pose proof (ORDER_BY_sorted E R (λ a b, DESC_NULLS_LAST (ord a) (ord b))
                (filter (λ r, key r = k) rows)) as Hsorted.
  fold (sorted_partition E key ord rows k) in Hsorted.
  destruct (sorted_partition E key ord rows k) as [|y tl] eqn:Hs;
    [by apply elem_of_nil in Hx|].
  simpl in Hx. rewrite take_0 in Hx. apply list_elem_of_singleton in Hx as ->.
  assert (y ∈ sorted_partition E key ord rows k) as Hy by (rewrite Hs; left).
  apply elem_of_sorted_partition in Hy as [Hky Hyrows].
  split; [done|]. intros r Hr Hkr.
  assert (r ∈ sorted_partition E key ord rows k) as Hin
    by (apply elem_of_sorted_partition; split; congruence).
  rewrite Hs in Hin. apply elem_of_cons in Hin as [->|Hin].
  - by destruct (DESC_NULLS_LAST_total (ord y) (ord y)).
  - apply StronglySorted_inv in Hsorted as [_ Hall].
    + rewrite Forall_forall in Hall. by apply Hall.
    + intros a b c. apply DESC_NULLS_LAST_trans.
    + intros a b. apply DESC_NULLS_LAST_total.
Qed.

End WindowFacts.

(** The joins keep every raw row and add none. *)
Lemma elem_of_LEFT_JOIN {A B} (on : A → B → bool) (l : list A) (r : list B)
    (a : A) (b : option B) :
  (a, b) ∈ LEFT_JOIN on l r → a ∈ l.
Proof.
  unfold LEFT_JOIN. intros H.
  apply list_elem_of_bind in H as (a' & H & Ha').
  destruct (List.filter (on a') r) as [|m ms].
  - apply list_elem_of_singleton in H. by simplify_eq/=.
  - apply list_elem_of_fmap in H as (b' & H & _). by simplify_eq/=.
Qed.




Lemma crime_table_first_rows (E : Engine) (raw_crime : list RawCrime.row) :
  crime_table E raw_crime
  = crime_select E
      <$> first_rows E crime_partition_key (crime_order_key E) raw_crime.
Proof. unfold crime_table. apply select_then_first. Qed.

Lemma cfs_table_first_rows (E : Engine) (raw_cfs : list RawCfs.row)
    (ref_call_type ref_dispo : option (list Ref.row)) :
  cfs_table E raw_cfs ref_call_type ref_dispo
  = cfs_select E (bool_decide (is_Some ref_call_type))
                 (bool_decide (is_Some ref_dispo))
      <$> first_rows E cfs_partition_key (cfs_order_key E)
            (cfs_from raw_cfs ref_call_type ref_dispo).
Proof. unfold cfs_table. apply select_then_first. Qed.



(** The scenario of the spec: the later revision survives, on either
    engine. *)
Example dedup_keeps_2024_03_01 :
  let old := raw_crime_row "X1" "Theft" "2024-01-01" "LA MESA" in
  let new := raw_crime_row "X1" "Theft" "2024-03-01" "EL CAJON" in
  crime_table ReferenceEngine.forward [old; new]
    = [crime_select ReferenceEngine.forward new]
  ∧ crime_table ReferenceEngine.backward [new; old]
    = [crime_select ReferenceEngine.backward new].
Proof. split; vm_compute; reflexivity. Qed.


(** What sorting by the timestamp alone leaves open: both reference engines
    sort each partition by timestamp, and on two rows of one key with one
    timestamp the first keeps the row that is earlier in the input and the
    second the row that is later. *)
Example dedup_tie_not_by_input_order :
  crime_partition_key tie_first = crime_partition_key tie_second
  ∧ crime_order_key ReferenceEngine.backward tie_first
    = crime_order_key ReferenceEngine.backward tie_second
  ∧ crime_table ReferenceEngine.backward [tie_first; tie_second]
    = [crime_select ReferenceEngine.backward tie_second]
  ∧ crime_select ReferenceEngine.backward
      <$> keep_latest_first_in_input crime_partition_key
            (crime_order_key ReferenceEngine.backward) [tie_first; tie_second]
    = [crime_select ReferenceEngine.backward tie_first]
  ∧ crime_table ReferenceEngine.forward [tie_first; tie_second]
    = [crime_select ReferenceEngine.forward tie_first]
  ∧ crime_select ReferenceEngine.backward tie_first
    ≠ crime_select ReferenceEngine.backward tie_second.
Proof.
  repeat split; try (vm_compute; reflexivity).
  intros H. apply (f_equal Crime.city) in H. discriminate H.
Qed.

(** ** The transform stage and missing artifacts *)

(** C4 fails on the code for the crime track: [_transform_crime] reads its
    artifact without looking whether it is there, the engine raises, and
    [transform] lets the exception pass; the arrests and calls tracks and the
    aggregations never run, whatever artifacts they have, and the disk is
    left as it was. *)
Theorem transform_missing_crime_aborts (E : Engine) (w : World) :
  cibrs_group_a_json (raw (disk w)) = None →
  transform E w
  = ({| disk := disk w;
        stdout := stdout w ++ ["Track 1: CIBRS Group A -> crime.parquet"] |},
     Raise (IOException "cibrs_group_a.json")).
Proof.
  intros Hmissing. unfold transform, _transform_crime.
  unfold mbind, M_bind, bind, print, get_disk, read_json, raise. simpl.
  rewrite Hmissing. reflexivity.
Qed.

Lemma transform_missing_crime_aborts_witness :
  transform ReferenceEngine.forward
    {| disk := disk_without_crime; stdout := [] |}
  = ({| disk := disk_without_crime;
        stdout := ["Track 1: CIBRS Group A -> crime.parquet"] |},
     Raise (IOException "cibrs_group_a.json")).
Proof.
  apply (transform_missing_crime_aborts ReferenceEngine.forward
           {| disk := disk_without_crime; stdout := [] |}).
  reflexivity.
Defined.

(** The arrests track has the same shape: with its artifact missing the crime
    table is written, then the exception passes and the calls track never
    runs. *)
Lemma transform_missing_arrests_aborts (E : Engine) (w : World)
    (raw_crime : list RawCrime.row) :
  cibrs_group_a_json (raw (disk w)) = Some raw_crime →
  cibrs_group_b_json (raw (disk w)) = None →
  ∃ w', transform E w = (w', Raise (IOException "cibrs_group_b.json"))
        ∧ crime_parquet (processed (disk w'))
          = Some (crime_table E raw_crime)
        ∧ arrests_parquet (processed (disk w'))
          = arrests_parquet (processed (disk w))
        ∧ cfs_parquet (processed (disk w')) = cfs_parquet (processed (disk w))
        ∧ aggregated (disk w') = aggregated (disk w).
Proof.
  intros Hcrime Harrests. eexists.
  unfold transform, _transform_crime, _transform_arrests.
  unfold mbind, M_bind, bind, print, get_disk, read_json, raise, mret, M_ret,
    ret, set_processed.
  simpl. rewrite Hcrime. simpl. rewrite Harrests. simpl.
  split; [reflexivity|]. simpl. auto.
Qed.

(** The calls track is the one that looks first: with no [cfs_*.csv] it
    prints a warning and returns, the other two tables are written and the
    stage completes. *)
Lemma transform_missing_cfs_skips (E : Engine) (w : World)
    (raw_crime : list RawCrime.row) (raw_arrests : list RawArrest.row) :
  cibrs_group_a_json (raw (disk w)) = Some raw_crime →
  cibrs_group_b_json (raw (disk w)) = Some raw_arrests →
  cfs_csv (raw (disk w)) = [] →
  ∃ w', transform E w = (w', Ok tt)
        ∧ crime_parquet (processed (disk w'))
          = Some (crime_table E raw_crime)
        ∧ arrests_parquet (processed (disk w'))
          = Some (arrests_table E raw_arrests)
        ∧ cfs_parquet (processed (disk w')) = cfs_parquet (processed (disk w))
        ∧ yearly_summary_parquet (aggregated (disk w'))
          = Some (Views.yearly_summary E (crime_table E raw_crime))
        ∧ arrests_by_type_parquet (aggregated (disk w'))
          = Some (Views.arrests_by_type E (arrests_table E raw_arrests))
        ∧ "WARNING: no CFS CSV files found, skipping" ∈ stdout w'.
Proof.
  intros Hcrime Harrests Hcfs.
  unfold transform, _transform_crime, _transform_arrests, _transform_cfs,
    _build_aggregations, export_view.
  unfold mbind, M_bind, bind, print, get_disk, read_json, raise, mret, M_ret,
    ret, set_processed, set_aggregated.
  simpl. rewrite Hcrime. simpl. rewrite Harrests. simpl. rewrite Hcfs. simpl.
  destruct (cfs_parquet (processed (disk w))) as [F|] eqn:HF; simpl;
    eexists; (split; [reflexivity|]); simpl;
    repeat split; rewrite ?elem_of_app, ?elem_of_cons; tauto.
Qed.

(** ** The ingest stage and the cache *)

Section IngestFacts.
Implicit Types (net : Network) (fs : gmap string string).

Lemma I_bind_Ok {A B} (m : I A) (k : A → I B) fs fs' (b : B) :
  (m ≫= k) fs = Some (fs', Ok b) →
  ∃ fs1 a, m fs = Some (fs1, Ok a) ∧ k a fs1 = Some (fs', Ok b).
Proof.
  unfold mbind, I_bind. destruct (m fs) as [[fs1 [a|e]]|]; [eauto|done|done].
Qed.

Lemma write_loop_other (out_path q : string) (chunks : list string) fs :
  q ≠ out_path →
  foldl (λ fs chunk, <[out_path := default "" (fs !! out_path) ++ chunk]> fs)
        fs chunks !! q = fs !! q.
Proof.
  intros Hq. revert fs. induction chunks as [|c chunks IH]; intros fs; [done|].
  simpl. rewrite IH. by apply lookup_insert_ne.
Qed.

Lemma write_loop_content (out_path acc : string) (chunks : list string) fs :
  fs !! out_path = Some acc →
  foldl (λ fs chunk, <[out_path := default "" (fs !! out_path) ++ chunk]> fs)
        fs chunks !! out_path = Some (foldl String.append acc chunks).
Proof.
  revert fs acc. induction chunks as [|c chunks IH]; intros fs acc Hacc; [done|].
  simpl. apply IH. rewrite Hacc. simpl. apply lookup_insert_eq.
Qed.

Lemma write_chunks_other (out_path q : string) (chunks : list string) fs :
  q ≠ out_path → write_chunks out_path chunks fs !! q = fs !! q.
Proof.
  intros Hq. unfold write_chunks. rewrite write_loop_other by done.
  by apply lookup_insert_ne.
Qed.

Lemma write_chunks_content (out_path : string) (chunks : list string) fs :
  write_chunks out_path chunks fs !! out_path = Some (received chunks).
Proof. apply write_loop_content, lookup_insert_eq. Qed.

(** A download that returns touches no file but its own, and returns its own
    path or nothing. *)
Lemma _csv_download_Ok net (url out_path : string) (force : bool) fs fs'
    (p : option string) :
  _csv_download net url out_path force fs = Some (fs', Ok p) →
  (∀ q, q ≠ out_path → fs' !! q = fs !! q)
  ∧ (p = None ∨ p = Some out_path).
Proof.
  unfold _csv_download.
  destruct (bool_decide (is_Some (fs !! out_path)) && negb force).
  { intros [= <- <-]. auto. }
  destruct (stream_get net url) as [|status chunks broken]; [done|].
  destruct (is_success status).
  - destruct broken; [done|]. intros [= <- <-]. split; [|auto].
    intros q Hq. by apply write_chunks_other.
  - destruct (status =? 403); [|done]. intros [= <- <-]. auto.
Qed.

Lemma _soda_fetch_other net (steps : nat) (dataset_id out_path : string)
    (where_ : option string) (force : bool) fs fs' (r : Result string) :
  _soda_fetch net steps dataset_id out_path where_ force fs = Some (fs', r) →
  (∀ q, q ≠ out_path → fs' !! q = fs !! q)
  ∧ (∀ p, r = Ok p → p = out_path).
Proof.
  unfold _soda_fetch.
  destruct (bool_decide (is_Some (fs !! out_path)) && negb force).
  { intros [= <- <-]. split; [done|]. by intros p [= ->]. }
  destruct (soda_pages _ _ _ _ _ _) as [[rows|e]|]; [| |done].
  - intros [= <- <-]. split; [|by intros p [= ->]].
    intros q Hq. by apply lookup_insert_ne.
  - intros [= <- <-]. split; [done|]. by intros p [= ].
Qed.

(** *** File names *)

Lemma list_ascii_of_string_app (a b : string) :
  list_ascii_of_string (a ++ b)
  = (list_ascii_of_string a ++ list_ascii_of_string b)%list.
Proof.
  induction a as [|c a IH]; [done|].
  change (String c a ++ b) with (String c (a ++ b)). simpl. by rewrite IH.
Qed.

Lemma string_app_inv_tail (a b s : string) : a ++ s = b ++ s → a = b.
Proof.
  intros H. apply (f_equal list_ascii_of_string) in H.
  rewrite !list_ascii_of_string_app in H. apply app_inv_tail in H.
  rewrite <- (string_of_list_ascii_of_string a), H.
  apply string_of_list_ascii_of_string.
Qed.

Lemma to_int_normal (n : Z) :
  Z.to_int n ≠ Decimal.Pos Decimal.Nil ∧ Z.to_int n ≠ Decimal.Neg Decimal.Nil.
Proof.
  pose proof (DecimalZ.to_of (Z.to_int n)) as Hn.
  rewrite DecimalZ.of_to in Hn.
  split; intros H; rewrite H in Hn; discriminate Hn.
Qed.

Lemma str_inj (a b : Z) : str a = str b → a = b.
Proof.
  unfold str. intros H.
  destruct (to_int_normal a) as [Ha1 Ha2], (to_int_normal b) as [Hb1 Hb2].
  pose proof (NilZero.isi _ Ha1 Ha2) as Hia.
  pose proof (NilZero.isi _ Hb1 Hb2) as Hib.
  rewrite H, Hib in Hia. apply DecimalZ.to_int_inj. congruence.
Qed.

Lemma cfs_out_inj (a b : Z) : cfs_out a = cfs_out b → a = b.
Proof.
  unfold cfs_out. intros H.
  apply (inj (String.app "cfs_")) in H.
  apply string_app_inv_tail in H. by apply str_inj.
Qed.

Lemma cfs_out_shape (year : Z) :
  ∃ rest, cfs_out year = String "c" (String "f" rest).
Proof. unfold cfs_out. eexists. reflexivity. Qed.

Lemma cfs_out_not_soda_or_ref (year : Z) :
  cfs_out year ≠ "cibrs_group_a.json" ∧ cfs_out year ≠ "cibrs_group_b.json"
  ∧ Forall (λ f : string * string, f.2 ≠ cfs_out year) CFS_REF_FILES.
Proof.
  destruct (cfs_out_shape year) as [rest ->].
  repeat split; try discriminate.
  repeat constructor; simpl; discriminate.
Qed.

(** *** Pagination *)

Lemma take_nil_inv {A} (n : nat) (l : list A) :
  (0 < n)%nat → take n l = [] → l = [].
Proof. destruct n, l; simpl; (lia || done). Qed.

Lemma soda_pages_from (net : Network) (url : string) (where_ : option string)
    (rows : list string) :
  serves net url where_ rows →
  ∀ (steps n : nat) (acc : list string),
    Z.of_nat (length (drop n rows)) < Z.of_nat steps * SODA_PAGE_SIZE →
    soda_pages net url where_ steps (Z.of_nat n) acc
    = Some (Ok (acc ++ drop n rows)%list).
Proof.
  intros Hserves.
  remember (Z.to_nat SODA_PAGE_SIZE) as P eqn:HP.
  assert (Z.of_nat P = SODA_PAGE_SIZE) as HPz
    by (subst P; apply Z2Nat.id; unfold SODA_PAGE_SIZE; lia).
  assert (0 < SODA_PAGE_SIZE) as Hpos by (unfold SODA_PAGE_SIZE; lia).
  induction steps as [|steps IH]; intros n acc Hlen; [lia|].
  cbn [soda_pages]. rewrite Hserves, Nat2Z.id, <- HP.
  change (negb (is_success 200)) with false. cbn iota.
  destruct (take P (drop n rows)) as [|b batch] eqn:Hb.
  - apply take_nil_inv in Hb; [|lia]. by rewrite Hb, app_nil_r.
  - pose proof (length_take (drop n rows) P) as Hlt. rewrite Hb in Hlt.
    destruct (Z.ltb_spec (Z.of_nat (length (b :: batch))) SODA_PAGE_SIZE)
      as [Hshort|Hfull].
    + rewrite <- Hb, take_ge by lia. done.
    + replace (Z.of_nat n + SODA_PAGE_SIZE) with (Z.of_nat (n + P)) by lia.
      rewrite IH.
      * rewrite <- Hb, <- drop_drop, <- app_assoc, take_drop. done.
      * rewrite <- drop_drop, length_drop. lia.
Qed.

Lemma _soda_fetch_returns net (steps : nat) (dataset_id out_path : string)
    (where_ : option string) (force : bool) fs (rows : list string) :
  serves net (soda_url dataset_id) (sent_where where_) rows →
  Z.of_nat (length rows) < Z.of_nat steps * SODA_PAGE_SIZE →
  ∃ fs', _soda_fetch net steps dataset_id out_path where_ force fs
         = Some (fs', Ok out_path).
Proof.
  intros Hserves Hsteps. unfold _soda_fetch.
  destruct (bool_decide (is_Some (fs !! out_path)) && negb force); [eauto|].
  fold (sent_where where_). fold (soda_url dataset_id).
  pose proof (soda_pages_from _ _ _ _ Hserves steps 0%nat []) as Hpages.
  rewrite drop_0 in Hpages. change (Z.of_nat 0) with 0 in Hpages.
  rewrite (Hpages Hsteps). eauto.
Qed.

(** *** The loops of [ingest] *)

Lemma not_cached_or_forced_test fs (out_path : string) (force : bool) :
  not_cached_or_forced fs out_path force →
  bool_decide (is_Some (fs !! out_path)) && negb force = false.
Proof.
  intros [Hnone| ->]; [|apply andb_false_r].
  rewrite Hnone. by rewrite bool_decide_eq_false_2 by (by intros [? ?]).
Qed.

Lemma not_cached_or_forced_same fs fs' (out_path : string) (force : bool) :
  fs' !! out_path = fs !! out_path →
  not_cached_or_forced fs out_path force →
  not_cached_or_forced fs' out_path force.
Proof. unfold not_cached_or_forced. intros ->. done. Qed.

Lemma _csv_download_403 net (url out_path : string) (force : bool) fs
    (chunks : list string) (broken : bool) :
  stream_get net url = StreamResponse 403 chunks broken →
  not_cached_or_forced fs out_path force →
  _csv_download net url out_path force fs = Some (fs, Ok None).
Proof.
  intros Hget Hnc. unfold _csv_download.
  rewrite (not_cached_or_forced_test _ _ _ Hnc), Hget. reflexivity.
Qed.

Lemma _csv_download_fatal net (url out_path : string) (force : bool) fs
    (status : Z) (chunks : list string) (broken : bool) :
  stream_get net url = StreamResponse status chunks broken →
  is_success status = false → status ≠ 403 →
  not_cached_or_forced fs out_path force →
  _csv_download net url out_path force fs
  = Some (fs, Raise (HTTPStatusError status)).
Proof.
  intros Hget Hfail Hne Hnc. unfold _csv_download.
  rewrite (not_cached_or_forced_test _ _ _ Hnc), Hget, Hfail.
  by apply Z.eqb_neq in Hne as ->.
Qed.

Lemma download_years_403 net (force : bool) (year : Z)
    (chunks : list string) (broken : bool) (years : list Z) :
  stream_get net (cfs_url year) = StreamResponse 403 chunks broken →
  ∀ (paths : list string) fs fs' (paths' : list string),
    not_cached_or_forced fs (cfs_out year) force →
    cfs_out year ∉ paths →
    download_years net force years paths fs = Some (fs', Ok paths') →
    (cfs_out year ∉ paths') ∧ (fs' !! cfs_out year = fs !! cfs_out year).
Proof.
  intros Hget. induction years as [|y years IH];
    intros paths fs fs' paths' Hnc Hpaths Hrun.
  { injection Hrun as <- <-. done. }
  simpl in Hrun. apply I_bind_Ok in Hrun as (fs1 & p & Hdl & Hrest).
  destruct (decide (y = year)) as [->|Hy].
  - rewrite (_csv_download_403 _ _ _ _ _ _ _ Hget Hnc) in Hdl.
    injection Hdl as <- <-. by apply IH in Hrest.
  - apply _csv_download_Ok in Hdl as [Hother Hp].
    assert (cfs_out year ≠ cfs_out y) as Hne
      by (intros Heq; apply cfs_out_inj in Heq; congruence).
    apply IH in Hrest as [Hnotin Hsame].
    + split; [done|]. rewrite Hsame. by apply Hother.
    + eapply not_cached_or_forced_same; [by apply Hother|done].
    + destruct Hp as [->| ->]; [done|].
      rewrite not_elem_of_app. split; [done|].
      apply not_elem_of_cons. split; [done|apply not_elem_of_nil].
Qed.

Lemma download_years_fatal net (force : bool) (year status : Z)
    (chunks : list string) (broken : bool) (years : list Z) :
  stream_get net (cfs_url year) = StreamResponse status chunks broken →
  is_success status = false → status ≠ 403 →
  year ∈ years →
  ∀ (paths : list string) fs fs' (paths' : list string),
    not_cached_or_forced fs (cfs_out year) force →
    download_years net force years paths fs ≠ Some (fs', Ok paths').
Proof.
  intros Hget Hfail Hne. induction years as [|y years IH];
    intros Hin paths fs fs' paths' Hnc Hrun; [by apply elem_of_nil in Hin|].
  simpl in Hrun. apply I_bind_Ok in Hrun as (fs1 & p & Hdl & Hrest).
  destruct (decide (y = year)) as [->|Hy].
  - by rewrite (_csv_download_fatal _ _ _ _ _ _ _ _ Hget Hfail Hne Hnc) in Hdl.
  - apply elem_of_cons in Hin as [->|Hin]; [done|].
    apply _csv_download_Ok in Hdl as [Hother _].
    apply (IH Hin _ _ _ _ ltac:(eapply not_cached_or_forced_same;
      [apply Hother; intros Heq; apply cfs_out_inj in Heq; congruence
      |exact Hnc]) Hrest).
Qed.

Lemma download_refs_other net (force : bool) (q : string)
    (files : list (string * string)) :
  Forall (λ f : string * string, f.2 ≠ q) files →
  ∀ (paths : list string) fs fs' (paths' : list string),
    q ∉ paths →
    download_refs net force files paths fs = Some (fs', Ok paths') →
    (q ∉ paths') ∧ (fs' !! q = fs !! q).
Proof.
  induction 1 as [|[remote local_name] files Hq _ IH];
    intros paths fs fs' paths' Hpaths Hrun.
  { injection Hrun as <- <-. done. }
  simpl in Hrun, Hq. apply I_bind_Ok in Hrun as (fs1 & p & Hdl & Hrest).
  apply _csv_download_Ok in Hdl as [Hother Hp].
  apply IH in Hrest as [Hnotin Hsame].
  - split; [done|]. rewrite Hsame. apply Hother. congruence.
  - destruct Hp as [->| ->]; [done|].
    rewrite not_elem_of_app. split; [done|].
    apply not_elem_of_cons. split; [congruence|apply not_elem_of_nil].
Qed.

Lemma I_bind_run {A B} (m : I A) (k : A → I B) fs fs1 (a : A) :
  m fs = Some (fs1, Ok a) → (m ≫= k) fs = k a fs1.
Proof. unfold mbind, I_bind. by intros ->. Qed.

(** The year of a 403 is passed over: the loop goes on with the paths and
    the cache it had. *)
Lemma download_years_skips net (force : bool) (year : Z) (years : list Z)
    (paths : list string) (chunks : list string) (broken : bool) fs :
  stream_get net (cfs_url year) = StreamResponse 403 chunks broken →
  not_cached_or_forced fs (cfs_out year) force →
  download_years net force (year :: years) paths fs
  = download_years net force years paths fs.
Proof.
  intros Hget Hnc. cbn [download_years].
  by rewrite (I_bind_run _ _ _ _ _ (_csv_download_403 _ _ _ _ _ _ _ Hget Hnc)).
Qed.

Lemma _csv_download_delivered net (url out_path : string) (force : bool) fs :
  delivered net url →
  ∃ fs', _csv_download net url out_path force fs
         = Some (fs', Ok (Some out_path)).
Proof.
  intros (status & chunks & Hget & Hok). unfold _csv_download.
  destruct (bool_decide (is_Some (fs !! out_path)) && negb force); [eauto|].
  rewrite Hget, Hok. eauto.
Qed.

Lemma _csv_download_returns net (url out_path : string) (force : bool) fs :
  delivered net url ∨ forbidden net url →
  ∃ fs' p, _csv_download net url out_path force fs = Some (fs', Ok p).
Proof.
  intros [Hd|(chunks & broken & Hget)].
  - destruct (_csv_download_delivered _ _ out_path force fs Hd) as [fs' ->].
    eauto.
  - unfold _csv_download.
    destruct (bool_decide (is_Some (fs !! out_path)) && negb force); [eauto|].
    rewrite Hget. change (is_success 403) with false. cbn iota.
    change (403 =? 403) with true. eauto.
Qed.

Lemma download_years_returns net (force : bool) (years : list Z) :
  (∀ year, year ∈ years →
           delivered net (cfs_url year) ∨ forbidden net (cfs_url year)) →
  ∀ (paths : list string) fs,
    ∃ fs' paths', download_years net force years paths fs
                  = Some (fs', Ok paths').
Proof.
  induction years as [|y years IH]; intros Hall paths fs.
  { by exists fs, paths. }
  destruct (_csv_download_returns net (cfs_url y) (cfs_out y) force fs)
    as (fs1 & p & Hdl); [apply Hall; left|].
  cbn [download_years]. rewrite (I_bind_run _ _ _ _ _ Hdl).
  apply IH. intros year Hyear. apply Hall. by right.
Qed.

Lemma download_refs_returns net (force : bool)
    (files : list (string * string)) :
  (∀ f, f ∈ files →
        delivered net (ref_url f.1) ∨ forbidden net (ref_url f.1)) →
  ∀ (paths : list string) fs,
    ∃ fs' paths', download_refs net force files paths fs
                  = Some (fs', Ok paths').
Proof.
  induction files as [|[remote local_name] files IH]; intros Hall paths fs.
  { by exists fs, paths. }
  destruct (_csv_download_returns net (ref_url remote) local_name force fs)
    as (fs1 & p & Hdl); [apply (Hall (remote, local_name)); left|].
  cbn [download_refs]. rewrite (I_bind_run _ _ _ _ _ Hdl).
  apply IH. intros f Hf. apply Hall. by right.
Qed.

(** The loops only add to the list of paths. *)
Lemma download_years_grows net (force : bool) (years : list Z) :
  ∀ (paths : list string) fs fs' (paths' : list string),
    download_years net force years paths fs = Some (fs', Ok paths') →
    paths ⊆ paths'.
Proof.
  induction years as [|y years IH]; intros paths fs fs' paths' Hrun.
  { by injection Hrun as <- <-. }
  simpl in Hrun. apply I_bind_Ok in Hrun as (fs1 & p & _ & Hrest).
  apply IH in Hrest. destruct p as [p|]; [|done].
  intros q Hq. apply Hrest, elem_of_app. by left.
Qed.

Lemma download_refs_grows net (force : bool) (files : list (string * string)) :
  ∀ (paths : list string) fs fs' (paths' : list string),
    download_refs net force files paths fs = Some (fs', Ok paths') →
    paths ⊆ paths'.
Proof.
  induction files as [|[remote local_name] files IH];
    intros paths fs fs' paths' Hrun.
  { by injection Hrun as <- <-. }
  simpl in Hrun. apply I_bind_Ok in Hrun as (fs1 & p & _ & Hrest).
  apply IH in Hrest. destruct p as [p|]; [|done].
  intros q Hq. apply Hrest, elem_of_app. by left.
Qed.

(** The file of a year that is delivered is among the paths. *)
Lemma download_years_delivered net (force : bool) (year : Z)
    (years : list Z) :
  delivered net (cfs_url year) → year ∈ years →
  ∀ (paths : list string) fs fs' (paths' : list string),
    download_years net force years paths fs = Some (fs', Ok paths') →
    cfs_out year ∈ paths'.
Proof.
  intros Hd. induction years as [|y years IH];
    intros Hin paths fs fs' paths' Hrun; [by apply elem_of_nil in Hin|].
  simpl in Hrun. apply I_bind_Ok in Hrun as (fs1 & p & Hdl & Hrest).
  destruct (decide (y = year)) as [->|Hy].
  - destruct (_csv_download_delivered _ _ (cfs_out year) force fs Hd)
      as [fs1' Hdl'].
    rewrite Hdl' in Hdl. injection Hdl as <- <-.
    apply (download_years_grows _ _ _ _ _ _ _ Hrest), elem_of_app.
    right. by left.
  - apply elem_of_cons in Hin as [->|Hin]; [done|]. by eapply IH.
Qed.

(** The file of a 403 is not among the paths of a run of [ingest], and the
    cache entry of its name is as before. *)
Lemma ingest_403 net (steps : nat) (CURRENT_YEAR : Z) (force : bool)
    (year : Z) (chunks : list string) (broken : bool) fs fs'
    (paths : list string) :
  stream_get net (cfs_url year) = StreamResponse 403 chunks broken →
  not_cached_or_forced fs (cfs_out year) force →
  ingest net steps CURRENT_YEAR force fs = Some (fs', Ok paths) →
  (cfs_out year ∉ paths) ∧ (fs' !! cfs_out year = fs !! cfs_out year).
Proof.
  intros Hget Hnc Hrun.
  destruct (cfs_out_not_soda_or_ref year) as (Ha & Hb & Hrefs).
  unfold ingest in Hrun.
  apply I_bind_Ok in Hrun as (fs1 & p1 & Hsoda1 & Hrun).
  apply I_bind_Ok in Hrun as (fs2 & p2 & Hsoda2 & Hrun).
  apply I_bind_Ok in Hrun as (fs3 & paths3 & Hyears & Hrefs_run).
  apply _soda_fetch_other in Hsoda1 as [Hfs1 Hp1].
  apply _soda_fetch_other in Hsoda2 as [Hfs2 Hp2].
  rewrite (Hp1 p1 eq_refl), (Hp2 p2 eq_refl) in Hyears.
  assert (fs2 !! cfs_out year = fs !! cfs_out year) as Hfs
    by (rewrite Hfs2, Hfs1 by done; done).
  eapply download_years_403 in Hyears as [Hnotin Hsame]; [|exact Hget|..].
  + eapply download_refs_other in Hrefs_run as [Hnotin' Hsame'];
      [|exact Hrefs|exact Hnotin].
    split; [done|]. by rewrite Hsame', Hsame.
  + by eapply not_cached_or_forced_same.
  + simpl. rewrite !not_elem_of_cons. repeat split; try done.
    apply not_elem_of_nil.
Qed.

(** With both datasets served and every file delivered or not published,
    [ingest] returns. *)
Lemma ingest_returns net (steps : nat) (CURRENT_YEAR : Z) (force : bool) fs
    (rows_a rows_b : list string) :
  serves net (soda_url GROUP_A_ID) None rows_a →
  serves net (soda_url GROUP_B_ID) (Some GROUP_B_WHERE) rows_b →
  Z.of_nat (length rows_a) < Z.of_nat steps * SODA_PAGE_SIZE →
  Z.of_nat (length rows_b) < Z.of_nat steps * SODA_PAGE_SIZE →
  (∀ year, year ∈ CFS_YEARS CURRENT_YEAR →
           delivered net (cfs_url year) ∨ forbidden net (cfs_url year)) →
  (∀ f, f ∈ CFS_REF_FILES →
        delivered net (ref_url f.1) ∨ forbidden net (ref_url f.1)) →
  ∃ fs2 fs3 fs' paths3 paths,
    download_years net force (CFS_YEARS CURRENT_YEAR)
      ["cibrs_group_a.json"; "cibrs_group_b.json"] fs2
    = Some (fs3, Ok paths3)
    ∧ download_refs net force CFS_REF_FILES paths3 fs3 = Some (fs', Ok paths)
    ∧ ingest net steps CURRENT_YEAR force fs = Some (fs', Ok paths).
Proof.
  intros Ha Hb Hsteps_a Hsteps_b Hyears Hrefs.
  destruct (_soda_fetch_returns net steps GROUP_A_ID "cibrs_group_a.json"
              None force fs rows_a Ha Hsteps_a) as [fs1 Hrun1].
  destruct (_soda_fetch_returns net steps GROUP_B_ID "cibrs_group_b.json"
              (Some GROUP_B_WHERE) force fs1 rows_b Hb Hsteps_b)
    as [fs2 Hrun2].
  destruct (download_years_returns net force _ Hyears
              ["cibrs_group_a.json"; "cibrs_group_b.json"] fs2)
    as (fs3 & paths3 & Hrun3).
  destruct (download_refs_returns net force _ Hrefs paths3 fs3)
    as (fs' & paths & Hrun4).
  exists fs2, fs3, fs', paths3, paths. split; [exact Hrun3|].
  split; [exact Hrun4|].
  unfold ingest. rewrite (I_bind_run _ _ _ _ _ Hrun1).
  fold GROUP_B_WHERE. rewrite (I_bind_run _ _ _ _ _ Hrun2).
  cbn [app]. rewrite (I_bind_run _ _ _ _ _ Hrun3). exact Hrun4.
Qed.

End IngestFacts.

(** C7.  A 403 on a stream download raises nothing and writes nothing, and
    [_csv_download] returns no path; the loop over the years passes over
    that year and goes on with the next, so in [ingest] the file of that
    year is not among the returned paths and the cache entry of its name is
    as before.  Any other status outside 2xx raises, and [ingest] does not
    return.  When the two datasets are served and every file is delivered
    or answered with a 403, [ingest] returns: with the paths of the files
    delivered, and without those of the 403s. *)
Theorem not_yet_available_is_omitted (net : Network) (force : bool) :
  (∀ url out_path chunks broken fs,
     stream_get net url = StreamResponse 403 chunks broken →
     not_cached_or_forced fs out_path force →
     _csv_download net url out_path force fs = Some (fs, Ok None))
  ∧ (∀ url out_path status chunks broken fs,
       stream_get net url = StreamResponse status chunks broken →
       is_success status = false → status ≠ 403 →
       not_cached_or_forced fs out_path force →
       _csv_download net url out_path force fs
       = Some (fs, Raise (HTTPStatusError status)))
  ∧ (∀ steps CURRENT_YEAR year chunks broken fs fs' paths,
       stream_get net (cfs_url year) = StreamResponse 403 chunks broken →
       not_cached_or_forced fs (cfs_out year) force →
       ingest net steps CURRENT_YEAR force fs = Some (fs', Ok paths) →
       (cfs_out year ∉ paths) ∧ (fs' !! cfs_out year = fs !! cfs_out year))
  ∧ (∀ steps CURRENT_YEAR year status chunks broken fs fs' paths,
       year ∈ CFS_YEARS CURRENT_YEAR →
       stream_get net (cfs_url year) = StreamResponse status chunks broken →
       is_success status = false → status ≠ 403 →
       not_cached_or_forced fs (cfs_out year) force →
       ingest net steps CURRENT_YEAR force fs ≠ Some (fs', Ok paths))
  ∧ (∀ year years paths chunks broken fs,
       stream_get net (cfs_url year) = StreamResponse 403 chunks broken →
       not_cached_or_forced fs (cfs_out year) force →
       download_years net force (year :: years) paths fs
       = download_years net force years paths fs)
  ∧ (∀ steps CURRENT_YEAR fs rows_a rows_b,
       serves net (soda_url GROUP_A_ID) None rows_a →
       serves net (soda_url GROUP_B_ID) (Some GROUP_B_WHERE) rows_b →
       Z.of_nat (length rows_a) < Z.of_nat steps * SODA_PAGE_SIZE →
       Z.of_nat (length rows_b) < Z.of_nat steps * SODA_PAGE_SIZE →
       (∀ year, year ∈ CFS_YEARS CURRENT_YEAR →
                delivered net (cfs_url year) ∨ forbidden net (cfs_url year)) →
       (∀ f, f ∈ CFS_REF_FILES →
             delivered net (ref_url f.1) ∨ forbidden net (ref_url f.1)) →
       ∃ fs' paths,
         ingest net steps CURRENT_YEAR force fs = Some (fs', Ok paths)
         ∧ ∀ year, year ∈ CFS_YEARS CURRENT_YEAR →
             (delivered net (cfs_url year) → cfs_out year ∈ paths)
             ∧ (forbidden net (cfs_url year) →
                not_cached_or_forced fs (cfs_out year) force →
                (cfs_out year ∉ paths)
                ∧ (fs' !! cfs_out year = fs !! cfs_out year))).
Proof.
  split; [intros; by eapply _csv_download_403|].
  split; [intros; by eapply _csv_download_fatal|].
  split; [intros; by eapply ingest_403|].
  split.
  - intros steps CURRENT_YEAR year status chunks broken fs fs' paths
      Hin Hget Hfail Hne Hnc Hrun.
    destruct (cfs_out_not_soda_or_ref year) as (Ha & Hb & _).
    unfold ingest in Hrun.
    apply I_bind_Ok in Hrun as (fs1 & p1 & Hsoda1 & Hrun).
    apply I_bind_Ok in Hrun as (fs2 & p2 & Hsoda2 & Hrun).
    apply I_bind_Ok in Hrun as (fs3 & paths3 & Hyears & _).
    apply _soda_fetch_other in Hsoda1 as [Hfs1 _].
    apply _soda_fetch_other in Hsoda2 as [Hfs2 _].
    eapply download_years_fatal in Hyears; try done.
    eapply not_cached_or_forced_same; [|exact Hnc].
    by rewrite Hfs2, Hfs1 by done.
  - split; [intros; by eapply download_years_skips|].
    intros steps CURRENT_YEAR fs rows_a rows_b Ha Hb Hsteps_a Hsteps_b
      Hyears Hrefs.
    destruct (ingest_returns net steps CURRENT_YEAR force fs rows_a rows_b
                Ha Hb Hsteps_a Hsteps_b Hyears Hrefs)
      as (fs2 & fs3 & fs' & paths3 & paths & Hrun3 & Hrun4 & Hrun).
    exists fs', paths. split; [exact Hrun|]. intros year Hyear. split.
    + intros Hd.
      apply (download_refs_grows _ _ _ _ _ _ _ Hrun4).
      by eapply download_years_delivered.
    + intros (chunks & broken & Hget) Hnc. by eapply ingest_403.
Qed.

Lemma not_yet_available_is_omitted_witness :
  ∃ fs' paths,
    ingest net_2016_unpublished_paged 1 2016 false ∅ = Some (fs', Ok paths)
    ∧ cfs_out 2015 ∈ paths
    ∧ (cfs_out 2016 ∉ paths)
    ∧ fs' !! cfs_out 2016 = None.
Proof.
  destruct (not_yet_available_is_omitted net_2016_unpublished_paged false)
    as (_ & _ & _ & _ & _ & Hreturns).
  assert (CFS_YEARS 2016 = [2015; 2016]) as Hys by (vm_compute; reflexivity).
  assert (delivered net_2016_unpublished_paged (cfs_url 2015)) as H2015.
  { exists 200, ["a,b;"; "1,2;"]. split; vm_compute; reflexivity. }
  assert (forbidden net_2016_unpublished_paged (cfs_url 2016)) as H2016.
  { exists [], false. vm_compute. reflexivity. }
  destruct (Hreturns 1%nat 2016 ∅ ["{a}"; "{b}"; "{c}"] ["{a}"; "{b}"; "{c}"])
    as (fs' & paths & Hrun & Hyears).
  - intros offset. reflexivity.
  - intros offset. reflexivity.
  - unfold SODA_PAGE_SIZE. simpl. lia.
  - unfold SODA_PAGE_SIZE. simpl. lia.
  - rewrite Hys. intros year Hyear.
    apply elem_of_cons in Hyear as [->|Hyear]; [by left|].
    apply elem_of_cons in Hyear as [->|Hyear]; [by right|].
    by apply elem_of_nil in Hyear.
  - intros f Hf. left. unfold CFS_REF_FILES in Hf.
    apply elem_of_cons in Hf as [->|Hf];
      [exists 200, ["a,b;"; "1,2;"]; split; vm_compute; reflexivity|].
    apply elem_of_cons in Hf as [->|Hf];
      [exists 200, ["a,b;"; "1,2;"]; split; vm_compute; reflexivity|].
    by apply elem_of_nil in Hf.
  - exists fs', paths. split; [exact Hrun|].
    rewrite Hys in Hyears.
    destruct (Hyears 2015 ltac:(left)) as [Hin _].
    destruct (Hyears 2016 ltac:(right; left)) as [_ Hout].
    destruct (Hout H2016 ltac:(by left)) as [Hnotin Hsame].
    split; [by apply Hin|]. split; [exact Hnotin|].
    rewrite Hsame. apply lookup_empty.
Defined.

(** On a network that has no file for 2016 yet, a run for 2015 and 2016
    returns the other five artifacts. *)
Example ingest_omits_unpublished_year :
  (λ r : gmap string string * Result (list string),
     (r.2, r.1 !! "cfs_2015.csv", r.1 !! "cfs_2016.csv"))
    <$> ingest net_2016_unpublished 1 2016 false ∅
  = Some (Ok ["cibrs_group_a.json"; "cibrs_group_b.json"; "cfs_2015.csv";
              "call_type_desc.csv"; "dispo_code_desc.csv"],
          Some "a,b;1,2;", None).
Proof. vm_compute. reflexivity. Qed.

(** A 500 on the file of one year ends the whole stage. *)
Example ingest_fatal_on_500 :
  snd <$> ingest
            {| soda_get := soda_get net_2016_unpublished;
               stream_get := λ url, StreamResponse 500 [] false |}
            1 2016 false ∅
  = Some (Raise (HTTPStatusError 500)).
Proof. vm_compute. reflexivity. Qed.

(** What a dropped connection leaves behind. *)
Lemma _csv_download_broken (net : Network) (url out_path : string)
    (force : bool) (fs : gmap string string) (status : Z)
    (chunks : list string) :
  stream_get net url = StreamResponse status chunks true →
  is_success status = true →
  not_cached_or_forced fs out_path force →
  ∃ fs', _csv_download net url out_path force fs
         = Some (fs', Raise TransportError)
         ∧ fs' !! out_path = Some (received chunks)
         ∧ (∀ q, q ≠ out_path → fs' !! q = fs !! q)
         ∧ ∀ net' url',
             _csv_download net' url' out_path false fs'
             = Some (fs', Ok (Some out_path)).
Proof.
  intros Hget Hok Hnc. exists (write_chunks out_path chunks fs).
  unfold _csv_download at 1.
  rewrite (not_cached_or_forced_test _ _ _ Hnc), Hget, Hok.
  split; [done|]. split; [apply write_chunks_content|].
  split; [intros q Hq; by apply write_chunks_other|].
  intros net' url'. unfold _csv_download.
  rewrite write_chunks_content. reflexivity.
Qed.

Lemma _soda_fetch_Raise (net : Network) (steps : nat)
    (dataset_id out_path : string) (where_ : option string) (force : bool)
    (fs fs' : gmap string string) (e : Exception) :
  _soda_fetch net steps dataset_id out_path where_ force fs
  = Some (fs', Raise e) → fs' = fs.
Proof.
  unfold _soda_fetch.
  destruct (bool_decide (is_Some (fs !! out_path)) && negb force); [done|].
  destruct (soda_pages _ _ _ _ _ _) as [[rows|e']|]; [done| |done].
  by intros [= <- _].
Qed.

(** C3, as the code has it.  Artifacts are written in place under their
    expected name, with no temporary file.  The paginated fetch writes once,
    after the last page: when it raises, the cache is unchanged.  The stream
    download leaves the cache unchanged when the request fails or its status
    is a failure; when the connection drops after the body has started, the
    chunks received so far stay under the expected name, and a later run
    without force-refresh returns that file as the cached artifact. *)
Theorem cache_written_in_place (net : Network) :
  (∀ steps dataset_id out_path where_ force fs fs' e,
     _soda_fetch net steps dataset_id out_path where_ force fs
     = Some (fs', Raise e) → fs' = fs)
  ∧ (∀ url out_path force fs,
       stream_get net url = StreamFailed →
       ∃ r, _csv_download net url out_path force fs = Some (fs, r))
  ∧ (∀ url out_path force fs status chunks broken,
       stream_get net url = StreamResponse status chunks broken →
       is_success status = false →
       ∃ r, _csv_download net url out_path force fs = Some (fs, r))
  ∧ (∀ url out_path force fs status chunks,
       stream_get net url = StreamResponse status chunks true →
       is_success status = true →
       not_cached_or_forced fs out_path force →
       ∃ fs', _csv_download net url out_path force fs
              = Some (fs', Raise TransportError)
              ∧ fs' !! out_path = Some (received chunks)
              ∧ (∀ q, q ≠ out_path → fs' !! q = fs !! q)
              ∧ ∀ net' url',
                  _csv_download net' url' out_path false fs'
                  = Some (fs', Ok (Some out_path))).
Proof.
  split; [intros; by eapply _soda_fetch_Raise|].
  split; [|split].
  - intros url out_path force fs Hget. unfold _csv_download. rewrite Hget.
    destruct (_ && _); eauto.
  - intros url out_path force fs status chunks broken Hget Hfail.
    unfold _csv_download. rewrite Hget, Hfail.
    destruct (_ && _); [eauto|]. destruct (status =? 403); eauto.
  - intros. by eapply _csv_download_broken.
Qed.

(** C3 as stated fails: after the interrupted download the half-written file
    is in the cache under the artifact's name, and the next run, on a network
    that would serve the whole file, returns it as the cached copy. *)
Lemma interrupted_download_is_taken_as_cached :
  ∃ fs',
    _csv_download net_dropping (cfs_url 2015) "cfs_2015.csv" false ∅
    = Some (fs', Raise TransportError)
    ∧ fs' !! "cfs_2015.csv" = Some "year,beat;2015,"
    ∧ _csv_download net_whole (cfs_url 2015) "cfs_2015.csv" false fs'
      = Some (fs', Ok (Some "cfs_2015.csv"))
    ∧ (λ r : gmap string string * Result (option string),
         r.1 !! "cfs_2015.csv")
        <$> _csv_download net_whole (cfs_url 2015) "cfs_2015.csv" false ∅
      = Some (Some "year,beat;2015,521;2015,522;").
Proof.
  destruct (_csv_download_broken net_dropping (cfs_url 2015) "cfs_2015.csv"
              false ∅ 200 ["year,beat;"; "2015,"] eq_refl eq_refl)
    as (fs' & Hrun & Hfile & _ & Hnext); [by left|].
  exists fs'. split; [exact Hrun|]. split; [exact Hfile|].
  split; [apply Hnext|]. vm_compute. reflexivity.
Qed.

(** ** The validator's counter and its report *)

Section ValidatorFacts.

Lemma count_issues_snoc (report : list (Status * string))
    (line : Status * string) :
  count_issues (report ++ [line])
  = (count_issues report + if warn_or_fail line then 1 else 0)%nat.
Proof.
  unfold count_issues. rewrite List.filter_app, length_app. simpl.
  by destruct (warn_or_fail line).
Qed.

Lemma agree_ret {A} (a : A) : agree (mret a) 0.
Proof. intros s. simpl. lia. Qed.

Lemma agree_bind {A B} (m : V A) (f : A → V B) (k1 k2 : nat) :
  agree m k1 → (∀ a, agree (f a) k2) → agree (m ≫= f) (k1 + k2).
Proof.
  intros Hm Hf s. unfold mbind, V_bind.
  specialize (Hm s). destruct (m s) as [s1 a]. specialize (Hf a s1).
  simpl in *. lia.
Qed.

Lemma agree_eq {A} (m : V A) (k k' : nat) : agree m k → k = k' → agree m k'.
Proof. by intros H <-. Qed.

Lemma agree_seq {A B} (m : V A) (f : A → V B) :
  agree m 0 → (∀ a, agree (f a) 0) → agree (m ≫= f) 0.
Proof. intros Hm Hf. by apply (agree_bind m f 0 0). Qed.

Lemma agree_say (status : Status) (detail : string) :
  agree (say status detail) (if warn_or_fail (status, detail) then 1 else 0).
Proof.
  intros s. simpl. rewrite count_issues_snoc.
  destruct (warn_or_fail _); lia.
Qed.

Lemma agree_say_quiet (status : Status) (detail : string) :
  status = PASS ∨ status = INFO → agree (say status detail) 0.
Proof.
  intros [-> | ->];
    [exact (agree_say PASS detail) | exact (agree_say INFO detail)].
Qed.

(** A WARN or FAIL line together with [issues += 1], in either order. *)
Lemma agree_say_counted (status : Status) (detail : string) :
  status = WARN ∨ status = FAIL →
  agree (say status detail;; issues_incr) 0
  ∧ agree (issues_incr;; say status detail) 0.
Proof.
  intros Hst. split; intros s; simpl; rewrite count_issues_snoc;
    destruct Hst as [-> | ->]; simpl; lia.
Qed.

Lemma agree_for_ {A} (l : list A) (body : A → V unit) :
  (∀ x, agree (body x) 0) → agree (for_ l body) 0.
Proof.
  intros Hbody. induction l as [|x l IH]; simpl; [apply agree_ret|].
  apply agree_seq; [apply Hbody|intros _; apply IH].
Qed.

Lemma agree_when_exists {A} (file : option A) (body : A → V unit) :
  (∀ t, agree (body t) 0) → agree (when_exists file body) 0.
Proof. intros Hbody. destruct file; simpl; [apply Hbody|apply agree_ret]. Qed.

Ltac agree_step :=
  first
    [ apply agree_ret
    | apply agree_say_quiet; solve [auto]
    | apply (proj1 (agree_say_counted WARN _ (or_introl eq_refl)))
    | apply (proj1 (agree_say_counted FAIL _ (or_intror eq_refl)))
    | apply (proj2 (agree_say_counted WARN _ (or_introl eq_refl)))
    | apply (proj2 (agree_say_counted FAIL _ (or_intror eq_refl)))
    | apply agree_for_; intros
    | apply agree_when_exists; intros
    | apply agree_seq; [|intros] ].

Lemma agree_found_or_fail (f : string * bool) :
  agree (if f.2 then say PASS f.1
         else say FAIL (f.1 ++ ": NOT FOUND");; issues_incr) 0.
Proof. destruct f.2; agree_step. Qed.

Lemma agree_check_1 (p : ProcessedDir) : agree (check_1 p) 0.
Proof. apply agree_for_. intros f. apply agree_found_or_fail. Qed.

Lemma agree_check_2 crime : agree (check_2 crime) 0.
Proof. unfold check_2. destruct (_ && _); agree_step. Qed.

Lemma agree_check_3 Y crime : agree (check_3 Y crime) 0.
Proof. unfold check_3. destruct (date_range_ok _ _ _ _); agree_step. Qed.

Lemma agree_check_4 crime : agree (check_4 crime) 0.
Proof. unfold check_4. destruct (Qltb _ _); agree_step. Qed.

Lemma agree_check_5 crime : agree (check_5 crime) 0.
Proof.
  unfold check_5. apply agree_for_. intros col. unfold Qltb.
  destruct (Qle_bool 5 _); simpl.
  - agree_step.
  - apply agree_seq; [|intros]; agree_step.
Qed.

Lemma agree_check_6 E crime : agree (check_6 E crime) 0.
Proof. unfold check_6. apply agree_for_. intros row. agree_step. Qed.

Lemma agree_check_7 crime : agree (check_7 crime) 0.
Proof. unfold check_7. destruct (forallb _ _); agree_step. Qed.

Lemma agree_check_8 E crime : agree (check_8 E crime) 0.
Proof.
  unfold check_8. apply agree_for_. intros pc.
  destruct (Qltb 50 _); simpl.
  - agree_step.
  - apply agree_seq; [|intros]; agree_step.
Qed.

Lemma agree_check_9 crime : agree (check_9 crime) 0.
Proof. unfold check_9. destruct (_ =? _)%nat; agree_step. Qed.

(** Check 10 is the one place where a WARN is printed and [issues] stays:
    on a table of no rows the count is not true. *)
Lemma agree_check_10 arrests :
  agree (check_10 arrests) (if truthy (COUNT arrests) then 0 else 1).
Proof.
  unfold check_10. destruct (truthy (COUNT arrests)) eqn:Hcount; simpl;
    [rewrite Z.leb_antisym; destruct (40000 <? _); simpl|];
    intros s; unfold mbind, V_bind, say, issues_incr, mret, V_ret; simpl;
    rewrite !count_issues_snoc; simpl; lia.
Qed.

Lemma agree_check_11 arrests : agree (check_11 arrests) 0.
Proof. unfold check_11. agree_step. Qed.

Lemma agree_check_12 cfs : agree (check_12 cfs) 0.
Proof. unfold check_12. destruct (_ && _); agree_step. Qed.

Lemma agree_check_13 Y cfs : agree (check_13 Y cfs) 0.
Proof.
  unfold check_13. apply agree_seq; [|intros; agree_step].
  destruct (date_range_ok _ _ _ _); agree_step.
Qed.

Lemma agree_check_14 cfs : agree (check_14 cfs) 0.
Proof. unfold check_14. agree_step. Qed.

Lemma agree_check_15 a : agree (check_15 a) 0.
Proof. apply agree_for_. intros f. apply agree_found_or_fail. Qed.

End ValidatorFacts.

(** The counter and the report agree but for the arrests row-count check on
    an arrests table without rows. *)
Lemma validate_issue_count (E : Engine) (CURRENT_YEAR : Z) (d : Disk) :
  count_issues (validate E CURRENT_YEAR d).2
  = ((validate E CURRENT_YEAR d).1 + uncounted_warnings d)%nat.
Proof.
  assert (agree (validate_checks E CURRENT_YEAR d) (uncounted_warnings d))
    as Hagree.
  { unfold validate_checks.
    apply (agree_bind _ _ 0); [apply agree_check_1|intros].
    do 8 (apply (agree_bind _ _ 0);
          [apply agree_when_exists; intros;
           first [apply agree_check_2|apply agree_check_3|apply agree_check_4
                 |apply agree_check_5|apply agree_check_6|apply agree_check_7
                 |apply agree_check_8|apply agree_check_9]
          |intros]).
    eapply agree_eq.
    - apply (agree_bind _ _ (uncounted_warnings d) 0).
      + unfold uncounted_warnings.
        destruct (arrests_parquet (processed d)) as [arrests|]; simpl;
          [apply agree_check_10|apply agree_ret].
      + intros. do 4 (apply agree_seq;
           [apply agree_when_exists; intros;
            first [apply agree_check_11|apply agree_check_12
                  |apply agree_check_13|apply agree_check_14]
           |intros]).
        apply agree_check_15.
    - apply Nat.add_0_r. }
  specialize (Hagree {| issues := 0; report := [] |}). unfold validate.
  destruct (validate_checks E CURRENT_YEAR d {| issues := 0; report := [] |})
    as [s' u].
  cbn [fst snd] in *.
  change (count_issues (report {| issues := 0; report := [] |}))
    with 0%nat in Hagree.
  change (issues {| issues := 0; report := [] |}) with 0%nat in Hagree.
  lia.
Qed.

(** C9 fails on the code for one check.  On an arrests table without rows,
    check 10 prints WARN ([count and count > 40_000] is false) and leaves
    [issues] as it is ([count and count <= 40_000] is false too): the report
    then has one WARN or FAIL line more than the returned count. *)
Theorem validate_misses_empty_arrests_warning (E : Engine) (CURRENT_YEAR : Z)
    (d : Disk) :
  arrests_parquet (processed d) = Some [] →
  count_issues (validate E CURRENT_YEAR d).2
  = S (validate E CURRENT_YEAR d).1.
Proof.
  intros Hempty. rewrite validate_issue_count.
  unfold uncounted_warnings. rewrite Hempty. simpl. lia.
Qed.

Lemma validate_misses_empty_arrests_warning_witness :
  count_issues (validate ReferenceEngine.forward 2026 disk_of_empty_sources).2
  = S (validate ReferenceEngine.forward 2026 disk_of_empty_sources).1.
Proof.
  apply (validate_misses_empty_arrests_warning ReferenceEngine.forward 2026
           disk_of_empty_sources).
  reflexivity.
Defined.

Example validate_empty_sources_report :
  validate ReferenceEngine.forward 2026 disk_of_empty_sources
  = (5%nat,
     [(PASS, "crime"); (PASS, "arrests"); (PASS, "cfs");
      (WARN, "rows (expected >500K)");
      (WARN, "date range");
      (PASS, "outliers");
      (PASS, "incident_date"); (PASS, "agency_short");
      (PASS, "crime_against"); (PASS, "offense_group");
      (WARN, "categories (expected People, Property, Society)");
      (PASS, "No duplicates on (incidentuid, offense_description)");
      (WARN, "arrest records"); (INFO, "Offense types");
      (INFO, "arrests date range");
      (WARN, "calls (expected >3M)");
      (WARN, "date range"); (INFO, "Years present");
      (INFO, "distinct beats");
      (PASS, "crime_overview_monthly"); (PASS, "crime_by_type");
      (PASS, "crime_by_zip"); (PASS, "crime_by_agency");
      (PASS, "victim_demographics"); (PASS, "domestic_violence");
      (PASS, "temporal_patterns"); (PASS, "map_points");
      (PASS, "yearly_summary"); (PASS, "crime_by_city");
      (PASS, "arrests_by_type");
      (PASS, "cfs_monthly"); (PASS, "cfs_by_beat"); (PASS, "cfs_temporal")]).
Proof. vm_compute. reflexivity. Qed.

(** With at least one arrest row the counter is the number of WARN and FAIL
    lines. *)
Lemma validate_issue_count_exact (E : Engine) (CURRENT_YEAR : Z) (d : Disk) :
  arrests_parquet (processed d) ≠ Some [] →
  (validate E CURRENT_YEAR d).1
  = count_issues (validate E CURRENT_YEAR d).2.
Proof.
  intros Hne. rewrite validate_issue_count. unfold uncounted_warnings.
  destruct (arrests_parquet (processed d)) as [[|a arrests]|]; simpl;
    [done|lia|lia].
Qed.

(** * Further properties of the pipeline *)

(** ** Pagination *)

(** X1.  Against a server that pages through a fixed list of rows, the
    paginated fetch, given enough loop steps, writes the JSON of exactly
    those rows, once each and in order, under the artifact's name; a last
    page that is exactly full costs one more request, which comes back
    empty. *)
Theorem paginated_fetch_reassembles (net : Network) (steps : nat)
    (dataset_id out_path : string) (where_ : option string) (force : bool)
    (fs : gmap string string) (rows : list string) :
  serves net (SODA_BASE ++ "/" ++ dataset_id ++ ".json") (sent_where where_)
         rows →
  Z.of_nat (length rows) < Z.of_nat steps * SODA_PAGE_SIZE →
  not_cached_or_forced fs out_path force →
  _soda_fetch net steps dataset_id out_path where_ force fs
  = Some (<[out_path := json_dumps rows]> fs, Ok out_path).
Proof.
  intros Hserves Hsteps Hnc. unfold _soda_fetch.
  rewrite (not_cached_or_forced_test _ _ _ Hnc).
  fold (sent_where where_).
  pose proof (soda_pages_from _ _ _ _ Hserves steps 0%nat []) as Hpages.
  rewrite drop_0 in Hpages. change (Z.of_nat 0) with 0 in Hpages.
  by rewrite (Hpages Hsteps).
Qed.

Lemma paginated_fetch_reassembles_witness :
  _soda_fetch net_three_rows 1 GROUP_A_ID "cibrs_group_a.json" None false ∅
  = Some (<["cibrs_group_a.json" := json_dumps ["{a}"; "{b}"; "{c}"]]> ∅,
          Ok "cibrs_group_a.json").
Proof.
  apply (paginated_fetch_reassembles net_three_rows 1 GROUP_A_ID
           "cibrs_group_a.json" None false ∅ ["{a}"; "{b}"; "{c}"]).
  - intros offset. reflexivity.
  - unfold SODA_PAGE_SIZE. simpl. lia.
  - by left.
Defined.

(** ** The cache across runs of [ingest] *)

Section CacheFacts.
Implicit Types (net : Network) (fs : gmap string string).

Lemma I_bind_inv {A B} (m : I A) (k : A → I B) fs fs' (r : Result B) :
  (m ≫= k) fs = Some (fs', r) →
  (∃ fs1 a, m fs = Some (fs1, Ok a) ∧ k a fs1 = Some (fs', r))
  ∨ (∃ e, m fs = Some (fs', Raise e) ∧ r = Raise e).
Proof.
  unfold mbind, I_bind. destruct (m fs) as [[fs1 [a|e]]|]; [eauto| |done].
  intros [= <- <-]. eauto.
Qed.

Lemma download_years_downloads net (force : bool) (years : list Z)
    (paths : list string) fs :
  download_years net force years paths fs
  = downloads net force (year_job <$> years) paths fs.
Proof.
  revert paths fs. induction years as [|y years IH]; intros paths fs; [done|].
  csimpl. unfold mbind, I_bind.
  destruct (_csv_download _ _ _ _ _) as [[fs1 [p|e]]|]; [apply IH|done|done].
Qed.

Lemma download_refs_downloads net (force : bool)
    (files : list (string * string)) (paths : list string) fs :
  download_refs net force files paths fs
  = downloads net force (ref_job <$> files) paths fs.
Proof.
  revert paths fs. induction files as [|[remote local_name] files IH];
    intros paths fs; [done|].
  csimpl. unfold mbind, I_bind.
  destruct (_csv_download _ _ _ _ _) as [[fs1 [p|e]]|]; [apply IH|done|done].
Qed.

Lemma write_chunks_cached (out_path q : string) (chunks : list string) fs :
  cached fs q → cached (write_chunks out_path chunks fs) q.
Proof.
  unfold cached. intros Hq. destruct (decide (q = out_path)) as [->|Hne].
  - by rewrite write_chunks_content.
  - by rewrite write_chunks_other.
Qed.

Lemma write_chunks_subseteq (out_path : string) (chunks : list string) fs :
  fs !! out_path = None → fs ⊆ write_chunks out_path chunks fs.
Proof.
  intros Hnone. apply map_subseteq_spec. intros q v Hq.
  rewrite write_chunks_other; [done|]. intros ->. congruence.
Qed.

Lemma cache_test_false fs (out_path : string) :
  bool_decide (is_Some (fs !! out_path)) && negb false = false →
  fs !! out_path = None.
Proof.
  rewrite andb_true_r. intros H%bool_decide_eq_false.
  by apply eq_None_not_Some.
Qed.

(** What one stream download does to the cache, whatever its outcome. *)
Lemma _csv_download_keeps net (url out_path : string) (force : bool) fs fs'
    (r : Result (option string)) :
  _csv_download net url out_path force fs = Some (fs', r) →
  (∀ q, cached fs q → cached fs' q)
  ∧ (force = false → fs ⊆ fs')
  ∧ (r = Ok (Some out_path) → cached fs' out_path)
  ∧ (r = Ok None → fs' = fs ∧ (force = false → fs !! out_path = None)).
Proof.
  unfold _csv_download.
  destruct (bool_decide (is_Some (fs !! out_path)) && negb force) eqn:Htest.
  { intros [= <- <-]. repeat split; try done.
    intros _. apply andb_true_iff in Htest as [Hc _].
    by apply bool_decide_eq_true in Hc. }
  destruct (stream_get net url) as [|status chunks broken].
  { intros [= <- <-]. done. }
  destruct (is_success status).
  - assert (fs' = write_chunks out_path chunks fs → r ≠ Ok None →
            (∀ q, cached fs q → cached fs' q)
            ∧ (force = false → fs ⊆ fs')
            ∧ (r = Ok (Some out_path) → cached fs' out_path)
            ∧ (r = Ok None
               → fs' = fs ∧ (force = false → fs !! out_path = None))) as Hw.
    { intros -> Hr. split; [intros q; apply write_chunks_cached|].
      split; [intros ->; by apply write_chunks_subseteq, cache_test_false|].
      split; [intros _; unfold cached; by rewrite write_chunks_content|done]. }
    destruct broken; intros [= <- <-]; by apply Hw.
  - destruct (status =? 403); intros [= <- <-]; [|done].
    repeat split; try done. intros ->. by apply cache_test_false.
Qed.

Lemma _soda_fetch_keeps net (steps : nat) (dataset_id out_path : string)
    (where_ : option string) (force : bool) fs fs' (r : Result string) :
  _soda_fetch net steps dataset_id out_path where_ force fs = Some (fs', r) →
  (∀ q, cached fs q → cached fs' q)
  ∧ (force = false → fs ⊆ fs')
  ∧ (∀ p, r = Ok p → p = out_path ∧ cached fs' out_path).
Proof.
  unfold _soda_fetch.
  destruct (bool_decide (is_Some (fs !! out_path)) && negb force) eqn:Htest.
  { intros [= <- <-]. split; [done|]. split; [done|].
    intros p [= <-]. split; [done|].
    apply andb_true_iff in Htest as [Hc _].
    by apply bool_decide_eq_true in Hc. }
  destruct (soda_pages _ _ _ _ _ _) as [[rows|e]|]; [| |done].
  - intros [= <- <-]. split.
    { intros q Hq. unfold cached.
      destruct (decide (q = out_path)) as [->|Hne].
      - by rewrite lookup_insert_eq.
      - by rewrite lookup_insert_ne. }
    split; [intros ->; by apply insert_subseteq, cache_test_false|].
    intros p [= <-]. split; [done|]. unfold cached. by rewrite lookup_insert_eq.
  - intros [= <- <-]. done.
Qed.

(** A loop of downloads never drops a cache entry; without force it changes
    none. *)
Lemma downloads_keeps net (force : bool) (jobs : list (string * string)) :
  ∀ (paths : list string) fs fs' (r : Result (list string)),
    downloads net force jobs paths fs = Some (fs', r) →
    (∀ q, cached fs q → cached fs' q) ∧ (force = false → fs ⊆ fs').
Proof.
  induction jobs as [|[url out] jobs IH]; intros paths fs fs' r Hrun.
  { injection Hrun as <- <-. done. }
  simpl in Hrun. apply I_bind_inv in Hrun as [(fs1 & p & Hdl & Hrest)|(e & Hdl & _)].
  - apply _csv_download_keeps in Hdl as (Hc & Hsub & _).
    apply IH in Hrest as [Hc' Hsub'].
    split; [intros q Hq; by apply Hc', Hc|].
    intros Hf. etrans; [by apply Hsub|by apply Hsub'].
  - apply _csv_download_keeps in Hdl as (Hc & Hsub & _). done.
Qed.

(** A loop of downloads touches only the files of its jobs. *)
Lemma downloads_other net (force : bool) (q : string)
    (jobs : list (string * string)) :
  q ∉ jobs.*2 →
  ∀ (paths : list string) fs fs' (r : Result (list string)),
    downloads net force jobs paths fs = Some (fs', r) → fs' !! q = fs !! q.
Proof.
  induction jobs as [|[url out] jobs IH]; intros Hq paths fs fs' r Hrun.
  { by injection Hrun as <- <-. }
  csimpl in Hq. apply not_elem_of_cons in Hq as [Hne Hq].
  simpl in Hrun.
  assert (∀ fs1 r1, _csv_download net url out force fs = Some (fs1, r1) →
            fs1 !! q = fs !! q) as Hstep.
  { unfold _csv_download. intros fs1 r1.
    destruct (_ && _); [by intros [= <- <-]|].
    destruct (stream_get net url) as [|status chunks broken];
      [by intros [= <- <-]|].
    destruct (is_success status).
    - destruct broken; intros [= <- <-]; by apply write_chunks_other.
    - destruct (status =? 403); by intros [= <- <-]. }
  apply I_bind_inv in Hrun as [(fs1 & p & Hdl & Hrest)|(e & Hdl & _)].
  - rewrite (IH Hq _ _ _ _ Hrest). by eapply Hstep.
  - by eapply Hstep.
Qed.

(** The paths a loop of downloads returns. *)
Lemma downloads_paths net (force : bool) (jobs : list (string * string)) :
  ∀ (paths : list string) fs fs' (paths' : list string),
    downloads net force jobs paths fs = Some (fs', Ok paths') →
    ∃ new, paths' = (paths ++ new)%list
           ∧ new `sublist_of` jobs.*2
           ∧ (∀ p, p ∈ new → cached fs' p)
           ∧ (force = false → NoDup jobs.*2 →
              new = filter (cached fs') jobs.*2).
Proof.
  induction jobs as [|[url out] jobs IH]; intros paths fs fs' paths' Hrun.
  { injection Hrun as <- <-. exists []. rewrite app_nil_r.
    repeat split; try done. intros p Hp. by apply elem_of_nil in Hp. }
  simpl in Hrun. apply I_bind_Ok in Hrun as (fs1 & p & Hdl & Hrest).
  pose proof (_csv_download_Ok _ _ _ _ _ _ _ Hdl) as [_ Hp].
  apply _csv_download_keeps in Hdl as (_ & _ & Hsome & Hnone).
  pose proof (downloads_keeps _ _ _ _ _ _ _ Hrest) as [Hkeep _].
  pose proof Hrest as Hother.
  apply IH in Hrest as (new & -> & Hsub & Hcached & Hfilter).
  destruct Hp as [->| ->].
  - exists new. split; [done|]. split; [by apply sublist_cons|].
    split; [done|]. intros Hf Hnd. csimpl in Hnd.
    apply NoDup_cons in Hnd as [Hout Hnd]. csimpl.
    rewrite filter_cons_False; [by apply Hfilter|].
    unfold cached. rewrite (downloads_other _ _ _ _ Hout _ _ _ _ Hother).
    destruct (Hnone eq_refl) as [-> Hmiss]. rewrite (Hmiss Hf).
    by intros [? ?].
  - exists (out :: new). split; [by rewrite <- app_assoc|].
    split; [by apply sublist_skip|]. split.
    + intros p [->|Hp]%elem_of_cons; [|by apply Hcached].
      apply Hkeep. by apply Hsome.
    + intros Hf Hnd. csimpl in Hnd. apply NoDup_cons in Hnd as [Hout Hnd].
      csimpl. rewrite filter_cons_True by (apply Hkeep; by apply Hsome).
      f_equal. by apply Hfilter.
Qed.

(** A loop whose files are all cached asks nothing of the network. *)
Lemma downloads_cached net (jobs : list (string * string)) fs :
  (∀ p, p ∈ jobs.*2 → cached fs p) →
  ∀ paths : list string,
    downloads net false jobs paths fs = Some (fs, Ok (paths ++ jobs.*2)%list).
Proof.
  induction jobs as [|[url out] jobs IH]; intros Hall paths.
  { simpl. by rewrite app_nil_r. }
  simpl. unfold mbind, I_bind, _csv_download.
  rewrite bool_decide_eq_true_2 by (apply Hall; left). simpl.
  rewrite IH by (intros p Hp; apply Hall; by right).
  by rewrite <- app_assoc.
Qed.

Lemma _soda_fetch_cached net (steps : nat) (dataset_id out_path : string)
    (where_ : option string) fs :
  cached fs out_path →
  _soda_fetch net steps dataset_id out_path where_ false fs
  = Some (fs, Ok out_path).
Proof.
  intros Hc. unfold _soda_fetch. by rewrite bool_decide_eq_true_2.
Qed.

(** One download, run again on a cache that has its file exactly when the
    first run left it there, does what the first run did and writes
    nothing. *)
Lemma _csv_download_again net (url out_path : string) fs fs1 fs2
    (p : option string) :
  _csv_download net url out_path false fs = Some (fs1, Ok p) →
  (cached fs2 out_path ↔ cached fs1 out_path) →
  _csv_download net url out_path false fs2 = Some (fs2, Ok p).
Proof.
  intros Hrun Hiff.
  pose proof (_csv_download_Ok _ _ _ _ _ _ _ Hrun) as [_ [->| ->]].
  - pose proof (_csv_download_keeps _ _ _ _ _ _ _ Hrun) as (_ & _ & _ & Hnone).
    destruct (Hnone eq_refl) as [-> Hmiss]. specialize (Hmiss eq_refl).
    assert (fs2 !! out_path = None) as Hmiss2.
    { apply eq_None_not_Some. intros Hc%Hiff. unfold cached in Hc.
      rewrite Hmiss in Hc. by destruct Hc. }
    revert Hrun. unfold _csv_download. rewrite Hmiss, Hmiss2. simpl.
    destruct (stream_get net url) as [|status chunks broken]; [done|].
    destruct (is_success status); [by destruct broken|].
    destruct (status =? 403); [done|done].
  - pose proof (_csv_download_keeps _ _ _ _ _ _ _ Hrun) as (_ & _ & Hsome & _).
    unfold _csv_download.
    rewrite bool_decide_eq_true_2 by (apply Hiff; by apply Hsome). done.
Qed.

Lemma downloads_again net (jobs : list (string * string)) :
  NoDup jobs.*2 →
  ∀ (paths : list string) fs fs1 (new : list string),
    downloads net false jobs paths fs = Some (fs1, Ok (paths ++ new)%list) →
    ∀ fs2 (paths2 : list string),
      (∀ p, p ∈ jobs.*2 → cached fs2 p ↔ cached fs1 p) →
      downloads net false jobs paths2 fs2 = Some (fs2, Ok (paths2 ++ new)%list).
Proof.
  induction jobs as [|[url out] jobs IH];
    intros Hnd paths fs fs1 new Hrun fs2 paths2 Hiff.
  { injection Hrun as <- Hnew. 
    assert (new = []) as -> by (by apply (app_inv_head paths); rewrite app_nil_r).
    simpl. by rewrite app_nil_r. }
  csimpl in Hnd. apply NoDup_cons in Hnd as [Hout Hnd].
  simpl in Hrun. apply I_bind_Ok in Hrun as (fs' & p & Hdl & Hrest).
  simpl. unfold mbind at 1, I_bind at 1.
  rewrite (_csv_download_again _ _ _ _ _ fs2 _ Hdl).
  - destruct (downloads_paths _ _ _ _ _ _ _ Hrest) as (new' & Hnew & _).
    destruct p as [p|].
    + rewrite <- app_assoc in Hnew. apply app_inv_head in Hnew as ->.
      rewrite (app_assoc paths) in Hrest.
      rewrite (IH Hnd _ _ _ _ Hrest fs2 (paths2 ++ [p])%list).
      * by rewrite <- app_assoc.
      * intros q Hq. apply Hiff. by right.
    + apply (IH Hnd _ _ _ _ Hrest). intros q Hq. apply Hiff. by right.
  - rewrite (Hiff out) by left. unfold cached.
    by rewrite (downloads_other _ _ _ _ Hout _ _ _ _ Hrest).
Qed.


Lemma filter_ext_in {A} (P Q : A → Prop) `{!∀ x, Decision (P x)}
    `{!∀ x, Decision (Q x)} (l : list A) :
  (∀ x, x ∈ l → P x ↔ Q x) → filter P l = filter Q l.
Proof.
  induction l as [|x l IH]; intros Hl; [done|].
  rewrite !filter_cons, IH by (intros y Hy; apply Hl; by right).
  pose proof (Hl x (list_elem_of_here _ _)) as Hx.
  destruct (decide (P x)) as [HP|HP], (decide (Q x)) as [HQ|HQ]; try done;
    exfalso; tauto.
Qed.

Lemma year_jobs_out (years : list Z) : (year_job <$> years).*2 = cfs_out <$> years.
Proof. rewrite <- list_fmap_compose. done. Qed.

Lemma ref_jobs_out (files : list (string * string)) :
  (ref_job <$> files).*2 = files.*2.
Proof. rewrite <- list_fmap_compose. done. Qed.

Lemma cfs_out_not_ref (year : Z) : cfs_out year ∉ CFS_REF_FILES.*2.
Proof.
  destruct (cfs_out_shape year) as [rest ->]. simpl.
  rewrite !not_elem_of_cons. repeat split; try discriminate.
  apply not_elem_of_nil.
Qed.

Lemma NoDup_year_outs (CURRENT_YEAR : Z) :
  NoDup (cfs_out <$> CFS_YEARS CURRENT_YEAR).
Proof.
  apply NoDup_fmap_2; [intros a b; apply cfs_out_inj|apply NoDup_seqZ].
Qed.

Lemma NoDup_year_jobs (CURRENT_YEAR : Z) :
  NoDup (year_job <$> CFS_YEARS CURRENT_YEAR).*2.
Proof. rewrite year_jobs_out. apply NoDup_year_outs. Qed.

Lemma NoDup_ref_jobs : NoDup (ref_job <$> CFS_REF_FILES).*2.
Proof.
  rewrite ref_jobs_out. simpl.
  repeat constructor; rewrite ?not_elem_of_cons;
    repeat split; try discriminate; apply not_elem_of_nil.
Qed.

End CacheFacts.

(** X2.  When every artifact that [ingest] asks for is already in the cache
    and no refresh is forced, the run makes no request at all: whatever the
    network would answer, and even with no page request allowed, it returns
    all the artifact paths in the order of its steps and leaves the cache as
    it was. *)
Theorem ingest_fully_cached_is_offline (net : Network) (steps : nat)
    (CURRENT_YEAR : Z) (fs : gmap string string) :
  Forall (cached fs) (expected_artifacts CURRENT_YEAR) →
  ingest net steps CURRENT_YEAR false fs
  = Some (fs, Ok (expected_artifacts CURRENT_YEAR)).
Proof.
  rewrite Forall_forall. intros Hall.
  assert (∀ p, p ∈ expected_artifacts CURRENT_YEAR → cached fs p) as Hin
    by (intros p Hp; by apply Hall).
  unfold expected_artifacts in Hin.
  unfold ingest, mbind at 1, I_bind at 1.
  rewrite _soda_fetch_cached by (apply Hin; set_solver).
  unfold mbind at 1, I_bind at 1.
  rewrite _soda_fetch_cached by (apply Hin; set_solver).
  unfold mbind at 1, I_bind at 1.
  rewrite download_years_downloads, downloads_cached.
  - rewrite download_refs_downloads, downloads_cached.
    + rewrite year_jobs_out, ref_jobs_out. unfold expected_artifacts.
      by rewrite <- !app_assoc.
    + rewrite ref_jobs_out. intros p Hp. apply Hin.
      rewrite !elem_of_app. auto.
  - rewrite year_jobs_out. intros p Hp. apply Hin.
    rewrite !elem_of_app. auto.
Qed.

Lemma ingest_fully_cached_is_offline_witness :
  ingest net_dropping 0 2015 false cache_2015
  = Some (cache_2015,
          Ok ["cibrs_group_a.json"; "cibrs_group_b.json"; "cfs_2015.csv";
              "call_type_desc.csv"; "dispo_code_desc.csv"]).
Proof.
  apply (ingest_fully_cached_is_offline net_dropping 0 2015 cache_2015).
  refine (bool_decide_unpack (Forall (cached cache_2015) (expected_artifacts 2015)) _).
  vm_compute. constructor.
Defined.

(** X3.  [ingest] never removes a file from the cache, whether it returns or
    raises; without a forced refresh it also never changes a file that is
    there: the cache it leaves extends the cache it found. *)
Theorem ingest_keeps_the_cache (net : Network) (steps : nat)
    (CURRENT_YEAR : Z) (force : bool) (fs fs' : gmap string string)
    (r : Result (list string)) :
  ingest net steps CURRENT_YEAR force fs = Some (fs', r) →
  (∀ q, cached fs q → cached fs' q) ∧ (force = false → fs ⊆ fs').
Proof.
  intros Hrun. unfold ingest in Hrun.
  apply I_bind_inv in Hrun as [(fs1 & p1 & Hsoda1 & Hrun)|(e & Hsoda1 & _)];
    [|by apply _soda_fetch_keeps in Hsoda1 as (? & ? & _)].
  apply _soda_fetch_keeps in Hsoda1 as (Hc1 & Hs1 & _).
  assert (∀ fs2 (r2 : Result (list string)),
            ((∀ q, cached fs1 q → cached fs2 q) ∧ (force = false → fs1 ⊆ fs2)) →
            (∀ q, cached fs q → cached fs2 q) ∧ (force = false → fs ⊆ fs2))
    as Hfrom1.
  { intros fs2 _ [Hc Hs]. split; [intros q Hq; by apply Hc, Hc1|].
    intros Hf. etrans; [by apply Hs1|by apply Hs]. }
  apply (Hfrom1 fs' r). clear Hfrom1 Hc1 Hs1.
  apply I_bind_inv in Hrun as [(fs2 & p2 & Hsoda2 & Hrun)|(e & Hsoda2 & _)];
    [|by apply _soda_fetch_keeps in Hsoda2 as (? & ? & _)].
  apply _soda_fetch_keeps in Hsoda2 as (Hc2 & Hs2 & _).
  assert (∀ fs3,
            ((∀ q, cached fs2 q → cached fs3 q) ∧ (force = false → fs2 ⊆ fs3)) →
            (∀ q, cached fs1 q → cached fs3 q) ∧ (force = false → fs1 ⊆ fs3))
    as Hfrom2.
  { intros fs3 [Hc Hs]. split; [intros q Hq; by apply Hc, Hc2|].
    intros Hf. etrans; [by apply Hs2|by apply Hs]. }
  apply Hfrom2. clear Hfrom2 Hc2 Hs2.
  apply I_bind_inv in Hrun as [(fs3 & paths & Hyears & Hrefs)|(e & Hyears & _)].
  - rewrite download_years_downloads in Hyears.
    rewrite download_refs_downloads in Hrefs.
    apply downloads_keeps in Hyears as [Hc3 Hs3].
    apply downloads_keeps in Hrefs as [Hc4 Hs4].
    split; [intros q Hq; by apply Hc4, Hc3|].
    intros Hf. etrans; [by apply Hs3|by apply Hs4].
  - rewrite download_years_downloads in Hyears.
    by apply downloads_keeps in Hyears.
Qed.

Lemma ingest_keeps_the_cache_witness :
  ∃ fs' r,
    ingest net_2016_unpublished 1 2016 false cache_2015 = Some (fs', r)
    ∧ (∀ q, cached cache_2015 q → cached fs' q)
    ∧ (false = false → cache_2015 ⊆ fs').
Proof.
  assert (from_option (λ _, true) false
            (ingest net_2016_unpublished 1 2016 false cache_2015) = true)
    as Hruns by (vm_compute; reflexivity).
  revert Hruns.
  destruct (ingest net_2016_unpublished 1 2016 false cache_2015)
    as [[fs' r]|] eqn:Hrun; intros Hruns; [|discriminate Hruns].
  exists fs', r. split; [reflexivity|].
  exact (ingest_keeps_the_cache net_2016_unpublished 1 2016 false cache_2015
           fs' r Hrun).
Defined.

(** X4.  The paths that [ingest] returns begin with the two CIBRS artifacts,
    follow the order of its steps, and each names a file that is in the
    cache afterwards.  Without a forced refresh they are exactly the expected
    artifacts that the cache then holds: a year is left out only when its
    file is not there. *)
Theorem ingest_returns_cached_artifacts (net : Network) (steps : nat)
    (CURRENT_YEAR : Z) (force : bool) (fs fs' : gmap string string)
    (paths : list string) :
  ingest net steps CURRENT_YEAR force fs = Some (fs', Ok paths) →
  ["cibrs_group_a.json"; "cibrs_group_b.json"] `prefix_of` paths
  ∧ paths `sublist_of` expected_artifacts CURRENT_YEAR
  ∧ (∀ p, p ∈ paths → cached fs' p)
  ∧ (force = false
     → paths = filter (cached fs') (expected_artifacts CURRENT_YEAR)).
Proof.
  intros Hrun. unfold ingest in Hrun.
  apply I_bind_Ok in Hrun as (fs1 & p1 & Hsoda1 & Hrun).
  apply I_bind_Ok in Hrun as (fs2 & p2 & Hsoda2 & Hrun).
  apply I_bind_Ok in Hrun as (fs3 & paths3 & Hyears & Hrefs).
  rewrite download_years_downloads in Hyears.
  rewrite download_refs_downloads in Hrefs.
  apply _soda_fetch_keeps in Hsoda1 as (_ & _ & Hp1).
  apply _soda_fetch_keeps in Hsoda2 as (Hc2 & _ & Hp2).
  destruct (Hp1 p1 eq_refl) as [-> Ha], (Hp2 p2 eq_refl) as [-> Hb].
  clear Hp1 Hp2. apply Hc2 in Ha. clear Hc2.
  pose proof (downloads_keeps _ _ _ _ _ _ _ Hyears) as [Hc3 _].
  pose proof (downloads_keeps _ _ _ _ _ _ _ Hrefs) as [Hc4 _].
  assert (∀ y, fs' !! cfs_out y = fs3 !! cfs_out y) as Hsame.
  { intros y. eapply downloads_other; [|exact Hrefs].
    rewrite ref_jobs_out. apply cfs_out_not_ref. }
  apply downloads_paths in Hyears as (new3 & -> & Hsub3 & Hin3 & Hf3).
  apply downloads_paths in Hrefs as (new4 & -> & Hsub4 & Hin4 & Hf4).
  rewrite year_jobs_out in Hsub3, Hf3. rewrite ref_jobs_out in Hsub4, Hf4.
  split; [exists (new3 ++ new4)%list; by rewrite <- app_assoc|]. split.
  { unfold expected_artifacts. rewrite <- app_assoc.
    apply sublist_app; [done|]. by apply sublist_app. }
  split.
  { intros p [Hp|Hp]%elem_of_app; [apply Hc4|by apply Hin4].
    apply elem_of_app in Hp as [Hp|Hp]; [apply Hc3|by apply Hin3].
    apply elem_of_cons in Hp as [->|Hp]; [done|].
    apply list_elem_of_singleton in Hp as ->. done. }
  intros Hforce. unfold expected_artifacts.
  rewrite !filter_app, <- app_assoc. f_equal; [|f_equal].
  - simpl. by rewrite !filter_cons_True by (by apply Hc4, Hc3).
  - rewrite (Hf3 Hforce (NoDup_year_outs _)).
    apply filter_ext_in. intros p Hp.
    apply list_elem_of_fmap in Hp as (y & -> & _).
    unfold cached. by rewrite Hsame.
  - apply Hf4; [done|]. simpl. repeat constructor; rewrite ?not_elem_of_cons;
      repeat split; try discriminate; apply not_elem_of_nil.
Qed.

Lemma ingest_returns_cached_artifacts_witness :
  ∃ fs' paths,
    ingest net_2016_unpublished 1 2016 false ∅ = Some (fs', Ok paths)
    ∧ ["cibrs_group_a.json"; "cibrs_group_b.json"] `prefix_of` paths
    ∧ paths `sublist_of` expected_artifacts 2016
    ∧ (∀ p, p ∈ paths → cached fs' p)
    ∧ (false = false → paths = filter (cached fs') (expected_artifacts 2016)).
Proof.
  assert (from_option
            (λ x : gmap string string * Result (list string),
               match x.2 with Ok _ => true | Raise _ => false end) false
            (ingest net_2016_unpublished 1 2016 false ∅) = true)
    as Hreturns by (vm_compute; reflexivity).
  revert Hreturns.
  destruct (ingest net_2016_unpublished 1 2016 false ∅)
    as [[fs' [paths|e]]|] eqn:Hrun; intros Hreturns;
    [|discriminate Hreturns..].
  exists fs', paths. split; [reflexivity|].
  exact (ingest_returns_cached_artifacts net_2016_unpublished 1 2016 false ∅
           fs' paths Hrun).
Defined.

(** X5.  Running [ingest] again without a forced refresh, after a run that
    returned and against a server that answers as before, returns the same
    paths and writes nothing, however many page requests it is allowed: the
    files that are there are taken from the cache, and a year that was not
    published is asked for and refused again. *)
Theorem ingest_rerun_is_stable (net : Network) (steps : nat)
    (CURRENT_YEAR : Z) (fs fs' : gmap string string) (paths : list string) :
  ingest net steps CURRENT_YEAR false fs = Some (fs', Ok paths) →
  ∀ steps', ingest net steps' CURRENT_YEAR false fs' = Some (fs', Ok paths).
Proof.
  intros Hrun steps'. unfold ingest in Hrun.
  apply I_bind_Ok in Hrun as (fs1 & p1 & Hsoda1 & Hrun).
  apply I_bind_Ok in Hrun as (fs2 & p2 & Hsoda2 & Hrun).
  apply I_bind_Ok in Hrun as (fs3 & paths3 & Hyears & Hrefs).
  rewrite download_years_downloads in Hyears.
  rewrite download_refs_downloads in Hrefs.
  apply _soda_fetch_keeps in Hsoda1 as (_ & _ & Hp1).
  apply _soda_fetch_keeps in Hsoda2 as (Hc2 & _ & Hp2).
  destruct (Hp1 p1 eq_refl) as [-> Ha], (Hp2 p2 eq_refl) as [-> Hb].
  clear Hp1 Hp2. apply Hc2 in Ha. clear Hc2.
  pose proof (downloads_keeps _ _ _ _ _ _ _ Hyears) as [Hc3 _].
  pose proof (downloads_keeps _ _ _ _ _ _ _ Hrefs) as [Hc4 _].
  assert (∀ y, fs' !! cfs_out y = fs3 !! cfs_out y) as Hsame.
  { intros y. eapply downloads_other; [|exact Hrefs].
    rewrite ref_jobs_out. apply cfs_out_not_ref. }
  destruct (downloads_paths _ _ _ _ _ _ _ Hyears) as (new3 & -> & _).
  destruct (downloads_paths _ _ _ _ _ _ _ Hrefs) as (new4 & -> & _).
  unfold ingest, mbind at 1, I_bind at 1.
  rewrite _soda_fetch_cached by (by apply Hc4, Hc3).
  unfold mbind at 1, I_bind at 1.
  rewrite _soda_fetch_cached by (by apply Hc4, Hc3).
  unfold mbind at 1, I_bind at 1.
  rewrite download_years_downloads.
  rewrite (downloads_again _ _ (NoDup_year_jobs _) _ _ _ _ Hyears fs').
  - rewrite download_refs_downloads.
    by apply (downloads_again _ _ NoDup_ref_jobs _ _ _ _ Hrefs fs').
  - rewrite year_jobs_out. intros p Hp.
    apply list_elem_of_fmap in Hp as (y & -> & _).
    unfold cached. by rewrite Hsame.
Qed.

Lemma ingest_rerun_is_stable_witness :
  ∃ fs' paths,
    ingest net_2016_unpublished 1 2016 false ∅ = Some (fs', Ok paths)
    ∧ ingest net_2016_unpublished 0 2016 false fs' = Some (fs', Ok paths).
Proof.
  assert (from_option
            (λ x : gmap string string * Result (list string),
               match x.2 with Ok _ => true | Raise _ => false end) false
            (ingest net_2016_unpublished 1 2016 false ∅) = true)
    as Hreturns by (vm_compute; reflexivity).
  revert Hreturns.
  destruct (ingest net_2016_unpublished 1 2016 false ∅)
    as [[fs' [paths|e]]|] eqn:Hrun; intros Hreturns;
    [|discriminate Hreturns..].
  exists fs', paths. split; [reflexivity|].
  exact (ingest_rerun_is_stable net_2016_unpublished 1 2016 ∅ fs' paths Hrun 0%nat).
Defined.

(** ** Deduplication of rows that are already unique *)

Section UniqueKeys.
Context {R K : Type} `{EqDecision K}.
Context (E : Engine) (key : R → K) (ord : R → option Z).

Lemma filter_unique_key (rows : list R) (r : R) :
  NoDup (key <$> rows) → r ∈ rows → filter (λ r', key r' = key r) rows = [r].
Proof.
  induction rows as [|x rows IH]; intros Hnd Hr; [by apply elem_of_nil in Hr|].
  csimpl in Hnd. apply NoDup_cons in Hnd as [Hx Hnd].
  apply elem_of_cons in Hr as [->|Hr].
  - rewrite filter_cons_True by done. f_equal.
    apply filter_none. intros y Hy Hk. apply Hx.
    rewrite <- Hk. apply list_elem_of_fmap. by exists y.
  - rewrite filter_cons_False; [by apply IH|].
    intros Hk. apply Hx. rewrite Hk. apply list_elem_of_fmap. by exists r.
Qed.

Lemma remove_dups_NoDup (ks : list K) : NoDup ks → remove_dups ks = ks.
Proof.
  induction 1 as [|k ks Hk _ IH]; [done|].
  simpl. destruct (decide_rel elem_of k ks); [done|by rewrite IH].
Qed.

(** With one row per key every partition is a single row, and the window
    keeps them all. *)
Lemma first_rows_unique (rows : list R) :
  NoDup (key <$> rows) → first_rows E key ord rows = rows.
Proof.
  intros Hnd. rewrite first_rows_unfold, remove_dups_NoDup by done.
  assert (∀ l, l ⊆ rows →
            (key <$> l) ≫= (λ k, take 1 (sorted_partition E key ord rows k)) = l)
    as Hl; [|by apply Hl].
  induction l as [|r l IH]; intros Hsub; [done|].
  csimpl. rewrite IH by (intros y Hy; apply Hsub; by right).
  unfold sorted_partition.
  rewrite filter_unique_key by (done || apply Hsub; left).
  pose proof (ORDER_BY_perm E R (λ a b, DESC_NULLS_LAST (ord a) (ord b)) [r])
    as Hperm.
  apply Permutation_singleton_r in Hperm as ->. done.
Qed.

End UniqueKeys.

(** X6.  Deduplication drops nothing from sources that have no duplicate:
    when no two raw incidents share (incident id, offense description), the
    canonical crime table is the projection of every raw row, and when no
    two raw calls share the call id and no reference table is loaded, the
    canonical calls table is the projection of every raw call (both up to
    the order of the rows). *)
Theorem dedup_keeps_unique_rows (E : Engine) (raw_crime : list RawCrime.row)
    (raw_cfs : list RawCfs.row) :
  NoDup (crime_partition_key <$> raw_crime) →
  NoDup (RawCfs.INCIDENT_NUM <$> raw_cfs) →
  crime_table E raw_crime ≡ₚ crime_select E <$> raw_crime
  ∧ cfs_table E raw_cfs None None
    ≡ₚ (λ r, cfs_select E false false (r, None, None)) <$> raw_cfs.
Proof.
  intros Hcrime Hcfs. split.
  - by rewrite crime_table_first_rows, first_rows_unique.
  - rewrite cfs_table_first_rows, first_rows_unique.
    + unfold cfs_from. rewrite <- !list_fmap_compose. done.
    + unfold cfs_from. rewrite <- !list_fmap_compose. done.
Qed.

Lemma dedup_keeps_unique_rows_witness :
  crime_table ReferenceEngine.backward
    [raw_crime_row "X1" "Theft" "2024-03-01" "LA MESA";
     raw_crime_row "X1" "Assault" "2024-03-01" "LA MESA";
     raw_crime_row "X2" "Theft" "2024-01-01" "EL CAJON"]
  ≡ₚ crime_select ReferenceEngine.backward
       <$> [raw_crime_row "X1" "Theft" "2024-03-01" "LA MESA";
            raw_crime_row "X1" "Assault" "2024-03-01" "LA MESA";
            raw_crime_row "X2" "Theft" "2024-01-01" "EL CAJON"]
  ∧ cfs_table ReferenceEngine.backward [one_call] None None
    ≡ₚ (λ r, cfs_select ReferenceEngine.backward false false (r, None, None))
         <$> [one_call].
Proof.
  apply (dedup_keeps_unique_rows ReferenceEngine.backward
           [raw_crime_row "X1" "Theft" "2024-03-01" "LA MESA";
            raw_crime_row "X1" "Assault" "2024-03-01" "LA MESA";
            raw_crime_row "X2" "Theft" "2024-01-01" "EL CAJON"]
           [one_call]).
  - refine (bool_decide_unpack (NoDup _) _). vm_compute. constructor.
  - refine (bool_decide_unpack (NoDup _) _). vm_compute. constructor.
Defined.

(** ** The descriptions of calls *)

Lemma elem_of_LEFT_JOIN_Some {A B} (on : A → B → bool) (l : list A)
    (r : list B) (a : A) (b : B) :
  (a, Some b) ∈ LEFT_JOIN on l r → b ∈ r ∧ on a b = true.
Proof.
  unfold LEFT_JOIN. intros H.
  apply list_elem_of_bind in H as (a' & H & _).
  destruct (List.filter (on a') r) as [|m ms] eqn:Hm.
  - apply list_elem_of_singleton in H. done.
  - apply list_elem_of_fmap in H as (b' & [= <- <-] & Hb').
    rewrite <- Hm in Hb'. apply list_elem_of_In, filter_In in Hb' as [Hb' Hon].
    split; [by apply list_elem_of_In|done].
Qed.

Lemma elem_of_LEFT_JOIN_None {A B} (on : A → B → bool) (l : list A)
    (r : list B) (a : A) :
  (a, None) ∈ LEFT_JOIN on l r → ∀ b, b ∈ r → on a b = false.
Proof.
  unfold LEFT_JOIN. intros H b Hb.
  apply list_elem_of_bind in H as (a' & H & _).
  destruct (List.filter (on a') r) as [|m ms] eqn:Hm.
  - apply list_elem_of_singleton in H as [= <-].
    destruct (on a b) eqn:Hon; [|done].
    assert (In b (List.filter (on a) r)) as Hin
      by (apply filter_In; split; [by apply list_elem_of_In|done]).
    rewrite Hm in Hin. done.
  - apply list_elem_of_fmap in H as (b' & [=] & _).
Qed.

Lemma sql_eqb_true (x y : option string) :
  sql_eqb x y = true → is_Some x ∧ y = x.
Proof.
  destruct x as [a|], y as [b|]; simpl; try done.
  intros ->%String.eqb_eq. eauto.
Qed.

(** What the two joins attach to a call. *)
Lemma cfs_from_refs (raw_cfs : list RawCfs.row)
    (ref_call_type ref_dispo : option (list Ref.row)) (r : RawCfs.row)
    (ct dd : option Ref.row) :
  (r, ct, dd) ∈ cfs_from raw_cfs ref_call_type ref_dispo →
  match ct with
  | Some c => ∃ t, ref_call_type = Some t ∧ c ∈ t
                   ∧ sql_eqb (RawCfs.CALL_TYPE r) (Ref.CODE c) = true
  | None => unlisted ref_call_type (RawCfs.CALL_TYPE r)
  end
  ∧ match dd with
    | Some d => ∃ t, ref_dispo = Some t ∧ d ∈ t
                     ∧ sql_eqb (RawCfs.DISPOSITION r) (Ref.CODE d) = true
    | None => unlisted ref_dispo (RawCfs.DISPOSITION r)
    end.
Proof.
  unfold cfs_from. intros Hj.
  set (with_ct := match ref_call_type with
                  | Some t => LEFT_JOIN _ raw_cfs t
                  | None => _
                  end) in Hj.
  assert ((r, ct) ∈ with_ct →
          match ct with
          | Some c => ∃ t, ref_call_type = Some t ∧ c ∈ t
                           ∧ sql_eqb (RawCfs.CALL_TYPE r) (Ref.CODE c) = true
          | None => unlisted ref_call_type (RawCfs.CALL_TYPE r)
          end) as Hct.
  { subst with_ct. destruct ref_call_type as [t|].
    - destruct ct as [c|].
      + intros [? ?]%elem_of_LEFT_JOIN_Some. eauto.
      + intros Hnone t' c [= <-] Hc.
        by apply (elem_of_LEFT_JOIN_None _ _ _ _ Hnone).
    - intros (r' & [= -> ->] & _)%list_elem_of_fmap. by intros t c [=]. }
  destruct ref_dispo as [t|].
  - apply list_elem_of_fmap in Hj as ([[r' ct'] dd'] & [= -> -> ->] & Hp).
    simpl in *. destruct dd' as [d|].
    + pose proof (elem_of_LEFT_JOIN_Some _ _ _ _ _ Hp) as [Hd Hon].
      apply elem_of_LEFT_JOIN in Hp. split; [by apply Hct|]. eauto.
    + pose proof (elem_of_LEFT_JOIN_None _ _ _ _ Hp) as Hnone.
      apply elem_of_LEFT_JOIN in Hp. split; [by apply Hct|].
      intros t' d [= <-] Hd. by apply Hnone.
  - apply list_elem_of_fmap in Hj as ([r' ct'] & [= -> -> ->] & Hp).
    split; [by apply Hct|]. by intros t c [=].
Qed.

Lemma COALESCE_described (ref : option (list Ref.row)) (code : option string)
    (c : option Ref.row) :
  match c with
  | Some c => ∃ t, ref = Some t ∧ c ∈ t ∧ sql_eqb code (Ref.CODE c) = true
  | None => unlisted ref code
  end →
  let desc := if bool_decide (is_Some ref)
              then COALESCE (c ≫= Ref.DESCRIPTION) code else code in
  described_by ref code desc
  ∧ (is_Some code → is_Some desc)
  ∧ (unlisted ref code → desc = code).
Proof.
  intros Hc desc. subst desc. destruct ref as [t|]; simpl.
  2: { split; [by left|done]. }
  destruct c as [c|]; simpl; [|split; [by left|done]].
  destruct Hc as (t' & [= <-] & Hin & Heq).
  pose proof (sql_eqb_true _ _ Heq) as [Hsome Hcode].
  split; [|split].
  - destruct (Ref.DESCRIPTION c) as [d|] eqn:Hd; simpl; [|by left].
    right. exists t, c. rewrite Hd. eauto 10.
  - intros _. destruct (Ref.DESCRIPTION c); simpl; eauto.
  - intros Hun. rewrite (Hun t c eq_refl Hin) in Heq. done.
Qed.

(** X7.  In the canonical calls table the description of a call type is the
    call type code itself or the non-NULL description of a reference row
    with that code; it is never NULL when the code is not, and it is the
    code when the reference table is not loaded or has no row for it.  The
    same holds of the disposition and its description. *)
Theorem call_descriptions_fall_back_to_codes (E : Engine)
    (raw_cfs : list RawCfs.row)
    (ref_call_type ref_dispo : option (list Ref.row)) (o : Cfs.row) :
  o ∈ cfs_table E raw_cfs ref_call_type ref_dispo →
  (described_by ref_call_type (Cfs.call_type o) (Cfs.call_type_desc o)
   ∧ (is_Some (Cfs.call_type o) → is_Some (Cfs.call_type_desc o))
   ∧ (unlisted ref_call_type (Cfs.call_type o)
      → Cfs.call_type_desc o = Cfs.call_type o))
  ∧ (described_by ref_dispo (Cfs.disposition o) (Cfs.dispo_desc o)
     ∧ (is_Some (Cfs.disposition o) → is_Some (Cfs.dispo_desc o))
     ∧ (unlisted ref_dispo (Cfs.disposition o)
        → Cfs.dispo_desc o = Cfs.disposition o)).
Proof.
  rewrite cfs_table_first_rows. intros Ho.
  apply list_elem_of_fmap in Ho as ([[r ct] dd] & -> & Hj).
  apply first_rows_latest in Hj as [Hj _].
  apply cfs_from_refs in Hj as [Hct Hdd]. simpl. split.
  - by apply COALESCE_described.
  - by apply COALESCE_described.
Qed.

Lemma call_descriptions_fall_back_to_codes_witness :
  let o := cfs_select ReferenceEngine.forward true false
             (one_call, Some burglary, None) in
  (described_by (Some [burglary]) (Cfs.call_type o) (Cfs.call_type_desc o)
   ∧ (is_Some (Cfs.call_type o) → is_Some (Cfs.call_type_desc o))
   ∧ (unlisted (Some [burglary]) (Cfs.call_type o)
      → Cfs.call_type_desc o = Cfs.call_type o))
  ∧ (described_by None (Cfs.disposition o) (Cfs.dispo_desc o)
     ∧ (is_Some (Cfs.disposition o) → is_Some (Cfs.dispo_desc o))
     ∧ (unlisted None (Cfs.disposition o)
        → Cfs.dispo_desc o = Cfs.disposition o)).
Proof.
  apply (call_descriptions_fall_back_to_codes ReferenceEngine.forward
           [one_call] (Some [burglary]) None).
  vm_compute. constructor.
Defined.

(** ** What the transform stage reads and writes *)

Section RawFacts.

Lemma keeps_raw_ret {A} (a : A) : keeps_raw (mret a : M A).
Proof. intros w. done. Qed.

Lemma keeps_raw_bind {A B} (m : M A) (k : A → M B) :
  keeps_raw m → (∀ a, keeps_raw (k a)) → keeps_raw (m ≫= k).
Proof.
  intros Hm Hk w. unfold mbind, M_bind, bind.
  destruct (Hm w) as [Hraw Hout]. destruct (m w) as [w' [a|e]]; [|done].
  destruct (Hk a w') as [Hraw' Hout']. simpl in *.
  split; [congruence|by etrans].
Qed.

Lemma keeps_raw_print (line : string) : keeps_raw (print line).
Proof. intros w. split; [done|]. simpl. by apply prefix_app_r. Qed.

Lemma keeps_raw_get_disk : keeps_raw get_disk.
Proof. intros w. done. Qed.

Lemma keeps_raw_set_processed f : keeps_raw (set_processed f).
Proof. intros w. done. Qed.

Lemma keeps_raw_set_aggregated f : keeps_raw (set_aggregated f).
Proof. intros w. done. Qed.

Lemma keeps_raw_read_json {A} (name : string) (file : option A) :
  keeps_raw (read_json name file).
Proof. intros w. by destruct file. Qed.

End RawFacts.

Create HintDb keeps_raw.

#[local] Hint Resolve keeps_raw_ret keeps_raw_print keeps_raw_get_disk
  keeps_raw_set_processed keeps_raw_set_aggregated keeps_raw_read_json
  : keeps_raw.

Ltac keeps_raw :=
  repeat first
    [ apply keeps_raw_bind; [|intros ?]
    | apply keeps_raw_ret
    | solve [auto with keeps_raw]
    | match goal with
      | |- keeps_raw (match ?x with _ => _ end) => destruct x
      end ].

(** X8.  Whatever is on the disk and whether the stage returns or raises,
    [transform] leaves [data/raw] exactly as it found it, and what had been
    printed before stays, with the lines of this run after it. *)
Theorem transform_leaves_raw_untouched (E : Engine) (w : World) :
  raw (disk (transform E w).1) = raw (disk w)
  ∧ stdout w `prefix_of` stdout (transform E w).1.
Proof.
  revert w. change (keeps_raw (transform E)).
  unfold transform, _transform_crime, _transform_arrests, _transform_cfs,
    _load_cfs_reference_tables, _build_aggregations, export_view.
  keeps_raw.
Qed.

(** A run on complete sources, in full. *)
Lemma transform_complete (E : Engine) (w : World)
    (raw_crime : list RawCrime.row) (raw_arrests : list RawArrest.row) :
  cibrs_group_a_json (raw (disk w)) = Some raw_crime →
  cibrs_group_b_json (raw (disk w)) = Some raw_arrests →
  cfs_csv (raw (disk w)) ≠ [] →
  let C := crime_table E raw_crime in
  let A := arrests_table E raw_arrests in
  let F := cfs_table E (cfs_csv (raw (disk w)) ≫= snd)
             (call_type_desc_csv (raw (disk w)))
             (dispo_code_desc_csv (raw (disk w))) in
  (transform E w).2 = Ok tt
  ∧ disk (transform E w).1
    = {| raw := raw (disk w);
         processed := {| crime_parquet := Some C; arrests_parquet := Some A;
                         cfs_parquet := Some F |};
         aggregated :=
           write_cfs_views E F
             (write_arrests_views E A (write_crime_views E C no_aggregated)) |}.
Proof.
  intros Hcrime Harrests Hcfs C A F. subst C A F.
  unfold transform, _transform_crime, _transform_arrests, _transform_cfs,
    _load_cfs_reference_tables, _build_aggregations, export_view.
  unfold mbind, M_bind, bind, print, get_disk, read_json, raise, mret, M_ret,
    ret, set_processed, set_aggregated.
  simpl. rewrite Hcrime. simpl. rewrite Harrests. simpl.
  destruct (cfs_csv (raw (disk w))) as [|f fs] eqn:Hfiles; [done|]. simpl.
  destruct (call_type_desc_csv (raw (disk w))),
    (dispo_code_desc_csv (raw (disk w))); simpl; done.
Qed.

(** A run that returns has found both CIBRS artifacts. *)
Lemma transform_returns (E : Engine) (w : World) :
  (transform E w).2 = Ok tt →
  is_Some (cibrs_group_a_json (raw (disk w)))
  ∧ is_Some (cibrs_group_b_json (raw (disk w))).
Proof.
  unfold transform, _transform_crime, _transform_arrests.
  unfold mbind, M_bind, bind, print, get_disk, read_json, raise, mret, M_ret,
    ret, set_processed.
  simpl.
  destruct (cibrs_group_a_json (raw (disk w))) as [raw_crime|]; [|done].
  simpl.
  destruct (cibrs_group_b_json (raw (disk w))) as [raw_arrests|]; [|done].
  intros _. split; by eexists.
Qed.



(** ** The rows of the views *)

Section ViewFacts.
Context {R K : Type} `{EqDecision K}.

(** A row of a grouped view comes from a non-empty group of rows that pass
    the filter. *)
Lemma elem_of_view {Out} (key : R → K) (select : K → list R → Out)
    (P : R → Prop) `{!∀ r, Decision (P r)} (rows : list R) (x : Out) :
  x ∈ GROUP_BY key select (filter P rows) →
  ∃ r g, x = select (key r) g ∧ r ∈ g ∧ r ∈ rows ∧ P r
         ∧ g = filter (λ r', key r' = key r) (filter P rows).
Proof.
  intros Hx. apply elem_of_GROUP_BY in Hx as (k & Hk & ->).
  apply list_elem_of_fmap in Hk as (r & -> & Hr).
  pose proof Hr as [HP Hin]%list_elem_of_filter.
  exists r, (filter (λ r', key r' = key r) (filter P rows)).
  repeat split; try done. by apply list_elem_of_filter.
Qed.

Lemma COUNT_pos (g : list R) (r : R) : r ∈ g → (1 ≤ COUNT g)%nat.
Proof. destruct g; [by intros ?%elem_of_nil|]. unfold COUNT. simpl. lia. Qed.

Lemma SUM_CASE_le (flag : R → bool) (g : list R) :
  (SUM_CASE flag g ≤ COUNT g)%nat.
Proof.
  unfold SUM_CASE, COUNT. induction g as [|r g IH]; simpl; [done|].
  destruct (flag r); lia.
Qed.

End ViewFacts.

Ltac view_row H :=
  unfold Views.crime_overview_monthly, Views.crime_by_type, Views.crime_by_zip,
    Views.crime_by_agency, Views.victim_demographics, Views.domestic_violence,
    Views.temporal_patterns, Views.yearly_summary, Views.crime_by_city,
    Views.arrests_by_type, Views.cfs_monthly, Views.cfs_by_beat,
    Views.cfs_temporal in H;
  rewrite ?elem_of_ORDER_BY in H;
  apply elem_of_view in H as (?r & ?g & H & ?Hin & _ & ?HP & _);
  simplify_eq/=.

(** X10.  No view has a row for an empty group, and the columns that a
    view's [WHERE] requires are never NULL in it: every row of a grouped view
    counts at least one canonical row, the domestic-violence count of
    [crime_by_agency] is at most the row's count, and the filtered key
    columns are known. *)
Theorem view_rows_have_their_keys (E : Engine)
    (C : list Crime.row) (A : list Arrest.row) (F : list Cfs.row) :
  (∀ month_start agency_short crime_against n,
     (month_start, agency_short, crime_against, n)
       ∈ Views.crime_overview_monthly E C →
     is_Some month_start ∧ (1 ≤ n)%nat)
  ∧ (∀ offense_group offense_description crime_against year n,
       (offense_group, offense_description, crime_against, year, n)
         ∈ Views.crime_by_type E C →
       is_Some year ∧ (1 ≤ n)%nat)
  ∧ (∀ zip_code city year crime_against n,
       (zip_code, city, year, crime_against, n) ∈ Views.crime_by_zip E C →
       is_Some zip_code ∧ is_Some year ∧ (1 ≤ n)%nat)
  ∧ (∀ agency_short year crime_against n dv,
       (agency_short, year, crime_against, n, dv) ∈ Views.crime_by_agency E C →
       is_Some year ∧ (1 ≤ n)%nat ∧ (dv ≤ n)%nat)
  ∧ (∀ age victim_race victim_sex crime_against year n,
       (age, victim_race, victim_sex, crime_against, year, n)
         ∈ Views.victim_demographics E C →
       is_Some year ∧ (1 ≤ n)%nat)
  ∧ (∀ agency offense_group victim_sex year month_start n,
       (agency, offense_group, victim_sex, year, month_start, n)
         ∈ Views.domestic_violence E C →
       is_Some year ∧ (1 ≤ n)%nat)
  ∧ (∀ dow month year crime_against n,
       (dow, month, year, crime_against, n) ∈ Views.temporal_patterns C →
       is_Some year ∧ (1 ≤ n)%nat)
  ∧ (∀ row, row ∈ Views.yearly_summary E C →
       is_Some (Views.YearlySummary.year row)
       ∧ (1 ≤ Views.YearlySummary.total row)%nat)
  ∧ (∀ city year crime_against n,
       (city, year, crime_against, n) ∈ Views.crime_by_city E C →
       is_Some city ∧ is_Some year ∧ (1 ≤ n)%nat)
  ∧ (∀ offense_description agency_short year month_start n,
       (offense_description, agency_short, year, month_start, n)
         ∈ Views.arrests_by_type E A →
       is_Some year ∧ (1 ≤ n)%nat)
  ∧ (∀ month_start year call_type_desc priority n,
       (month_start, year, call_type_desc, priority, n)
         ∈ Views.cfs_monthly E F →
       is_Some month_start ∧ (1 ≤ n)%nat)
  ∧ (∀ beat year call_type_desc priority disposition n,
       (beat, year, call_type_desc, priority, disposition, n)
         ∈ Views.cfs_by_beat E F →
       is_Some beat ∧ is_Some year ∧ (1 ≤ n)%nat)
  ∧ (∀ dow hour priority n,
       (dow, hour, priority, n) ∈ Views.cfs_temporal F →
       is_Some dow ∧ is_Some hour ∧ (1 ≤ n)%nat).
Proof.
  repeat split; intros; 
    match goal with H : _ ∈ _ |- _ => view_row H end;
    try (by eapply COUNT_pos); try tauto; try apply SUM_CASE_le.
Qed.

Lemma ASC_NULLS_LAST_trans (a b c : option Z) :
  ASC_NULLS_LAST a b = true → ASC_NULLS_LAST b c = true →
  ASC_NULLS_LAST a c = true.
Proof. destruct a, b, c; simpl; try done. rewrite !Z.leb_le. lia. Qed.

Lemma ASC_NULLS_LAST_total (a b : option Z) :
  ASC_NULLS_LAST a b = true ∨ ASC_NULLS_LAST b a = true.
Proof. destruct a, b; simpl; auto. rewrite !Z.leb_le. lia. Qed.

(** Sorted by a column whose values are known and all different means
    strictly increasing. *)
Lemma sorted_distinct_increasing {A} (col : A → option Z) (l : list A) :
  StronglySorted (λ a b, ASC_NULLS_LAST (col a) (col b) = true) l →
  NoDup (col <$> l) → Forall (λ a, is_Some (col a)) l →
  StronglySorted (λ a b, ∃ x y, col a = Some x ∧ col b = Some y ∧ x < y) l.
Proof.
  induction 1 as [|a l Hl IH Ha]; intros Hnd Hsome; [constructor|].
  csimpl in Hnd. apply NoDup_cons in Hnd as [Hnotin Hnd].
  apply Forall_cons in Hsome as [[x Hx] Hsome].
  constructor; [by apply IH|].
  apply Forall_forall. intros b Hb.
  rewrite Forall_forall in Ha, Hsome.
  destruct (Hsome b Hb) as [y Hy]. specialize (Ha b Hb).
  exists x, y. split; [done|]. split; [done|].
  rewrite Hx, Hy in Ha. simpl in Ha. apply Z.leb_le in Ha.
  assert (x ≠ y); [|lia]. intros ->. apply Hnotin.
  rewrite Hx, <- Hy. apply list_elem_of_fmap. by exists b.
Qed.

Lemma yearly_summary_years (E : Engine) (C : list Crime.row) :
  Views.YearlySummary.year <$> Views.yearly_summary E C
  ≡ₚ remove_dups (Crime.year <$> filter (λ r, is_Some (Crime.year r)) C).
Proof.
  unfold Views.yearly_summary. rewrite (ORDER_BY_perm E).
  unfold GROUP_BY, PARTITION_BY. rewrite <- !list_fmap_compose.
  by rewrite list_fmap_id.
Qed.

(** X11.  The yearly summary has one row for each year that occurs in the
    canonical table and no other, and its rows come in strictly increasing
    order of year. *)
Theorem yearly_summary_one_row_per_year_ascending (E : Engine)
    (C : list Crime.row) :
  StronglySorted year_before (Views.yearly_summary E C)
  ∧ ∀ y, Some y ∈ Views.YearlySummary.year <$> Views.yearly_summary E C
         ↔ Some y ∈ Crime.year <$> C.
Proof.
  split.
  - apply (sorted_distinct_increasing Views.YearlySummary.year).
    + apply (ORDER_BY_sorted E).
      * intros x y z. apply ASC_NULLS_LAST_trans.
      * intros x y. apply ASC_NULLS_LAST_total.
    + rewrite yearly_summary_years. apply NoDup_remove_dups.
    + apply Forall_forall. intros row Hrow.
      unfold Views.yearly_summary in Hrow.
      rewrite elem_of_ORDER_BY in Hrow.
      apply elem_of_view in Hrow as (r & g & -> & _ & _ & HP & _). done.
  - intros y. rewrite yearly_summary_years, elem_of_remove_dups.
    rewrite !list_elem_of_fmap. split.
    + intros (r & Hy & [_ Hr]%list_elem_of_filter). eauto.
    + intros (r & Hy & Hr). exists r. split; [done|].
      apply list_elem_of_filter. split; [|done]. rewrite <- Hy. eauto.
Qed.

Lemma categories_le (g : list Crime.row) :
  (SUM_CASE (Views.crime_against_is "People") g
   + SUM_CASE (Views.crime_against_is "Property") g
   + SUM_CASE (Views.crime_against_is "Society") g ≤ COUNT g)%nat.
Proof.
  unfold SUM_CASE, COUNT, Views.crime_against_is.
  induction g as [|r g IH]; simpl; [done|].
  destruct (Crime.crime_against r) as [c|].
  - repeat case_bool_decide; simplify_eq; lia.
  - repeat case_bool_decide; simplify_eq; lia.
Qed.

(** X12.  In every row of the yearly summary the three category counts
    together are at most the total (a row of another or unknown category
    counts in the total only), and the domestic-violence and stolen-vehicle
    counts are each at most the total. *)
Theorem yearly_summary_parts_within_total (E : Engine) (C : list Crime.row)
    (row : Views.YearlySummary.row) :
  row ∈ Views.yearly_summary E C →
  (Views.YearlySummary.person_crimes row
   + Views.YearlySummary.property_crimes row
   + Views.YearlySummary.society_crimes row
   ≤ Views.YearlySummary.total row)%nat
  ∧ (Views.YearlySummary.dv_total row ≤ Views.YearlySummary.total row)%nat
  ∧ (Views.YearlySummary.stolen_vehicle_total row
     ≤ Views.YearlySummary.total row)%nat.
Proof.
  intros Hrow. unfold Views.yearly_summary in Hrow.
  rewrite elem_of_ORDER_BY in Hrow.
  apply elem_of_GROUP_BY in Hrow as (k & _ & ->). simpl.
  split; [apply categories_le|]. split; apply SUM_CASE_le.
Qed.

Lemma yearly_summary_parts_within_total_witness :
  let row := {| Views.YearlySummary.year := Some 2023;
                Views.YearlySummary.total := 161;
                Views.YearlySummary.person_crimes := 100;
                Views.YearlySummary.property_crimes := 50;
                Views.YearlySummary.society_crimes := 10;
                Views.YearlySummary.dv_total := 0;
                Views.YearlySummary.stolen_vehicle_total := 0 |} in
  row ∈ Views.yearly_summary ReferenceEngine.forward scenario_2023
  ∧ (Views.YearlySummary.person_crimes row
     + Views.YearlySummary.property_crimes row
     + Views.YearlySummary.society_crimes row
     ≤ Views.YearlySummary.total row)%nat
  ∧ (Views.YearlySummary.dv_total row ≤ Views.YearlySummary.total row)%nat
  ∧ (Views.YearlySummary.stolen_vehicle_total row
     ≤ Views.YearlySummary.total row)%nat.
Proof.
  intros row.
  assert (row ∈ Views.yearly_summary ReferenceEngine.forward scenario_2023)
    as Hrow by (vm_compute; do 2 constructor).
  split; [exact Hrow|].
  exact (yearly_summary_parts_within_total ReferenceEngine.forward
           scenario_2023 row Hrow).
Defined.

(** X13.  The age bands of [victim_demographics] cover every age: the band
    is "Unknown" exactly when the age is NULL, and for a known age each
    other band is chosen exactly on its range (below 18, 18 to 24, ..., 65
    and over), so the [ELSE] of the CASE is reached by NULL only. *)
Theorem age_bin_bands (victim_age : option Z) :
  (Views.age_bin victim_age = "Unknown" ↔ victim_age = None)
  ∧ ∀ a, victim_age = Some a →
      (Views.age_bin victim_age = "Under 18" ↔ a < 18)
      ∧ (Views.age_bin victim_age = "18-24" ↔ 18 ≤ a ≤ 24)
      ∧ (Views.age_bin victim_age = "25-34" ↔ 25 ≤ a ≤ 34)
      ∧ (Views.age_bin victim_age = "35-44" ↔ 35 ≤ a ≤ 44)
      ∧ (Views.age_bin victim_age = "45-54" ↔ 45 ≤ a ≤ 54)
      ∧ (Views.age_bin victim_age = "55-64" ↔ 55 ≤ a ≤ 64)
      ∧ (Views.age_bin victim_age = "65+" ↔ 65 ≤ a).
Proof.
  destruct victim_age as [a|]; [|split; [done|by intros a [=]]].
  assert (Views.age_bin (Some a) = "Under 18" ∧ a < 18
          ∨ Views.age_bin (Some a) = "18-24" ∧ 18 ≤ a ≤ 24
          ∨ Views.age_bin (Some a) = "25-34" ∧ 25 ≤ a ≤ 34
          ∨ Views.age_bin (Some a) = "35-44" ∧ 35 ≤ a ≤ 44
          ∨ Views.age_bin (Some a) = "45-54" ∧ 45 ≤ a ≤ 54
          ∨ Views.age_bin (Some a) = "55-64" ∧ 55 ≤ a ≤ 64
          ∨ Views.age_bin (Some a) = "65+" ∧ 65 ≤ a) as Hband.
  { unfold Views.age_bin.
    destruct (Z.ltb_spec a 18); [auto|].
    destruct (Z.leb_spec 18 a), (Z.leb_spec a 24); simpl; [auto 10|try lia..].
    destruct (Z.leb_spec 25 a), (Z.leb_spec a 34); simpl; [auto 10|try lia..].
    destruct (Z.leb_spec 35 a), (Z.leb_spec a 44); simpl; [auto 10|try lia..].
    destruct (Z.leb_spec 45 a), (Z.leb_spec a 54); simpl; [auto 10|try lia..].
    destruct (Z.leb_spec 55 a), (Z.leb_spec a 64); simpl; [auto 10|try lia..].
    destruct (Z.leb_spec 65 a); [auto 10|lia]. }
  split.
  - split; [|done]. intros Hu. rewrite Hu in Hband.
    destruct Hband as [[? _]|[[? _]|[[? _]|[[? _]|[[? _]|[[? _]|[? _]]]]]]];
      discriminate.
  - intros a' [= <-].
    destruct Hband as [[-> ?]|[[-> ?]|[[-> ?]|[[-> ?]|[[-> ?]|[[-> ?]|[-> ?]]]]]]];
      repeat split; intros; try discriminate; try lia; try done.
Qed.

(** ** The FAIL lines of the validator *)

Section FailFacts.

Lemma FAILs_snoc (report : list (Status * string)) (status : Status)
    (detail : string) :
  FAILs (report ++ [(status, detail)])
  = (FAILs report + if decide (status = FAIL) then 1 else 0)%nat.
Proof.
  unfold FAILs. rewrite filter_app, length_app. f_equal.
  rewrite filter_cons. simpl. by destruct (decide (status = FAIL)).
Qed.

Lemma fails_ret {A} (a : A) : fails (mret a : V A) 0.
Proof. intros s. simpl. split; lia. Qed.

Lemma fails_bind {A B} (m : V A) (k : A → V B) (a b : nat) :
  fails m a → (∀ x, fails (k x) b) → fails (m ≫= k) (a + b).
Proof.
  intros Hm Hk s. unfold mbind, V_bind.
  destruct (Hm s) as [Hf Hi]. destruct (m s) as [s' x].
  destruct (Hk x s') as [Hf' Hi']. simpl in *. split; lia.
Qed.

Lemma fails_eq {A} (m : V A) (n n' : nat) : fails m n → n = n' → fails m n'.
Proof. by intros H <-. Qed.

Lemma fails_say (status : Status) (detail : string) :
  status ≠ FAIL → fails (say status detail) 0.
Proof.
  intros Hs s. unfold say. simpl. rewrite FAILs_snoc.
  rewrite decide_False by done. split; lia.
Qed.

Lemma fails_issues_incr : fails issues_incr 0.
Proof. intros s. unfold issues_incr. simpl. split; lia. Qed.

Lemma fails_say_FAIL (detail : string) :
  fails (say FAIL detail;; issues_incr) 1.
Proof.
  intros s. unfold say, issues_incr, mbind, V_bind. simpl.
  rewrite FAILs_snoc. simpl. split; lia.
Qed.

Lemma fails_for_ {A} (l : list A) (body : A → V unit) (n : A → nat) :
  (∀ x, fails (body x) (n x)) → fails (for_ l body) (sum_list_with n l).
Proof.
  intros Hbody. induction l as [|x l IH]; simpl; [apply fails_ret|].
  apply fails_bind; [apply Hbody|intros _; apply IH].
Qed.

Lemma fails_when_exists {A} (file : option A) (body : A → V unit)
    (n : A → nat) :
  (∀ t, fails (body t) (n t)) →
  fails (when_exists file body) (from_option n 0%nat file).
Proof. intros Hbody. destruct file; simpl; [apply Hbody|apply fails_ret]. Qed.

(** The two file checks print one FAIL for each file that is not there. *)
Lemma fails_files (files : list (string * bool)) :
  fails (for_ files
           (λ f, if f.2 then say PASS f.1
                 else say FAIL (f.1 ++ ": NOT FOUND");; issues_incr))
        (length (filter (λ f : string * bool, f.2 = false) files)).
Proof.
  eapply fails_eq.
  - apply (fails_for_ _ _ (λ f : string * bool, if f.2 then 0%nat else 1%nat)).
    intros [name []]; simpl; [by apply fails_say|apply fails_say_FAIL].
  - induction files as [|[name b] files IH]; [done|].
    destruct b;
      [rewrite filter_cons_False by done|rewrite filter_cons_True by done];
      simpl; by rewrite IH.
Qed.

Lemma fails_for_0 {A} (l : list A) (body : A → V unit) :
  (∀ x, fails (body x) 0) → fails (for_ l body) 0.
Proof.
  intros Hbody. eapply fails_eq; [by apply (fails_for_ _ _ (λ _, 0%nat))|].
  induction l as [|x l IH]; simpl; [done|exact IH].
Qed.

End FailFacts.

Ltac no_fail :=
  repeat first
    [ apply fails_ret
    | apply fails_issues_incr
    | apply fails_say; discriminate
    | apply (fails_bind _ _ 0 0); [|intros ?]
    | apply fails_for_0; intros ?
    | match goal with
      | |- fails (if ?b then _ else _) _ => destruct b
      | |- fails (say (if ?b then _ else _) _) _ => destruct b
      end ].

Section CheckFacts.

(** No key occurs twice exactly when no group has more than one row. *)
Lemma NoDup_fmap_groups {R K} `{EqDecision K} (key : R → K) (rows : list R) :
  NoDup (key <$> rows)
  ↔ ∀ k, (length (filter (λ r, key r = k) rows) ≤ 1)%nat.
Proof.
  induction rows as [|x rows IH];
    [split; [intros _ k; simpl; lia|constructor]|].
  csimpl. rewrite NoDup_cons, IH. split.
  - intros [Hx Hrows] k. rewrite filter_cons.
    destruct (decide (key x = k)) as [<-|Hk]; [|apply Hrows].
    rewrite filter_none; [done|].
    intros y Hy Hk. apply Hx. rewrite <- Hk. apply list_elem_of_fmap. eauto.
  - intros Hall. split.
    + intros (r & Hk & Hr)%list_elem_of_fmap.
      specialize (Hall (key x)). rewrite filter_cons_True in Hall by done.
      assert (r ∈ filter (λ r', key r' = key x) rows) as Hin
        by (by apply list_elem_of_filter).
      destruct (filter _ rows); [by apply elem_of_nil in Hin|].
      simpl in Hall. lia.
    + intros k. specialize (Hall k). rewrite filter_cons in Hall.
      destruct (decide (key x = k)); simpl in Hall; lia.
Qed.

Lemma duplicate_groups_zero {R K} `{EqDecision K} (key : R → K)
    (rows : list R) :
  COUNT (filter (λ g : K * nat, (1 < g.2)%nat)
           (GROUP_BY key (λ k g, (k, COUNT g)) rows)) = 0%nat
  ↔ NoDup (key <$> rows).
Proof.
  rewrite NoDup_fmap_groups. unfold COUNT. rewrite length_zero_iff_nil.
  split.
  - intros Hnone k.
    destruct (decide (k ∈ key <$> rows)) as [Hk|Hk].
    + apply Nat.le_ngt. intros Hlt.
      assert ((k, length (filter (λ r, key r = k) rows))
              ∈ filter (λ g : K * nat, (1 < g.2)%nat)
                  (GROUP_BY key (λ k g, (k, length g)) rows)) as Hin.
      { apply list_elem_of_filter. split; [done|].
        apply elem_of_GROUP_BY. eauto. }
      rewrite Hnone in Hin. by apply elem_of_nil in Hin.
    + rewrite filter_none; [simpl; lia|].
      intros r Hr Hkey. apply Hk. apply list_elem_of_fmap. eauto.
  - intros Hall. apply filter_none. intros [k n] Hg Hn.
    apply elem_of_GROUP_BY in Hg as (k' & _ & [= -> ->]).
    simpl in Hn. specialize (Hall k'). unfold COUNT in Hn. lia.
Qed.

Lemma fails_check_1 p :
  fails (check_1 p)
    (length (filter (λ f : string * bool, f.2 = false)
       [("crime", bool_decide (is_Some (crime_parquet p)));
        ("arrests", bool_decide (is_Some (arrests_parquet p)));
        ("cfs", bool_decide (is_Some (cfs_parquet p)))])).
Proof. apply fails_files. Qed.

Lemma fails_check_2 crime : fails (check_2 crime) 0.
Proof. unfold check_2. no_fail. Qed.

Lemma fails_check_3 Y crime : fails (check_3 Y crime) 0.
Proof. unfold check_3. no_fail. Qed.

Lemma fails_check_4 crime : fails (check_4 crime) 0.
Proof. unfold check_4. no_fail. Qed.

Lemma fails_check_5 crime : fails (check_5 crime) 0.
Proof. unfold check_5. no_fail. Qed.

Lemma fails_check_6 E crime : fails (check_6 E crime) 0.
Proof. unfold check_6. no_fail. Qed.

Lemma fails_check_7 crime : fails (check_7 crime) 0.
Proof. unfold check_7. no_fail. Qed.

Lemma fails_check_8 E crime : fails (check_8 E crime) 0.
Proof. unfold check_8. no_fail. Qed.

Lemma fails_check_9 crime :
  fails (check_9 crime)
    (if decide (NoDup (crime_key <$> crime)) then 0 else 1).
Proof.
  unfold check_9.
  pose proof (duplicate_groups_zero crime_key crime) as Hz.
  unfold crime_key in Hz at 1.
  destruct (Nat.eqb_spec
              (COUNT (filter (λ g : _ * nat, (1 < g.2)%nat)
                 (GROUP_BY (λ r, (Crime.incidentuid r, Crime.offense_description r))
                    (λ k g, (k, COUNT g)) crime))) 0) as [Heq|Hne].
  - rewrite decide_True by (by apply Hz). by apply fails_say.
  - rewrite decide_False by (by rewrite <- Hz). apply fails_say_FAIL.
Qed.

Lemma fails_check_10 arrests : fails (check_10 arrests) 0.
Proof. unfold check_10. no_fail. Qed.

Lemma fails_check_11 arrests : fails (check_11 arrests) 0.
Proof. unfold check_11. no_fail. Qed.

Lemma fails_check_12 cfs : fails (check_12 cfs) 0.
Proof. unfold check_12. no_fail. Qed.

Lemma fails_check_13 Y cfs : fails (check_13 Y cfs) 0.
Proof. unfold check_13. no_fail. Qed.

Lemma fails_check_14 cfs : fails (check_14 cfs) 0.
Proof. unfold check_14. no_fail. Qed.

Lemma fails_check_15 a :
  fails (check_15 a)
    (length (filter (λ f : string * bool, f.2 = false) (expected_aggs a))).
Proof. apply fails_files. Qed.

End CheckFacts.

Lemma fails_validate_checks (E : Engine) (CURRENT_YEAR : Z) (d : Disk) :
  fails (validate_checks E CURRENT_YEAR d)
        (missing_files d + duplicated_keys d).
Proof.
  unfold validate_checks. eapply fails_eq.
  - apply fails_bind; [apply fails_check_1|intros _].
    apply fails_bind;
      [apply (fails_when_exists _ _ (λ _, 0%nat)), fails_check_2|intros _].
    apply fails_bind;
      [apply (fails_when_exists _ _ (λ _, 0%nat)), fails_check_3|intros _].
    apply fails_bind;
      [apply (fails_when_exists _ _ (λ _, 0%nat)), fails_check_4|intros _].
    apply fails_bind;
      [apply (fails_when_exists _ _ (λ _, 0%nat)), fails_check_5|intros _].
    apply fails_bind;
      [apply (fails_when_exists _ _ (λ _, 0%nat)), fails_check_6|intros _].
    apply fails_bind;
      [apply (fails_when_exists _ _ (λ _, 0%nat)), fails_check_7|intros _].
    apply fails_bind;
      [apply (fails_when_exists _ _ (λ _, 0%nat)), fails_check_8|intros _].
    apply fails_bind; [apply fails_when_exists, fails_check_9|intros _].
    apply fails_bind;
      [apply (fails_when_exists _ _ (λ _, 0%nat)), fails_check_10|intros _].
    apply fails_bind;
      [apply (fails_when_exists _ _ (λ _, 0%nat)), fails_check_11|intros _].
    apply fails_bind;
      [apply (fails_when_exists _ _ (λ _, 0%nat)), fails_check_12|intros _].
    apply fails_bind;
      [apply (fails_when_exists _ _ (λ _, 0%nat)), fails_check_13|intros _].
    apply fails_bind;
      [apply (fails_when_exists _ _ (λ _, 0%nat)), fails_check_14|intros _].
    apply fails_check_15.
  - unfold missing_files, expected_files, duplicated_keys.
    rewrite filter_app, length_app.
    destruct (crime_parquet (processed d)), (arrests_parquet (processed d)),
      (cfs_parquet (processed d)); simpl; lia.
Qed.

(** X14.  [validate] prints a FAIL line for each of the three canonical
    tables and fourteen aggregation files that is not there, one more when
    the canonical crime table has two rows with the same (incident id,
    offense description), and no other; and every FAIL line is counted in
    the number of issues it returns. *)
Theorem validate_fails_on_missing_files_and_duplicates (E : Engine)
    (CURRENT_YEAR : Z) (d : Disk) :
  FAILs (validate E CURRENT_YEAR d).2 = (missing_files d + duplicated_keys d)%nat
  ∧ (FAILs (validate E CURRENT_YEAR d).2 ≤ (validate E CURRENT_YEAR d).1)%nat.
Proof.
  unfold validate. simpl.
  destruct (fails_validate_checks E CURRENT_YEAR d
              {| issues := 0; report := [] |}) as [Hf Hi].
  simpl in *. split; [exact Hf|]. rewrite Hf. exact Hi.
Qed.

Lemma NoDup_crime_table (E : Engine) (raw_crime : list RawCrime.row) :
  NoDup (crime_key <$> crime_table E raw_crime).
Proof.
  rewrite crime_table_first_rows, <- list_fmap_compose.
  rewrite (list_fmap_ext _ crime_partition_key) by done.
  rewrite first_rows_keys. apply NoDup_remove_dups.
Qed.

(** X15.  The stages fit together: after a run of [transform] that returned
    on a [data/raw] with at least one calls file, whatever else was on the
    disk, [validate] prints no FAIL line: all seventeen files are there and
    the canonical crime table has no duplicate key. *)
Theorem complete_transform_validates_without_fail (E : Engine)
    (CURRENT_YEAR : Z) (w : World) :
  (transform E w).2 = Ok tt →
  cfs_csv (raw (disk w)) ≠ [] →
  FAILs (validate E CURRENT_YEAR (disk (transform E w).1)).2 = 0%nat.
Proof.
  intros Hok Hcfs.
  destruct (transform_returns E w Hok) as [[raw_crime Hcrime]
                                           [raw_arrests Harrests]].
  destruct (transform_complete E w _ _ Hcrime Harrests Hcfs) as [_ Hdisk].
  unfold validate. simpl.
  destruct (fails_validate_checks E CURRENT_YEAR (disk (transform E w).1)
              {| issues := 0; report := [] |}) as [-> _].
  rewrite Hdisk.
  unfold missing_files, duplicated_keys, expected_files. simpl.
  rewrite decide_True by apply NoDup_crime_table. done.
Qed.

Lemma complete_transform_validates_without_fail_witness :
  FAILs (validate ReferenceEngine.forward 2026
           (disk (transform ReferenceEngine.forward
                    {| disk := disk_stale; stdout := [] |}).1)).2 = 0%nat.
Proof.
  apply (complete_transform_validates_without_fail ReferenceEngine.forward
           2026 {| disk := disk_stale; stdout := [] |}).
  - vm_compute. reflexivity.
  - simpl. discriminate.
Defined.

(** ** Letter case in the agency classification *)

Section CaseFacts.

Lemma lower_char_idemp (c : ascii) : lower_char (lower_char c) = lower_char c.
Proof. destruct c as [[] [] [] [] [] [] [] []]; reflexivity. Qed.

Lemma upper_lower_char (c : ascii) : upper_char (lower_char c) = upper_char c.
Proof. destruct c as [[] [] [] [] [] [] [] []]; reflexivity. Qed.

Lemma lower_char_space (c : ascii) :
  Ascii.eqb (lower_char c) " " = Ascii.eqb c " ".
Proof. destruct c as [[] [] [] [] [] [] [] []]; reflexivity. Qed.

Lemma LOWER_idemp (s : string) : LOWER (LOWER s) = LOWER s.
Proof. induction s as [|c s IH]; simpl; [done|]. by rewrite lower_char_idemp, IH. Qed.

(** The default branch sees its argument only up to letter case. *)
Lemma UPPER_REPLACE_LOWER (s : string) :
  UPPER (REPLACE_space (LOWER s)) = UPPER (REPLACE_space s).
Proof.
  induction s as [|c s IH]; [done|].
  cbn [LOWER REPLACE_space]. rewrite lower_char_space.
  destruct (Ascii.eqb c " "); [done|].
  cbn [UPPER]. by rewrite upper_lower_char, IH.
Qed.

Lemma ILIKE_LOWER (s pat : string) : ILIKE (LOWER s) pat = ILIKE s pat.
Proof. unfold ILIKE. by rewrite LOWER_idemp. Qed.

Lemma agency_case_LOWER (agency : string) :
  agency_case (LOWER agency) = agency_case agency.
Proof.
  unfold agency_case. rewrite !ILIKE_LOWER, UPPER_REPLACE_LOWER. reflexivity.
Qed.

Lemma arrest_agency_case_eq (agency : string) :
  arrest_agency_case agency = agency_case agency.
Proof. unfold arrest_agency_case, agency_case. reflexivity. Qed.

End CaseFacts.

(** X16.  On ASCII text the agency classification does not look at letter
    case: two raw agency values of ASCII characters that are equal up to the
    case of their letters get the same short code, in the crime track and in
    the arrests track, whether a rule matches or the default applies. *)
Theorem agency_short_code_ignores_case (a b : string) :
  is_ascii a = true → is_ascii b = true →
  LOWER a = LOWER b →
  agency_case a = agency_case b
  ∧ arrest_agency_case a = arrest_agency_case b.
Proof.
  intros _ _ Hab.
  assert (agency_case a = agency_case b) as H.
  { rewrite <- (agency_case_LOWER a), Hab. apply agency_case_LOWER. }
  split; [exact H|].
  rewrite (arrest_agency_case_eq a), (arrest_agency_case_eq b). exact H.
Qed.

Lemma agency_short_code_ignores_case_witness :
  agency_case "San Diego" = agency_case "SAN DIEGO"
  ∧ arrest_agency_case "San Diego" = arrest_agency_case "SAN DIEGO".
Proof.
  apply (agency_short_code_ignores_case "San Diego" "SAN DIEGO");
    reflexivity.
Defined.

(** ** The year-over-year check *)

Section YearOverYear.

Lemma elem_of_consecutive {A} (l : list A) (a b : A) :
  (a, b) ∈ consecutive l → ∃ l1 l2, l = (l1 ++ a :: b :: l2)%list.
Proof.
  induction l as [|x l IH]; [by intros ?%elem_of_nil|].
  destruct l as [|y l]; [by intros ?%elem_of_nil|].
  cbn [consecutive]. intros [[= -> ->]|Hin]%elem_of_cons.
  - by exists [], l.
  - destruct (IH Hin) as (l1 & l2 & ->). by exists (x :: l1), l2.
Qed.

Lemma yearly_counts_rows (E : Engine) (crime : list Crime.row)
    (row : option Z * nat) :
  row ∈ yearly_counts E crime → is_Some row.1 ∧ (1 ≤ row.2)%nat.
Proof.
  unfold yearly_counts. rewrite elem_of_ORDER_BY. intros Hrow.
  apply elem_of_view in Hrow as (r & g & -> & Hin & _ & HP & _).
  split; [done|]. by eapply COUNT_pos.
Qed.

Lemma yearly_counts_sorted (E : Engine) (crime : list Crime.row) :
  StronglySorted (λ a b : option Z * nat,
                    ∃ x y, a.1 = Some x ∧ b.1 = Some y ∧ x < y)
    (yearly_counts E crime).
Proof.
  apply (sorted_distinct_increasing fst).
  - apply (ORDER_BY_sorted E).
    + intros x y z. apply ASC_NULLS_LAST_trans.
    + intros x y. apply ASC_NULLS_LAST_total.
  - unfold yearly_counts. rewrite (ORDER_BY_perm E).
    unfold GROUP_BY, PARTITION_BY. rewrite <- !list_fmap_compose.
    rewrite list_fmap_id. apply NoDup_remove_dups.
  - apply Forall_forall. intros row Hrow.
    by apply yearly_counts_rows in Hrow as [? _].
Qed.

End YearOverYear.

(** X17.  Check 8 walks the yearly counts in order and compares each with
    the one before it.  The two rows of every comparison have known years,
    the earlier one first, and counts of at least one: the change is always
    the quotient by the earlier count, and the guard for an earlier count
    of zero is never taken. *)
Theorem year_over_year_compares_counted_years (E : Engine)
    (crime : list Crime.row) :
  check_8 E crime
  = for_ (consecutive (yearly_counts E crime))
      (λ pc,
         let change := yoy_change pc.1.2 pc.2.2 in
         let status := if Qltb 50 (Qabs change) then WARN else PASS in
         (if Qltb 50 (Qabs change) then issues_incr else mret tt);;
         say status "year over year")
  ∧ ∀ prev curr,
      (prev, curr) ∈ consecutive (yearly_counts E crime) →
      (∃ x y, prev.1 = Some x ∧ curr.1 = Some y ∧ x < y)
      ∧ (1 ≤ prev.2)%nat ∧ (1 ≤ curr.2)%nat
      ∧ yoy_change prev.2 curr.2
        = (((Z.of_nat curr.2 - Z.of_nat prev.2) # 1) / (Z.of_nat prev.2 # 1)
           * 100)%Q.
Proof.
  split; [reflexivity|]. intros prev curr Hpc.
  apply elem_of_consecutive in Hpc as (l1 & l2 & Hl).
  pose proof (yearly_counts_sorted E crime) as Hsorted.
  assert (prev ∈ yearly_counts E crime ∧ curr ∈ yearly_counts E crime)
    as [Hprev Hcurr].
  { rewrite Hl, !elem_of_app, !elem_of_cons. auto. }
  apply yearly_counts_rows in Hprev as [_ Hprev].
  apply yearly_counts_rows in Hcurr as [_ Hcurr].
  rewrite Hl in Hsorted. apply StronglySorted_app_1_r in Hsorted.
  apply StronglySorted_inv in Hsorted as [_ Hall].
  apply Forall_cons in Hall as [Hlt _].
  repeat split; try done.
  unfold yoy_change, truthy. destruct prev.2; [lia|done].
Qed.

(** ** Running the transform stage again *)


(** ** The bounding box in the view and in the validator *)

Section FloatOrder.
Import SpecFloat FloatOps FloatAxioms.

Lemma SFcompare_antisym (a b : spec_float) (c : comparison) :
  SFcompare a b = Some c → SFcompare b a = Some (CompOpp c).
Proof.
  destruct a as [sa|sa| |sa ma ea], b as [sb|sb| |sb mb eb]; simpl;
    try discriminate;
    try (destruct sa; intros [= <-]; reflexivity);
    try (destruct sb; intros [= <-]; reflexivity);
    try (destruct sa, sb; intros [= <-]; reflexivity).
  destruct sa, sb; intros [= <-]; try reflexivity; f_equal.
  - rewrite (Z.compare_antisym ea eb).
    destruct (ea ?= eb); simpl; try reflexivity.
    by rewrite !Pos.compare_cont_antisym.
  - rewrite (Z.compare_antisym ea eb).
    destruct (ea ?= eb); simpl; try reflexivity.
    by rewrite !Pos.compare_cont_antisym.
Qed.

(** [a <= b] on doubles excludes [b < a]. *)
Lemma leb_not_ltb (a b : float) :
  PrimFloat.leb a b = true → PrimFloat.ltb b a = false.
Proof.
  rewrite leb_spec, ltb_spec. unfold SFleb, SFltb.
  destruct (SFcompare (Prim2SF a) (Prim2SF b)) as [c|] eqn:Hc; [|done].
  rewrite (SFcompare_antisym _ _ _ Hc). by destruct c.
Qed.

End FloatOrder.

(** X19.  The view and the validator agree on the bounding box: a canonical
    row that [map_points] keeps is never counted as a geographic outlier by
    check 4. *)
Theorem map_points_are_no_outliers (r : Crime.row) :
  Views.map_points_where r = true → geo_outlier r = false.
Proof.
  intros (lat & lng & Hlat & Hlng & H1 & H2 & H3 & H4)%map_points_where_bounds.
  unfold geo_outlier. rewrite Hlat, Hlng.
  unfold SD_LAT_MIN, SD_LAT_MAX, SD_LNG_MIN, SD_LNG_MAX.
  unfold _SD_LAT_MIN, _SD_LAT_MAX, _SD_LNG_MIN, _SD_LNG_MAX in *.
  by rewrite (leb_not_ltb _ _ H1), (leb_not_ltb _ _ H2),
    (leb_not_ltb _ _ H3), (leb_not_ltb _ _ H4).
Qed.

Lemma map_points_are_no_outliers_witness : geo_outlier downtown = false.
Proof.
  apply (map_points_are_no_outliers downtown). vm_compute. reflexivity.
Defined.


(** ** What a download writes *)

(** X20.  A stream download that goes to the network and is answered whole
    with a success status returns its path and leaves, under that path,
    exactly the chunks received, in order: the file is opened anew, so
    nothing of an older copy remains; no other file is touched. *)
Theorem download_replaces_the_file (net : Network) (url out_path : string)
    (force : bool) (fs : gmap string string) (status : Z)
    (chunks : list string) :
  stream_get net url = StreamResponse status chunks false →
  is_success status = true →
  not_cached_or_forced fs out_path force →
  ∃ fs', _csv_download net url out_path force fs
         = Some (fs', Ok (Some out_path))
         ∧ fs' !! out_path = Some (received chunks)
         ∧ ∀ q, q ≠ out_path → fs' !! q = fs !! q.
Proof.
  intros Hget Hok Hnc. exists (write_chunks out_path chunks fs).
  unfold _csv_download.
  rewrite (not_cached_or_forced_test _ _ _ Hnc), Hget, Hok.
  split; [done|]. split; [apply write_chunks_content|].
  intros q Hq. by apply write_chunks_other.
Qed.

Lemma download_replaces_the_file_witness :
  ∃ fs', _csv_download net_whole (cfs_url 2015) "cfs_2015.csv" true
           cache_old_2015
         = Some (fs', Ok (Some "cfs_2015.csv"))
         ∧ fs' !! "cfs_2015.csv" = Some (received ["year,beat;"; "2015,521;"; "2015,522;"])
         ∧ ∀ q, q ≠ "cfs_2015.csv" → fs' !! q = cache_old_2015 !! q.
Proof.
  apply (download_replaces_the_file net_whole (cfs_url 2015) "cfs_2015.csv"
           true cache_old_2015 200
           ["year,beat;"; "2015,521;"; "2015,522;"]).
  - reflexivity.
  - reflexivity.
  - by right.
Defined.

(** ** The order of the agency rules *)

Section RuleFacts.

Lemma LIKE_plain (pat s : string) :
  plain pat = true → LIKE pat s = true → s = pat.
Proof.
  revert s. induction pat as [|c pat IH]; intros s Hplain Hlike.
  { by destruct s. }
  simpl in Hplain. apply andb_prop in Hplain as [Hc Hplain].
  apply andb_prop in Hc as [Hpct Hund].
  assert (LIKE (String c pat) s
          = match s with
            | EmptyString => false
            | String d s' => Ascii.eqb c d && LIKE pat s'
            end) as Hstep.
  { clear -Hpct Hund.
    destruct c as [[] [] [] [] [] [] [] []]; try reflexivity;
      discriminate. }
  rewrite Hstep in Hlike. destruct s as [|d s]; [discriminate|].
  apply andb_prop in Hlike as [Hcd Hlike].
  apply Ascii.eqb_eq in Hcd as <-. f_equal. by apply IH.
Qed.

Lemma ILIKE_plain (agency pat : string) :
  plain (LOWER pat) = true → ILIKE agency pat = true →
  LOWER agency = LOWER pat.
Proof. intros Hplain Hlike. by apply LIKE_plain. Qed.

Lemma agency_case_first_match (agency : string) :
  agency_case agency = first_match agency_rules agency.
Proof. unfold agency_case, agency_rules. cbn [first_match]. reflexivity. Qed.

Lemma first_match_spec (rules : list ((string → bool) * string))
    (agency : string) :
  (∃ when code, (when, code) ∈ rules ∧ when agency = true
                ∧ first_match rules agency = code)
  ∨ ((∀ when code, (when, code) ∈ rules → when agency = false)
     ∧ first_match rules agency = UPPER (REPLACE_space agency)).
Proof.
  induction rules as [|[when code] rules IH]; simpl.
  { right. split; [|done]. by intros when code ?%elem_of_nil. }
  destruct (when agency) eqn:Hrule.
  { left. exists when, code. split; [left|done]. }
  destruct IH as [(w & c & Hr & Hm & Heq)|[Hnone Heq]].
  - left. exists w, c. split; [by right|done].
  - right. split; [|done].
    intros w c [[= -> ->]|Hr]%elem_of_cons; [done|by eapply Hnone].
Qed.

(** When no value can match two rules with different codes, the order of
    the rules does not matter. *)
Lemma first_match_perm (rules rules' : list ((string → bool) * string))
    (agency : string) :
  (∀ w1 c1 w2 c2, (w1, c1) ∈ rules → (w2, c2) ∈ rules →
                  w1 agency = true → w2 agency = true → c1 = c2) →
  rules' ≡ₚ rules →
  first_match rules' agency = first_match rules agency.
Proof.
  intros Hone Hperm.
  destruct (first_match_spec rules agency)
    as [(w & c & Hr & Hm & ->)|[Hnone ->]],
    (first_match_spec rules' agency)
    as [(w' & c' & Hr' & Hm' & ->)|[Hnone' ->]].
  - rewrite Hperm in Hr'. by eapply Hone.
  - rewrite <- Hperm in Hr. rewrite (Hnone' w c Hr) in Hm. done.
  - rewrite Hperm in Hr'. rewrite (Hnone w' c' Hr') in Hm'. done.
  - done.
Qed.

Lemma ILIKE_eq (s pat : string) : ILIKE s pat = LIKE (LOWER pat) (LOWER s).
Proof. reflexivity. Qed.

Ltac other_rule_fails Hexact Hother :=
  apply ILIKE_plain in Hexact; [|reflexivity];
  rewrite !ILIKE_eq, Hexact in Hother;
  vm_compute in Hother; discriminate Hother.

(** No raw value matches two rules of the table. *)
Lemma one_rule_matches (agency : string) (w1 w2 : string → bool)
    (c1 c2 : string) :
  (w1, c1) ∈ agency_rules → (w2, c2) ∈ agency_rules →
  w1 agency = true → w2 agency = true → c1 = c2.
Proof.
  unfold agency_rules. intros H1 H2 Hm1 Hm2.
  repeat (apply elem_of_cons in H1 as [[= -> ->]|H1]);
    [..|by apply elem_of_nil in H1];
    repeat (apply elem_of_cons in H2 as [[= -> ->]|H2]);
    try (by apply elem_of_nil in H2);
    try reflexivity;
    cbv beta in Hm1, Hm2;
    first [other_rule_fails Hm1 Hm2 | other_rule_fails Hm2 Hm1].
Qed.

End RuleFacts.

(** X21.  [_AGENCY_CASE] is the first-match reading of its table of eleven
    rules, and the order of the table is immaterial: no raw value matches
    two rules, so the rules taken in any other order give every raw value
    the same short code. *)
Theorem agency_rules_order_is_immaterial (agency : string) :
  agency_case agency = first_match agency_rules agency
  ∧ ∀ rules, rules ≡ₚ agency_rules →
             first_match rules agency = agency_case agency.
Proof.
  split; [apply agency_case_first_match|]. intros rules Hperm.
  rewrite agency_case_first_match.
  apply first_match_perm; [|done].
  intros w1 c1 w2 c2. apply one_rule_matches.
Qed.
